(** * ChampSim configuration back end: [config/filewrite.py]

    A shallow embedding of the file-generation back end of ChampSim's
    configure script, together with the parts of the Python standard
    library it calls ([str], text files, [os.path], [itertools],
    [difflib.SequenceMatcher], [hashlib.shake_128]).

    Conventions.
    - A Python [str] is a [string]; every [ascii] stands for the code point
      of the same number, so the model covers the code points below 256.
    - The file system is a finite map from path strings to file contents.
      Directories, permissions and I/O failures are not modelled, and two
      different path strings name two different files.
    - A line sequence stored in a fragment is either a re-iterable list or
      a reference to a one-shot generator kept in a store. *)

From Stdlib Require Import ZArith QArith Ascii.
From stdpp Require Import gmap strings list fin_maps sorting.


(* ================================================================= *)
(** ** Python [str] and text files *)

Module Py.

(** Code point of a character. *)
Definition ord (c : ascii) : N := Ascii.N_of_ascii c.

Definition LF : ascii := "010"%char.
Definition CR : ascii := "013"%char.

(** [str.isspace] on one character (code points below 256): TAB, LF, VT,
    FF, CR, FS, GS, RS, US, SPACE, NEL and NBSP. *)
Definition isspace (c : ascii) : bool :=
  let n := ord c in
  (((9 <=? n) && (n <=? 13)) || ((28 <=? n) && (n <=? 32))
   || (n =? 133) || (n =? 160))%N.

(** The line boundaries of [str.splitlines] (code points below 256):
    LF, VT, FF, CR, FS, GS, RS and NEL. *)
Definition is_linebreak (c : ascii) : bool :=
  let n := ord c in
  (((10 <=? n) && (n <=? 13)) || ((28 <=? n) && (n <=? 30))
   || (n =? 133))%N.

(** [s.lstrip()], [s.rstrip()], [s.strip()] without arguments. *)
Fixpoint lstrip (s : string) : string :=
  match s with
  | EmptyString => EmptyString
  | String c r => if isspace c then lstrip r else s
  end.

Fixpoint rstrip (s : string) : string :=
  match s with
  | EmptyString => EmptyString
  | String c r =>
      match rstrip r with
      | EmptyString => if isspace c then EmptyString else String c EmptyString
      | r' => String c r'
      end
  end.

Definition strip (s : string) : string := rstrip (lstrip s).

(** [s.splitlines()]: cut at every line boundary, CR LF counting as one;
    no empty last line after a final boundary. *)
Fixpoint splitlines (s : string) : list string :=
  match s with
  | EmptyString => []
  | String c r =>
      if is_linebreak c then
        match r with
        | String c' r' =>
            if Ascii.eqb c CR && Ascii.eqb c' LF
            then EmptyString :: splitlines r'
            else EmptyString :: splitlines r
        | EmptyString => [EmptyString]
        end
      else
        match splitlines r with
        | [] => [String c EmptyString]
        | l :: ls => String c l :: ls
        end
  end.

(** [sep.join(lines)]. *)
Fixpoint join (sep : string) (l : list string) : string :=
  match l with
  | [] => EmptyString
  | x :: r =>
      match r with
      | [] => x
      | _ :: _ => x +:+ sep +:+ join sep r
      end
  end.

(** [s.startswith(p)] and [s.endswith(p)]. *)
Fixpoint startswith (s p : string) : bool :=
  match p, s with
  | EmptyString, _ => true
  | String a p', String b s' => Ascii.eqb a b && startswith s' p'
  | String _ _, EmptyString => false
  end.

Fixpoint endswith (s p : string) : bool :=
  String.eqb s p
  || match s with
     | EmptyString => false
     | String _ r => endswith r p
     end.

(** Text files on a POSIX system.  Writing in mode ['wt'] stores the
    string as it is.  Reading in mode ['rt'] uses universal newlines:
    CR LF and a lone CR are both read as LF. *)
Fixpoint universal_newlines (s : string) : string :=
  match s with
  | EmptyString => EmptyString
  | String c r =>
      if Ascii.eqb c CR then
        match r with
        | String c' r' =>
            if Ascii.eqb c' LF then String LF (universal_newlines r')
            else String LF (universal_newlines r)
        | EmptyString => String LF EmptyString
        end
      else String c (universal_newlines r)
  end.

(** Iterating over an open text file yields its lines, each one with its
    terminating LF (the last one may lack it). *)
Fixpoint iter_lines (s : string) : list string :=
  match s with
  | EmptyString => []
  | String c r =>
      if Ascii.eqb c LF then String LF EmptyString :: iter_lines r
      else
        match iter_lines r with
        | [] => [String c EmptyString]
        | l :: ls => String c l :: ls
        end
  end.

(** [list(open(fname, 'rt'))] for a file whose content is [s]. *)
Definition readlines (s : string) : list string :=
  iter_lines (universal_newlines s).

(** A plain text: its only line boundaries are LF and CR.  VT, FF, FS,
    GS, RS and NEL end a line for [str.splitlines] and not for a text
    file. *)
Definition plain_char (c : ascii) : bool :=
  negb (is_linebreak c) || Ascii.eqb c LF || Ascii.eqb c CR.

Fixpoint plain (s : string) : bool :=
  match s with
  | EmptyString => true
  | String c r => plain_char c && plain r
  end.

End Py.

(* ================================================================= *)
(** ** [os.path] on POSIX ([posixpath], [genericpath]) *)

Module PosixPath.

Definition sep : ascii := "/"%char.
Definition extsep : ascii := "."%char.

(** [s.rfind(c)]: index of the last occurrence of [c], or [-1]. *)
Fixpoint rfind_from (i : Z) (c : ascii) (s : string) : Z :=
  match s with
  | EmptyString => (-1)%Z
  | String a r =>
      let k := rfind_from (i + 1) c r in
      if (0 <=? k)%Z then k else if Ascii.eqb a c then i else (-1)%Z
  end.

Definition rfind (c : ascii) (s : string) : Z := rfind_from 0 c s.

(** The slices [p[:i]], [p[i:]] and [p[i:i+1]] for [0 <= i]. *)
Definition slice_to (p : string) (i : Z) : string :=
  String.substring 0 (Z.to_nat i) p.

Definition slice_from (p : string) (i : Z) : string :=
  String.substring (Z.to_nat i) (String.length p - Z.to_nat i) p.

Definition char_at (p : string) (i : Z) : string :=
  String.substring (Z.to_nat i) 1 p.

(** The loop of [genericpath._splitext] that skips the leading dots of
    the file name: it returns the split at [dotIndex] as soon as it meets
    a character that is not a dot, and [None] when it runs through. *)
Fixpoint skip_leading_dots (fuel : nat) (p : string)
    (filenameIndex dotIndex : Z) : option (string * string) :=
  match fuel with
  | O => None
  | S fuel' =>
      if (filenameIndex <? dotIndex)%Z then
        if String.eqb (char_at p filenameIndex) (String extsep EmptyString)
        then skip_leading_dots fuel' p (filenameIndex + 1) dotIndex
        else Some (slice_to p dotIndex, slice_from p dotIndex)
      else None
  end.

(** [os.path.splitext(p)]. *)
Definition splitext (p : string) : string * string :=
  let sepIndex := rfind sep p in
  let dotIndex := rfind extsep p in
  if (sepIndex <? dotIndex)%Z then
    let filenameIndex := (sepIndex + 1)%Z in
    match skip_leading_dots (Z.to_nat (dotIndex - filenameIndex)) p
            filenameIndex dotIndex with
    | Some r => r
    | None => (p, EmptyString)
    end
  else (p, EmptyString).

(** One step of the loop of [os.path.join]. *)
Definition join_step (path b : string) : string :=
  if Py.startswith b (String sep EmptyString) || String.eqb path EmptyString
  then b
  else if Py.endswith path (String sep EmptyString) then path +:+ b
  else path +:+ String sep b.

(** [os.path.join(a, *p)]. *)
Definition join (a : string) (p : list string) : string :=
  fold_left join_step p a.

(** [os.path.dirname(p)]. *)
Fixpoint all_sep (s : string) : bool :=
  match s with
  | EmptyString => true
  | String c r => Ascii.eqb c sep && all_sep r
  end.

Fixpoint rstrip_sep (s : string) : string :=
  match s with
  | EmptyString => EmptyString
  | String c r =>
      match rstrip_sep r with
      | EmptyString =>
          if Ascii.eqb c sep then EmptyString else String c EmptyString
      | r' => String c r'
      end
  end.

Definition dirname (p : string) : string :=
  let i := (rfind sep p + 1)%Z in
  let head := slice_to p i in
  if negb (String.eqb head EmptyString) && negb (all_sep head)
  then rstrip_sep head else head.

(** [s.split('/')]. *)
Fixpoint split_sep (s : string) : list string :=
  match s with
  | EmptyString => [EmptyString]
  | String c r =>
      if Ascii.eqb c sep then EmptyString :: split_sep r
      else
        match split_sep r with
        | [] => [String c EmptyString]
        | l :: ls => String c l :: ls
        end
  end.

(** The loop of [os.path.normpath] over the components; [new_comps] is
    kept in reverse, its head being [new_comps[-1]]. *)
Definition normpath_step (initial_slashes : nat) (new_comps : list string)
    (comp : string) : list string :=
  if String.eqb comp EmptyString || String.eqb comp "." then new_comps
  else if negb (String.eqb comp "..")
          || (Nat.eqb initial_slashes 0 && bool_decide (new_comps = []))
          || (match new_comps with
              | last :: _ => String.eqb last ".."
              | [] => false
              end)
  then comp :: new_comps
  else match new_comps with
       | _ :: rest => rest
       | [] => new_comps
       end.

Fixpoint repeat_sep (n : nat) : string :=
  match n with
  | O => EmptyString
  | S n' => String sep (repeat_sep n')
  end.

(** [os.path.normpath(path)]. *)
Definition normpath (path : string) : string :=
  if String.eqb path EmptyString then "."
  else
    let initial_slashes :=
      if Py.startswith path "/" then
        if Py.startswith path "//" && negb (Py.startswith path "///")
        then 2%nat else 1%nat
      else 0%nat in
    let comps := rev (fold_left (normpath_step initial_slashes)
                                (split_sep path) []) in
    let joined := repeat_sep initial_slashes +:+ Py.join "/" comps in
    if String.eqb joined EmptyString then "." else joined.

(** [os.path.abspath(path)] in a process whose working directory is
    [cwd]. *)
Definition abspath (cwd path : string) : string :=
  if Py.startswith path "/" then normpath path
  else normpath (join cwd [path]).

End PosixPath.

(* ================================================================= *)
(** ** [sorted] and [itertools.groupby] *)

Module Itertools.

(** [sorted(l)] and [list.sort()] are stable: of two elements neither of
    which is smaller than the other, the one that came first stays
    first.  [leb x y] stands for [not (y < x)]. *)
Section Sort.
Context {A : Type} (leb : A -> A -> bool).

Fixpoint insert_sorted (x : A) (l : list A) : list A :=
  match l with
  | [] => [x]
  | y :: r => if leb x y then x :: l else y :: insert_sorted x r
  end.

Fixpoint sorted (l : list A) : list A :=
  match l with
  | [] => []
  | x :: r => insert_sorted x (sorted r)
  end.
End Sort.

Section Keyed.
Context {A : Type} (key : A -> string).

(** [sorted(l, key=key)] for string keys, which compare code point by
    code point. *)
Definition sorted_by_key (l : list A) : list A :=
  sorted (fun x y => String.leb (key x) (key y)) l.

(** [itertools.groupby(l, key=key)]: the maximal runs of consecutive
    elements with equal keys, each with its key. *)
Fixpoint groupby (l : list A) : list (string * list A) :=
  match l with
  | [] => []
  | x :: r =>
      match groupby r with
      | (k, g) :: gs =>
          if String.eqb (key x) k then (k, x :: g) :: gs
          else (key x, [x]) :: (k, g) :: gs
      | [] => [(key x, [x])]
      end
  end.
End Keyed.
End Itertools.

(* ================================================================= *)
(** ** [difflib.SequenceMatcher] *)

Module Difflib.

(** A match [(i, j, k)]: [a[i:i+k] == b[j:j+k]]. *)
Definition Match : Type := nat * nat * nat.

(** A region [(alo, ahi, blo, bhi)] still to be searched. *)
Definition Region : Type := nat * nat * nat * nat.

Definition match_size (m : Match) : nat := m.2.

(** Tuples of integers compare lexicographically. *)
Definition match_leb (x y : Match) : bool :=
  let '(i1, j1, k1) := x in
  let '(i2, j2, k2) := y in
  (i1 <? i2) || ((i1 =? i2) && ((j1 <? j2) || ((j1 =? j2) && (k1 <=? k2)))).

Section SequenceMatcher.
Context `{Countable A}.

(** [SequenceMatcher(a=..., b=...)] is built with [isjunk=None] and
    [autojunk=True]. *)
Definition autojunk : bool := true.

(** With [isjunk=None] the set [bjunk] is empty. *)
Definition isbjunk (x : A) : bool := false.

(** [__chain_b]: [b2j] maps every element of [b] to the list of the
    indices where it occurs, in increasing order. *)
Definition b2j_add (b2j : gmap A (list nat)) (ix : nat * A)
    : gmap A (list nat) :=
  <[ix.2 := default [] (b2j !! ix.2) ++ [ix.1]]> b2j.

Definition b2j_all (b : list A) : gmap A (list nat) :=
  fold_left b2j_add (imap pair b) ∅.

(** The elements that occur more than [n // 100 + 1] times in a [b] of
    at least 200 elements are popular and leave [b2j]. *)
Definition chain_b (b : list A) : gmap A (list nat) :=
  let b2j := b2j_all b in
  let n := length b in
  if autojunk && (200 <=? n) then
    let ntest := n / 100 + 1 in
    filter (fun kv : A * list nat => length kv.2 ≤ ntest) b2j
  else b2j.

Section FindLongestMatch.
Variables (a b : list A) (b2j : gmap A (list nat)).
Variables (alo ahi blo bhi : nat).

(** [j2lenget(j-1, 0)]; the key [-1] is never present. *)
Definition j2lenget_pred (j2len : gmap nat nat) (j : nat) : nat :=
  match j with
  | O => 0
  | S j' => default 0 (j2len !! j')
  end.

(** The inner loop, over the indices [js] of [a[i]] in [b]:
    [continue] below [blo], [break] from [bhi] on.  [k] never
    exceeds [i + 1] and [j + 1], so [i - k + 1] is [i + 1 - k]. *)
Fixpoint scan_row (i : nat) (j2len : gmap nat nat) (js : list nat)
    (best : Match) (newj2len : gmap nat nat) : Match * gmap nat nat :=
  match js with
  | [] => (best, newj2len)
  | j :: js' =>
      if j <? blo then scan_row i j2len js' best newj2len
      else if bhi <=? j then (best, newj2len)
      else
        let k := j2lenget_pred j2len j + 1 in
        let best' :=
          if match_size best <? k then (i + 1 - k, j + 1 - k, k)
          else best in
        scan_row i j2len js' best' (<[j := k]> newj2len)
  end.

(** The outer loop, [for i in range(alo, ahi)].  [a[i]] is always in
    range, because [ahi <= len(a)]. *)
Definition scan_step (st : Match * gmap nat nat) (i : nat)
    : Match * gmap nat nat :=
  match a !! i with
  | Some x => scan_row i st.2 (default [] (b2j !! x)) st.1 ∅
  | None => (st.1, ∅)
  end.

Definition scan_rows : Match * gmap nat nat :=
  fold_left scan_step (seq alo (ahi - alo)) ((alo, blo, 0), ∅).

(** [a[i] == b[j]], both in range. *)
Definition same_at (i j : nat) : bool :=
  match a !! i, b !! j with
  | Some x, Some y => bool_decide (x = y)
  | _, _ => false
  end.

Definition junk_at (j : nat) : bool :=
  match b !! j with
  | Some y => isbjunk y
  | None => false
  end.

(** The loops that extend the match to the left, over elements of
    [b] that are junk ([junk = true]) or not ([junk = false]). *)
Fixpoint extend_left (junk : bool) (besti bestj bestsize : nat)
    : Match :=
  match besti, bestj with
  | S i', S j' =>
      if (alo <? besti) && (blo <? bestj)
         && Bool.eqb (junk_at j') junk && same_at i' j'
      then extend_left junk i' j' (bestsize + 1)
      else (besti, bestj, bestsize)
  | _, _ => (besti, bestj, bestsize)
  end.

(** The loops that extend the match to the right; they run at most
    [ahi - (besti + bestsize)] times. *)
Fixpoint extend_right (fuel : nat) (junk : bool)
    (besti bestj bestsize : nat) : nat :=
  match fuel with
  | O => bestsize
  | S fuel' =>
      if (besti + bestsize <? ahi) && (bestj + bestsize <? bhi)
         && Bool.eqb (junk_at (bestj + bestsize)) junk
         && same_at (besti + bestsize) (bestj + bestsize)
      then extend_right fuel' junk besti bestj (bestsize + 1)
      else bestsize
  end.

Definition extend (junk : bool) (m : Match) : Match :=
  let '(besti, bestj, bestsize) := extend_left junk m.1.1 m.1.2 m.2 in
  (besti, bestj,
   extend_right (ahi - (besti + bestsize)) junk besti bestj bestsize).

(** [find_longest_match(alo, ahi, blo, bhi)]. *)
Definition find_longest_match : Match :=
  extend true (extend false scan_rows.1).
End FindLongestMatch.

(** The loop of [get_matching_blocks] over the stack [queue] (its head
    is the element [queue.pop()] takes).  [None] when [fuel] runs out
    before the stack is empty. *)
Fixpoint match_regions (a b : list A) (b2j : gmap A (list nat))
    (fuel : nat) (queue : list Region) (matching_blocks : list Match)
    : option (list Match) :=
  match queue with
  | [] => Some matching_blocks
  | (alo, ahi, blo, bhi) :: queue' =>
      match fuel with
      | O => None
      | S fuel' =>
          let '(i, j, k) := find_longest_match a b b2j alo ahi blo bhi in
          if k =? 0 then match_regions a b b2j fuel' queue' matching_blocks
          else
            let q1 :=
              if (alo <? i) && (blo <? j)
              then (alo, i, blo, j) :: queue' else queue' in
            let q2 :=
              if (i + k <? ahi) && (j + k <? bhi)
              then (i + k, ahi, j + k, bhi) :: q1 else q1 in
            match_regions a b b2j fuel' q2 (matching_blocks ++ [(i, j, k)])
      end
  end.

(** The loop that merges adjacent blocks of the sorted list. *)
Fixpoint collapse (i1 j1 k1 : nat) (blocks non_adjacent : list Match)
    : list Match :=
  match blocks with
  | [] => if k1 =? 0 then non_adjacent else non_adjacent ++ [(i1, j1, k1)]
  | (i2, j2, k2) :: rest =>
      if (i1 + k1 =? i2) && (j1 + k1 =? j2)
      then collapse i1 j1 (k1 + k2) rest non_adjacent
      else collapse i2 j2 k2 rest
             (if k1 =? 0 then non_adjacent
              else non_adjacent ++ [(i1, j1, k1)])
  end.

(** [get_matching_blocks()].  Every turn of the loop either drops a
    region or splits one around a match that is not empty, so
    [2 * len(a) + 1] turns are enough ([match_regions_total]); the
    [None] branch is never taken. *)
Definition get_matching_blocks (a b : list A) : list Match :=
  let la := length a in
  let lb := length b in
  match match_regions a b (chain_b b) (2 * la + 1) [(0, la, 0, lb)] [] with
  | Some matching_blocks =>
      collapse 0 0 0 (Itertools.sorted match_leb matching_blocks) []
        ++ [(la, lb, 0)]
  | None => []
  end.

(** [_calculate_ratio(matches, length)].  The quotient is a float in
    Python; the model keeps the exact rational, which compares with 1
    the same way for all lengths below [2 ^ 53]. *)
Definition calculate_ratio (matches length : nat) : Q :=
  if length =? 0 then 1%Q
  else (2 * inject_Z (Z.of_nat matches) / inject_Z (Z.of_nat length))%Q.

(** [SequenceMatcher(a=a, b=b).ratio()]. *)
Definition ratio (a b : list A) : Q :=
  let matches := sum_list (match_size <$> get_matching_blocks a b) in
  calculate_ratio matches (length a + length b).
End SequenceMatcher.
End Difflib.

(* ================================================================= *)
(** ** [str.encode('utf-8')] and [hashlib.shake_128] *)

Module Hashlib.
Local Open Scope Z_scope.

(** A byte is a [Z] in [0, 256); a lane is a [Z] in [0, 2^64). *)

(** [s.encode('utf-8')] for code points below 256: one byte below 128,
    two bytes from 128 on. *)
Fixpoint encode_utf8 (s : string) : list Z :=
  match s with
  | EmptyString => []
  | String c r =>
      let n := Z.of_N (Py.ord c) in
      if n <? 128 then n :: encode_utf8 r
      else Z.lor 192 (Z.shiftr n 6) :: Z.lor 128 (Z.land n 63)
             :: encode_utf8 r
  end.

Definition mask64 : Z := Z.ones 64.

Definition rotl64 (v n : Z) : Z :=
  Z.land (Z.lor (Z.shiftl v n) (Z.shiftr v (64 - n))) mask64.

(** The state of Keccak-f[1600]: 25 lanes, lane [(x, y)] at index
    [x + 5 * y]. *)
Definition lane (st : list Z) (x y : nat) : Z :=
  nth ((x mod 5) + 5 * (y mod 5))%nat st 0.

Definition coords : list (nat * nat) :=
  y ← seq 0 5; x ← seq 0 5; [(x, y)].

Definition rho_offsets : list Z :=
  [ 0;  1; 62; 28; 27;
   36; 44;  6; 55; 20;
    3; 10; 43; 25; 39;
   41; 45; 15; 21;  8;
   18;  2; 61; 56; 14].

Definition round_constants : list Z :=
  [0x0000000000000001; 0x0000000000008082; 0x800000000000808A;
   0x8000000080008000; 0x000000000000808B; 0x0000000080000001;
   0x8000000080008081; 0x8000000000008009; 0x000000000000008A;
   0x0000000000000088; 0x0000000080008009; 0x000000008000000A;
   0x000000008000808B; 0x800000000000008B; 0x8000000000008089;
   0x8000000000008003; 0x8000000000008002; 0x8000000000000080;
   0x000000000000800A; 0x800000008000000A; 0x8000000080008081;
   0x8000000000008080; 0x0000000080000001; 0x8000000080008008].

Definition theta (st : list Z) : list Z :=
  let C x := fold_left Z.lxor (map (lane st x) (seq 0 5)) 0 in
  let D x := Z.lxor (C (x + 4)%nat) (rotl64 (C (x + 1)%nat) 1) in
  map (fun xy : nat * nat => Z.lxor (lane st xy.1 xy.2) (D xy.1)) coords.

Definition rho_pi (st : list Z) : list Z :=
  map (fun xy : nat * nat =>
         let x' := ((xy.1 + 3 * xy.2) mod 5)%nat in
         rotl64 (lane st x' xy.1) (nth (x' + 5 * xy.1)%nat rho_offsets 0))
      coords.

Definition chi (st : list Z) : list Z :=
  map (fun xy : nat * nat =>
         Z.lxor (lane st xy.1 xy.2)
                (Z.ldiff (lane st (xy.1 + 2) xy.2) (lane st (xy.1 + 1) xy.2)))
      coords.

Definition iota (rc : Z) (st : list Z) : list Z :=
  match st with
  | l :: r => Z.lxor l rc :: r
  | [] => []
  end.

Definition keccak_round (st : list Z) (rc : Z) : list Z :=
  iota rc (chi (rho_pi (theta st))).

Definition keccak_f (st : list Z) : list Z :=
  fold_left keccak_round round_constants st.

(** Lanes and bytes, little endian. *)
Definition lane_of_bytes (bs : list Z) : Z :=
  fold_right (fun byte acc => Z.lor byte (Z.shiftl acc 8)) 0 bs.

Fixpoint lanes_of_bytes (n : nat) (bs : list Z) : list Z :=
  match n with
  | O => []
  | S n' => lane_of_bytes (take 8 bs) :: lanes_of_bytes n' (drop 8 bs)
  end.

Definition bytes_of_lane (l : Z) : list Z :=
  map (fun i => Z.land (Z.shiftr l (8 * Z.of_nat i)) 255) (seq 0 8).

Definition bytes_of_state (st : list Z) : list Z :=
  l ← st; bytes_of_lane l.

(** SHAKE128: rate 168 bytes, capacity 32 bytes, domain suffix [0x1F]
    and the final bit [0x80] of the padding. *)
Definition rate : nat := 168.

Definition pad (msg : list Z) : list Z :=
  let q := (rate - (length msg mod rate))%nat in
  if (q =? 1)%nat then msg ++ [0x9F]
  else msg ++ [0x1F] ++ replicate (q - 2) 0 ++ [0x80].

Definition absorb_block (st block : list Z) : list Z :=
  keccak_f (zip_with Z.lxor st (lanes_of_bytes 25 block)).

Fixpoint absorb (blocks : nat) (st padded : list Z) : list Z :=
  match blocks with
  | O => st
  | S n => absorb n (absorb_block st (take rate padded)) (drop rate padded)
  end.

Fixpoint squeeze (blocks : nat) (st : list Z) : list Z :=
  match blocks with
  | O => []
  | S n => take rate (bytes_of_state st) ++ squeeze n (keccak_f st)
  end.

(** [hashlib.shake_128(msg).digest(n)]. *)
Definition shake_128_digest (msg : list Z) (n : nat) : list Z :=
  let padded := pad msg in
  let st := absorb (length padded / rate) (replicate 25 0) padded in
  take n (squeeze (n / rate + 1) st).

(** Two lower-case hexadecimal digits per byte. *)
Definition hex_digit (d : Z) : ascii :=
  nth (Z.to_nat d)
      (String.list_ascii_of_string "0123456789abcdef") "0"%char.

Fixpoint hex_of_bytes (bs : list Z) : string :=
  match bs with
  | [] => EmptyString
  | byte :: r =>
      String (hex_digit (Z.shiftr byte 4))
        (String (hex_digit (Z.land byte 15)) (hex_of_bytes r))
  end.

(** A lower-case hexadecimal digit. *)
Definition is_lower_hex (c : ascii) : bool :=
  bool_decide (c ∈ String.list_ascii_of_string "0123456789abcdef").

(** [hashlib.shake_128(msg).hexdigest(n)]. *)
Definition shake_128_hexdigest (msg : list Z) (n : nat) : string :=
  hex_of_bytes (shake_128_digest msg n).

End Hashlib.

(* ================================================================= *)
(** ** [config/filewrite.py] *)

Module FileWrite.

(** The newline separator ["\n"]. *)
Definition NL : string := String Py.LF EmptyString.

Definition constants_file_name : string := "champsim_constants.h".
Definition instantiation_file_name : string := "core_inst.inc".
Definition core_module_declaration_file_name : string :=
  "ooo_cpu_module_decl.inc".
Definition core_module_definition_file_name : string :=
  "ooo_cpu_module_def.inc".
Definition cache_module_declaration_file_name : string :=
  "cache_module_decl.inc".
Definition cache_module_definition_file_name : string :=
  "cache_module_def.inc".

Definition cxx_generated_warning : list string :=
  ["/***";
   " * THIS FILE IS AUTOMATICALLY GENERATED";
   " * Do not edit this file. It will be overwritten when the configure script is run.";
   " ***/";
   ""].

Definition make_generated_warning : list string :=
  ["###";
   "# THIS FILE IS AUTOMATICALLY GENERATED";
   "# Do not edit this file. It will be overwritten when the configure script is run.";
   "###";
   ""].

(** *** The world outside the writer *)

(** The lines of a fragment: a list or tuple, which can be iterated any
    number of times, or a generator object, which yields its lines once.
    A generator is a reference into the store of the world. *)
Inductive line_seq : Type :=
| Lines (lines : list string)
| Generator (g : nat).

(** What an observer of the process can count. *)
Inductive event : Type :=
| Wrote (fname : string)
| Finished.

#[global] Instance event_eq_dec : EqDecision event.
Proof. solve_decision. Defined.

Record World : Type := mkWorld {
  files : gmap string string;      (* path -> content *)
  generators : list (list string); (* generator -> lines still to come *)
  trace : list event               (* oldest event first *)
}.

Definition set_generators (gens : list (list string)) (wd : World) : World :=
  mkWorld (files wd) gens (trace wd).

Definition log_event (e : event) (wd : World) : World :=
  mkWorld (files wd) (generators wd) (trace wd ++ [e]).

(** The flushes and the file writes the trace has seen. *)
Definition finish_count (wd : World) : nat :=
  length (filter (fun e => e = Finished) (trace wd)).

Definition write_count (wd : World) : nat :=
  length (filter (fun e => e ≠ Finished) (trace wd)).

(** [with open(fname, 'wt') as wfp: wfp.write(content)]. *)
Definition write_text (fname content : string) (wd : World) : World :=
  mkWorld (<[fname := content]> (files wd)) (generators wd)
          (trace wd ++ [Wrote fname]).

(** Running an iterable to its end.  A generator that has been run, or a
    reference to none, yields nothing. *)
Definition iterate (ls : line_seq) (gens : list (list string))
    : list string * list (list string) :=
  match ls with
  | Lines lines => (lines, gens)
  | Generator g => (default [] (gens !! g), <[g := []]> gens)
  end.

(** The lines of all fragments of a group, chained and run to their end. *)
Fixpoint drain (fcontents : list (string * line_seq))
    (gens : list (list string)) : list string * list (list string) :=
  match fcontents with
  | [] => ([], gens)
  | f :: rest =>
      let '(lines, gens1) := iterate f.2 gens in
      let '(more, gens2) := drain rest gens1 in
      (lines ++ more, gens2)
  end.

(** *** Change detection *)

Definition files_are_different (rfp new_rfp : list string) : bool :=
  let old_file_lines := Py.strip <$> rfp in
  let new_file_lines := Py.strip <$> new_rfp in
  negb (Qle_bool 1 (Difflib.ratio old_file_lines new_file_lines)).

Definition write_if_different (fname new_file_string : string)
    (wd : World) : World :=
  let should_write :=
    match files wd !! fname with
    | Some content =>
        files_are_different (Py.readlines content)
                            (Py.splitlines new_file_string)
    | None => true
    end in
  if should_write then write_text fname new_file_string wd else wd.

(** [get_map_lines(fname_map)], over the items of the dictionary. *)
Definition get_map_lines (fname_map : list (string * string)) : list string :=
  (fun x : string * string => "#define " +:+ x.1 +:+ " " +:+ x.2)
    <$> fname_map.

(** *** The writer *)

Record FileWriter : Type := mkFileWriter {
  fileparts : list (string * line_seq);
  bindir_name : option string;
  core_sources : string;
  objdir_name : option string
}.

Inductive exn : Type :=
| TypeError
| Exception (what : string).

Inductive Outcome (R : Type) : Type :=
| Ret (r : R)
| Raise (e : exn).
Arguments Ret {R} r.
Arguments Raise {R} e.

(** A method of the writer: it reads and changes the writer and the
    world, and returns or raises. *)
Definition M (R : Type) : Type :=
  FileWriter * World -> Outcome R * (FileWriter * World).

Definition ret {R} (r : R) : M R := fun st => (Ret r, st).

Definition raise {R} (e : exn) : M R := fun st => (Raise e, st).

Definition bind {R S} (m : M R) (k : R -> M S) : M S :=
  fun st =>
    match m st with
    | (Ret r, st') => k r st'
    | (Raise e, st') => (Raise e, st')
    end.

#[global] Instance M_ret : MRet M := @ret.
#[global] Instance M_bind : MBind M := fun R S k m => bind m k.

Definition get_self : M FileWriter := fun st => (Ret st.1, st).

(** [self.fileparts.append(part)]. *)
Definition append (part : string * line_seq) : M unit :=
  fun st =>
    let self := st.1 in
    (Ret (),
     (mkFileWriter (fileparts self ++ [part]) (bindir_name self)
                   (core_sources self) (objdir_name self),
      st.2)).

(** A call of a generator function: a new generator object that will
    yield [lines]. *)
Definition new_generator (lines : list string) : M line_seq :=
  fun st =>
    let gens := generators st.2 in
    (Ret (Generator (length gens)),
     (st.1, set_generators (gens ++ [lines]) st.2)).

(** [x or y] on optional strings: [None] and [''] are false. *)
Definition py_or (x y : option string) : option string :=
  match x with
  | Some s => if String.eqb s EmptyString then y else x
  | None => y
  end.

(** A [str] argument of an [os.path] function; [None] raises. *)
Definition fspath (x : option string) : M string :=
  match x with
  | Some s => ret s
  | None => raise TypeError
  end.

(** One group of [finish]: the header chosen by the extension, the
    lines of the fragments, and the conditional write.
    [os.makedirs(..., exist_ok=True)] has no effect on this model. *)
Definition finish_group (wd : World)
    (grp : string * list (string * line_seq)) : World :=
  let '(fname, fcontents) := grp in
  let ext := (PosixPath.splitext fname).2 in
  let '(lines, gens) := drain fcontents (generators wd) in
  let contents_with_header :=
    if bool_decide (ext ∈ [".cc"; ".h"; ".inc"])
    then cxx_generated_warning ++ lines
    else if bool_decide (ext ∈ [".mk"])
    then make_generated_warning ++ lines
    else lines in
  write_if_different fname (Py.join NL contents_with_header)
                     (set_generators gens wd).

(** [FileWriter.finish]. *)
Definition finish : M unit :=
  fun st =>
    let self := st.1 in
    let groups :=
      Itertools.groupby fst (Itertools.sorted_by_key fst (fileparts self)) in
    (Ret (), (self, fold_left finish_group groups (log_event Finished st.2))).

(** *** The flush as the specification tells it *)

(** The change test by direct comparison of the trimmed line lists. *)
Definition trimmed_lines_differ (rfp new_rfp : list string) : bool :=
  bool_decide (Py.strip <$> rfp ≠ Py.strip <$> new_rfp).

(** The banner of a path, by its extension. *)
Definition banner_for (fname : string) : list string :=
  let ext := (PosixPath.splitext fname).2 in
  if bool_decide (ext = ".cc" ∨ ext = ".h" ∨ ext = ".inc")
  then cxx_generated_warning
  else if bool_decide (ext = ".mk") then make_generated_warning
  else [].

(** The fragments submitted to a path, in the order of submission. *)
Definition group_of (fname : string) (parts : list (string * line_seq))
    : list (string * line_seq) :=
  filter (fun f : string * line_seq => f.1 = fname) parts.

(** The paths of a flush, in the order it takes them. *)
Definition flush_paths (parts : list (string * line_seq)) : list string :=
  (Itertools.groupby fst (Itertools.sorted_by_key fst parts)).*1.

(** The flush of one path: its banner, then the lines its fragments
    yield when run in the order of submission, written if different. *)
Definition flush_path (parts : list (string * line_seq)) (wd : World)
    (fname : string) : World :=
  let '(lines, gens) := drain (group_of fname parts) (generators wd) in
  write_if_different fname (Py.join NL (banner_for fname ++ lines))
                     (set_generators gens wd).

(** A fragment that can be run again and again: a list of plain lines,
    not a generator. *)
Definition reiterable (f : string * line_seq) : bool :=
  match f.2 with
  | Lines lines => forallb Py.plain lines
  | Generator _ => false
  end.

Definition lines_of (f : string * line_seq) : list string :=
  match f.2 with
  | Lines lines => lines
  | Generator _ => []
  end.

(** The content of a path whose fragments are all lists. *)
Definition content_of (parts : list (string * line_seq)) (fname : string)
    : string :=
  Py.join NL (banner_for fname ++ mjoin (lines_of <$> group_of fname parts)).

(** A path is settled when its file holds, up to the whitespace around
    each line, the lines of [content]. *)
Definition settled (content : string) (wd : World) (fname : string) : Prop :=
  ∃ old, files wd !! fname = Some old
         ∧ Py.strip <$> Py.readlines old = Py.strip <$> Py.splitlines content.

Section Process.
(** The process: its working directory and the value of [__file__]. *)
Variables (cwd module_file : string).

Definition champsim_root : string :=
  PosixPath.dirname (PosixPath.dirname (PosixPath.abspath cwd module_file)).

Definition makefile_file_name : string :=
  PosixPath.join champsim_root ["_configuration.mk"].

(** A path of the include directory: a file name joined to it, which
    lies under it when the name is relative; it is not the path of the
    makefile fragment. *)
Definition in_inc_dir (inc_dir : string) (f : string * line_seq) : Prop :=
  f.1 ≠ makefile_file_name
  ∧ ∃ fname, f.1 = PosixPath.join inc_dir [fname]
             ∧ (Py.startswith fname "/" = false →
                f.1 = inc_dir +:+ "/" +:+ fname).

(** [FileWriter.__init__]. *)
Definition FileWriter_init (bindir_name objdir_name : option string)
    : FileWriter :=
  mkFileWriter [] bindir_name (PosixPath.join champsim_root ["src"])
               objdir_name.

(** [with writer(bindir_name, objdir_name) as w: body]: the body runs
    on a new writer, then [finally] runs [w.finish()], and the outcome
    of the body, result or exception, is the outcome of the block. *)
Definition writer {R} (bindir_name objdir_name : option string)
    (body : M R) (wd : World) : Outcome R * World :=
  let w := FileWriter_init bindir_name objdir_name in
  let '(outcome, st) := body (w, wd) in
  let '(_, (_, wd')) := finish st in
  (outcome, wd').

(** The configuration and the generators of text, which live in other
    modules of the package. *)
Section Collaborators.
Context {Elements ModuleInfo ConfigFile Env : Type}.

(** [parsed_config], a tuple of six. *)
Record ParsedConfig : Type := mkParsedConfig {
  executable : string;
  elements : Elements;
  modules_to_compile : list string;
  module_info : ModuleInfo;
  config_file : ConfigFile;
  env : Env
}.

(** One value of [joined_module_info]: [m['name']] and the items of
    [util.chain(m['func_map'], m.get('deprecated_func_map', {}))]. *)
Record ModuleEntry : Type := mkModuleEntry {
  name : string;
  func_map_items : list (string * string)
}.

(** Modelled from the spec: the generators of [instantiation_file],
    [constants_file], [modules] and [makefile], and the helpers of
    [util], are not part of this file.  Each generator returns a
    lazy, finite, non-restartable sequence of text lines, given here
    by the lines it will yield.  [json_dumps] is [json.dumps], [None]
    when it raises for a value it cannot serialize. *)
Class Collaborators : Type := {
  json_dumps : ParsedConfig -> option string;
  get_instantiation_lines : Elements -> list string;
  get_constants_file : ConfigFile -> Elements -> list string;
  get_ooo_cpu_module_lines : ModuleInfo -> list string * list string;
  get_cache_module_lines : ModuleInfo -> list string * list string;
  joined_module_info : ModuleInfo -> list string -> list ModuleEntry;
  get_makefile_lines :
    string -> string -> string -> list string -> list ModuleEntry ->
    Env -> list string
}.

Context `{Collaborators}.

(** The build identifier of line 73. *)
Definition compute_build_id (parsed_config : ParsedConfig)
    : option string :=
  (fun dumped =>
     Hashlib.shake_128_hexdigest (Hashlib.encode_utf8 dumped) 4)
    <$> json_dumps parsed_config.

(** The loop of line 99, one fragment per compiled module. *)
Fixpoint extend_module_parts (inc_dir : string)
    (ms : list ModuleEntry) : M unit :=
  match ms with
  | [] => ret ()
  | m :: rest =>
      lines ← new_generator (get_map_lines (func_map_items m));
      append (PosixPath.join inc_dir [name m +:+ ".inc"], lines);;
      extend_module_parts inc_dir rest
  end.

(** [FileWriter.write_files]. *)
Definition write_files (parsed_config : ParsedConfig)
    (bindir_name : option string) (srcdir_names : option (list string))
    (objdir_name : option string) : M unit :=
  self ← get_self;
  let local_bindir_name := py_or bindir_name (FileWrite.bindir_name self) in
  let local_srcdir_names :=
    default [] srcdir_names ++ [core_sources self] in
  let local_objdir_name := py_or objdir_name (FileWrite.objdir_name self) in
  build_id ← match compute_build_id parsed_config with
              | Some h => ret h
              | None => raise TypeError
              end;
  objdir ← fspath local_objdir_name;
  let inc_dir :=
    PosixPath.join (PosixPath.abspath cwd objdir) [build_id; "inc"] in
  lines ← new_generator
             (get_instantiation_lines (elements parsed_config));
  append (PosixPath.join inc_dir [instantiation_file_name], lines);;
  lines ← new_generator
             (get_constants_file (config_file parsed_config)
                                 (elements parsed_config));
  append (PosixPath.join inc_dir [constants_file_name], lines);;
  let core := get_ooo_cpu_module_lines (module_info parsed_config) in
  core_declarations ← new_generator core.1;
  core_definitions ← new_generator core.2;
  append (PosixPath.join inc_dir [core_module_declaration_file_name],
          core_declarations);;
  append (PosixPath.join inc_dir [core_module_definition_file_name],
          core_definitions);;
  let cache := get_cache_module_lines (module_info parsed_config) in
  cache_declarations ← new_generator cache.1;
  cache_definitions ← new_generator cache.2;
  append (PosixPath.join inc_dir [cache_module_declaration_file_name],
          cache_declarations);;
  append (PosixPath.join inc_dir [cache_module_definition_file_name],
          cache_definitions);;
  let joined :=
    joined_module_info (module_info parsed_config)
                       (modules_to_compile parsed_config) in
  extend_module_parts inc_dir joined;;
  bindir ← fspath local_bindir_name;
  lines ← new_generator
             (get_makefile_lines objdir build_id
                (PosixPath.normpath
                   (PosixPath.join bindir [executable parsed_config]))
                local_srcdir_names joined (env parsed_config));
  append (makefile_file_name, lines).
End Collaborators.
End Process.

(** *** A small configuration to run the writer on *)

Definition demo_collaborators : @Collaborators unit unit unit unit := {|
  json_dumps := fun _ => Some "[]";
  get_instantiation_lines := fun _ => ["inst"];
  get_constants_file := fun _ _ => ["const"];
  get_ooo_cpu_module_lines := fun _ => (["core_decl"], ["core_def"]);
  get_cache_module_lines := fun _ => (["cache_decl"], ["cache_def"]);
  joined_module_info := fun _ names =>
    (fun n => mkModuleEntry n [("initialize", n +:+ "_initialize")]) <$> names;
  get_makefile_lines := fun objdir build_id exe _ _ _ =>
    ["exe = " +:+ exe; "obj = " +:+ objdir +:+ "/" +:+ build_id]
|}.

Definition demo_config (module_names : list string)
    : @ParsedConfig unit unit unit unit :=
  mkParsedConfig "champsim" () module_names () () ().

Definition empty_world : World := mkWorld ∅ [] [].

(** Where the demo process runs and where the package is installed. *)
Definition demo_cwd : string := "/work".
Definition demo_file : string := "/opt/ChampSim/config/filewrite.py".

(** A generation phase that submits one fragment and then fails. *)
Definition failing_body : M () :=
  append ("out/partial.txt", Lines ["collected before the failure"]);;
  raise (Exception "generation failed").
End FileWrite.

(* ================================================================= *)
(** * Invariants and vocabulary of the proofs *)

Module PyInv.

(** A line as a text file yields it and as [splitlines] does: the same,
    or with the LF that ends it. *)
Definition same_line (l l' : string) : Prop :=
  l = l' ∨ l = l' +:+ String Py.LF EmptyString.

End PyInv.

Module PosixPathInv.

(** The last character of a string. *)
Fixpoint last_char (s : string) : option ascii :=
  match s with
  | EmptyString => None
  | String c r =>
      match last_char r with
      | Some c' => Some c'
      | None => Some c
      end
  end.

End PosixPathInv.

Module ItertoolsInv.
Section Keyed.
Context {A : Type} (key : A -> string).

Definition key_le (x y : A) : Prop := String.le (key x) (key y).

Definition key_leb (x y : A) : bool := String.leb (key x) (key y).

End Keyed.

(** Strictly before, code point by code point. *)
Definition key_lt (k1 k2 : string) : Prop := strict String.le k1 k2.

End ItertoolsInv.

Module DifflibInv.
Import Difflib.

(** The regions the loop pushes for a match [(i, j, k)] found in
    [(alo, ahi, blo, bhi)]: the one to the right on top. *)
Definition pushed (r : Region) (m : Match) : list Region :=
  let '(alo, ahi, blo, bhi) := r in
  let '(i, j, k) := m in
  (if (i + k <? ahi) && (j + k <? bhi)
   then [(i + k, ahi, j + k, bhi)] else [])
  ++ (if (alo <? i) && (blo <? j) then [(alo, i, blo, j)] else []).

Definition region_ok (r : Region) : Prop :=
  let '(alo, ahi, blo, bhi) := r in alo ≤ ahi ∧ blo ≤ bhi.

Definition width_a (r : Region) : nat :=
  let '(alo, ahi, _, _) := r in ahi - alo.

Definition width_b (r : Region) : nat :=
  let '(_, _, blo, bhi) := r in bhi - blo.

(** The turns the loop still needs for a stack of regions. *)
Definition turns (queue : list Region) : nat :=
  sum_list ((fun r => 2 * width_a r + 1) <$> queue).

(** The number of elements a list of matches covers. *)
Definition sizes (ms : list Match) : nat := sum_list (match_size <$> ms).

Section Invariants.
Context `{Countable A}.
Implicit Types (a b s : list A) (b2j : gmap A (list nat)).

(** What [find_longest_match] relies on in [b2j]: the entry of an
    element lists, in increasing order, exactly the indices where the
    element occurs in [b]. *)
Definition b2j_ok b b2j : Prop :=
  ∀ x js, b2j !! x = Some js →
    StronglySorted lt js ∧ ∀ j, j ∈ js ↔ b !! j = Some x.

Definition b2j_complete b b2j : Prop :=
  ∀ x, b2j !! x = None → ∀ j, b !! j ≠ Some x.

(** [a[i:i+k] == b[j:j+k]], index by index. *)
Definition seg_eq a b (i j k : nat) : Prop :=
  ∀ t, t < k → a !! (i + t) = b !! (j + t).

(** A match that lies in a region and is a match. *)
Definition block_in a b (r : Region) (m : Match) : Prop :=
  let '(alo, ahi, blo, bhi) := r in
  let '(i, j, k) := m in
  alo ≤ i ∧ i + k ≤ ahi ∧ blo ≤ j ∧ j + k ≤ bhi ∧ seg_eq a b i j k.

(** The runs recorded in [j2len] before row [i]: a run of length [k] that
    ends at [(i - 1, j)]. *)
Definition prev_ok a b (alo blo bhi i : nat) (j2len : gmap nat nat) : Prop :=
  ∀ j k, j2len !! j = Some k →
    1 ≤ k ∧ k + alo ≤ i ∧ k + blo ≤ j + 1 ∧ j < bhi
    ∧ seg_eq a b (i - k) (j + 1 - k) k.

(** The best match found before row [i]. *)
Definition best_ok a b (alo blo bhi i : nat) (m : Match) : Prop :=
  block_in a b (alo, i, blo, bhi) m.

Definition region_eq a b (r : Region) : Prop :=
  let '(alo, ahi, blo, _) := r in seg_eq a b alo blo (ahi - alo).

(** What the matches found in a region add up to: [n] elements, never
    more than either side has, and all of both only if the two sides are
    equal. *)
Definition region_sum a b (r : Region) (n : nat) : Prop :=
  n ≤ width_a r ∧ n ≤ width_b r
  ∧ (n = width_a r → n = width_b r → region_eq a b r).

(** The length of the run of elements with an entry in [b2j] that ends at
    index [i] of [s]. *)
Definition run_step s b2j (i prev : nat) : nat :=
  match s !! i with
  | Some x => match b2j !! x with Some _ => S prev | None => 0 end
  | None => 0
  end.

Fixpoint run s b2j (i : nat) : nat :=
  match i with
  | O => run_step s b2j 0 0
  | S i' => run_step s b2j (S i') (run s b2j i')
  end.

Definition prevrun s b2j (i : nat) : nat :=
  match i with
  | O => 0
  | S i' => run s b2j i'
  end.

(** What [j2len] holds before row [i] when a sequence is matched with
    itself: the runs on the diagonal in full, and nowhere more than the
    runs of the row and of the column. *)
Definition diag_prev s b2j (i : nat) (j2len : gmap nat nat) : Prop :=
  (∀ j, j2lenget_pred j2len j ≤ prevrun s b2j i
        ∧ j2lenget_pred j2len j ≤ prevrun s b2j j)
  ∧ j2lenget_pred j2len i = prevrun s b2j i.

(** The best match before row [i] starts on the diagonal and is at least
    as long as every run met so far. *)
Definition diag_best s b2j (i : nat) (m : Match) : Prop :=
  m.1.1 = m.1.2 ∧ m.1.1 + m.2 ≤ i ∧ ∀ i', i' < i → run s b2j i' ≤ m.2.

End Invariants.

(** Bring the indices of a goal [a !! _ = b !! _] to [i] and [j]. *)
Ltac reindex i j :=
  match goal with
  | |- _ !! ?X = _ !! ?Y => replace X with i by lia; replace Y with j by lia
  end.

End DifflibInv.

(* ================================================================= *)
(** * Vocabulary of the further properties *)

Module FileWriteInv.
Import FileWrite.

(** ** File names *)

(** A character that occurs in a string. *)
Fixpoint occurs (c : ascii) (s : string) : bool :=
  match s with
  | EmptyString => false
  | String a r => Ascii.eqb a c || occurs c r
  end.

(** What stands before the file name in a path: nothing, or the
    directories with their last separator. *)
Definition dir_prefix (d : string) : Prop :=
  d = EmptyString ∨ PosixPathInv.last_char d = Some PosixPath.sep.

(** A directory as it stands before a relative name that [os.path.join]
    joins to it: the empty directory adds nothing, and a separator is
    put in where the directory does not end with one. *)
Definition as_prefix (path : string) : string :=
  if String.eqb path EmptyString then EmptyString
  else if Py.endswith path (String PosixPath.sep EmptyString) then path
  else path +:+ String PosixPath.sep EmptyString.

(** The stem of a file name: it starts with a character that is not a
    dot, and holds no separator. *)
Definition is_stem (stem : string) : bool :=
  match stem with
  | EmptyString => false
  | String c _ =>
      negb (Ascii.eqb c PosixPath.extsep) && negb (occurs PosixPath.sep stem)
  end.

(** The text after the last dot of a file name: no dot, no separator. *)
Definition is_suffix (e : string) : bool :=
  negb (occurs PosixPath.sep e) && negb (occurs PosixPath.extsep e).

(** The banner that goes with the text after the last dot. *)
Definition banner_of_suffix (e : string) : list string :=
  if bool_decide (e ∈ ["cc"; "h"; "inc"]) then cxx_generated_warning
  else if bool_decide (e = "mk") then make_generated_warning
  else [].

(** ** Fragments and generators *)

(** The generators the fragments refer to, in the order of the
    fragments. *)
Definition generators_of (parts : list (string * line_seq)) : list nat :=
  omap (fun f : string * line_seq =>
          match f.2 with
          | Generator g => Some g
          | Lines _ => None
          end) parts.

(** The lines a fragment yields when it is run on the store [gens]. *)
Definition pending (gens : list (list string)) (f : string * line_seq)
    : list string :=
  (iterate f.2 gens).1.

(** A generator that yields nothing any more. *)
Definition spent (gens : list (list string)) (g : nat) : Prop :=
  default [] (gens !! g) = [].

(** Two stores that hold the same lines for the generators [ids]. *)
Definition agree_on (ids : list nat) (gens1 gens2 : list (list string))
    : Prop :=
  ∀ g, g ∈ ids → gens1 !! g = gens2 !! g.

(** ** What a method that only collects fragments may change *)

(** From [st] to [st']: the files and the trace are the same, the
    settings of the writer are the same, and the fragments and the
    generators have grown at their ends. *)
Definition collects (st st' : FileWriter * World) : Prop :=
  files st'.2 = files st.2
  ∧ trace st'.2 = trace st.2
  ∧ fileparts st.1 `prefix_of` fileparts st'.1
  ∧ generators st.2 `prefix_of` generators st'.2
  ∧ bindir_name st'.1 = bindir_name st.1
  ∧ core_sources st'.1 = core_sources st.1
  ∧ objdir_name st'.1 = objdir_name st.1.

Definition collecting {R} (m : M R) : Prop := ∀ st, collects st (m st).2.

(** ** The fragments of one invocation of [write_files] *)

(** New generators, one per fragment, numbered from [n0] on. *)
Definition submit (inc_dir : string) (n0 : nat)
    (fs : list (string * list string)) : list (string * line_seq) :=
  imap (fun i (f : string * list string) =>
          (PosixPath.join inc_dir [f.1], Generator (n0 + i))) fs.

Definition with_fileparts (self : FileWriter)
    (parts : list (string * line_seq)) : FileWriter :=
  mkFileWriter parts (bindir_name self) (core_sources self)
               (objdir_name self).

Section Collaborators.
Context {Elements ModuleInfo ConfigFile Env : Type}.
Context {collaborators : @Collaborators Elements ModuleInfo ConfigFile Env}.

(** The file of one compiled module (line 99). *)
Definition module_file_of (m : ModuleEntry) : string * list string :=
  (name m +:+ ".inc", get_map_lines (func_map_items m)).

(** The files of the include directory, in the order of lines 79 to 99:
    file name and lines. *)
Definition include_files
    (parsed_config : @ParsedConfig Elements ModuleInfo ConfigFile Env)
    : list (string * list string) :=
  let core := get_ooo_cpu_module_lines (module_info parsed_config) in
  let cache := get_cache_module_lines (module_info parsed_config) in
  [(instantiation_file_name,
    get_instantiation_lines (elements parsed_config));
   (constants_file_name,
    get_constants_file (config_file parsed_config) (elements parsed_config));
   (core_module_declaration_file_name, core.1);
   (core_module_definition_file_name, core.2);
   (cache_module_declaration_file_name, cache.1);
   (cache_module_definition_file_name, cache.2)]
  ++ (module_file_of
        <$> joined_module_info (module_info parsed_config)
                               (modules_to_compile parsed_config)).

(** The lines of the makefile (line 100). *)
Definition makefile_lines
    (parsed_config : @ParsedConfig Elements ModuleInfo ConfigFile Env)
    (objdir build_id bindir : string) (srcdir_names : option (list string))
    (core_sources : string) : list string :=
  get_makefile_lines objdir build_id
    (PosixPath.normpath (PosixPath.join bindir [executable parsed_config]))
    (default [] srcdir_names ++ [core_sources])
    (joined_module_info (module_info parsed_config)
                        (modules_to_compile parsed_config))
    (env parsed_config).

End Collaborators.

End FileWriteInv.

(* ================================================================= *)
(** * Facts about the library functions *)

Module PyFacts.
Import Py PyInv.

Lemma rstrip_app_space (s : string) (c : ascii) :
  isspace c = true → rstrip (s +:+ String c EmptyString) = rstrip s.
Proof.
  intros Hc. induction s as [|a r IH]; simpl.
  - by rewrite Hc.
  - change (String.append r (String c "")) with (r +:+ String c "").
    by rewrite IH.
Qed.

Lemma lstrip_app_space (s : string) (c : ascii) :
  isspace c = true →
  lstrip (s +:+ String c EmptyString) = lstrip s
  ∨ lstrip (s +:+ String c EmptyString) = lstrip s +:+ String c EmptyString.
Proof.
  intros Hc. induction s as [|a r IH]; simpl.
  - rewrite Hc. by left.
  - destruct (isspace a); [done|]. by right.
Qed.

Lemma strip_app_space (s : string) (c : ascii) :
  isspace c = true → strip (s +:+ String c EmptyString) = strip s.
Proof.
  intros Hc. unfold strip.
  destruct (lstrip_app_space s c Hc) as [-> | ->]; [done|].
  by apply rstrip_app_space.
Qed.

Lemma same_line_strip l l' : same_line l l' → strip l = strip l'.
Proof. intros [-> | ->]; [done|]. by apply strip_app_space. Qed.

Lemma same_line_cons c l l' : same_line l l' → same_line (String c l) (String c l').
Proof. intros [-> | ->]; [by left|by right]. Qed.

Lemma same_lines_cons c ls ls' :
  Forall2 same_line ls ls' →
  Forall2 same_line
    match ls with [] => [String c EmptyString] | l :: r => String c l :: r end
    match ls' with [] => [String c EmptyString] | l :: r => String c l :: r end.
Proof.
  destruct 1 as [|l l' r r' Hl Hr].
  - constructor; [by left|constructor].
  - constructor; [by apply same_line_cons|done].
Qed.

Lemma readlines_splitlines_aux (s : string) :
  (plain s = true → Forall2 same_line (readlines s) (splitlines s))
  ∧ ∀ c, plain (String c s) = true →
         Forall2 same_line (readlines (String c s)) (splitlines (String c s)).
Proof.
  unfold readlines.
  induction s as [|a r [IH1 IH2]].
  - split; [constructor|].
    intros c Hc. simpl in Hc. rewrite andb_true_r in Hc.
    simpl. destruct (Ascii.eqb_spec c CR) as [->|Hcr].
    + simpl. constructor; [by right|constructor].
    + simpl. destruct (Ascii.eqb_spec c LF) as [->|Hlf].
      * simpl. constructor; [by right|constructor].
      * unfold plain_char in Hc.
        rewrite (proj2 (Ascii.eqb_neq _ _) Hcr),
                (proj2 (Ascii.eqb_neq _ _) Hlf), !orb_false_r in Hc.
        apply negb_true_iff in Hc. rewrite Hc.
        constructor; [by left|constructor].
  - split; [apply IH2|].
    intros c Hc. change (plain (String c (String a r)))
      with (plain_char c && plain (String a r)) in Hc.
    apply andb_true_iff in Hc as [Hc Hr].
    specialize (IH2 a Hr).
    cbn [universal_newlines splitlines].
    destruct (Ascii.eqb_spec c CR) as [->|Hcr].
    + change (is_linebreak CR) with true. cbn [andb].
      destruct (Ascii.eqb_spec a LF) as [->|Hlf].
      * cbn [iter_lines]. change (Ascii.eqb LF LF) with true. cbn iota.
        constructor; [by right|].
        apply IH1. by simpl in Hr.
      * cbn [iter_lines]. change (Ascii.eqb LF LF) with true. cbn iota.
        constructor; [by right|done].
    + destruct (Ascii.eqb_spec c LF) as [->|Hlf].
      * change (is_linebreak LF) with true.
        change (Ascii.eqb LF CR) with false. cbn [andb].
        cbn [iter_lines]. change (Ascii.eqb LF LF) with true. cbn iota.
        constructor; [by right|done].
      * unfold plain_char in Hc.
        rewrite (proj2 (Ascii.eqb_neq _ _) Hcr),
                (proj2 (Ascii.eqb_neq _ _) Hlf), !orb_false_r in Hc.
        apply negb_true_iff in Hc. rewrite Hc.
        cbn [iter_lines]. rewrite (proj2 (Ascii.eqb_neq _ _) Hlf).
        by apply same_lines_cons.
Qed.

(** Reading a plain text back from a file gives, line by line and up to
    the surrounding whitespace, what [splitlines] gives. *)
Lemma strip_readlines_splitlines (s : string) :
  plain s = true → strip <$> readlines s = strip <$> splitlines s.
Proof.
  intros Hs. destruct (readlines_splitlines_aux s) as [Hlines _].
  specialize (Hlines Hs).
  induction Hlines as [|l l' ls ls' Hl _ IH]; [done|].
  rewrite !fmap_cons. f_equal; [by apply same_line_strip|done].
Qed.
End PyFacts.

Module ItertoolsFacts.
Import Itertools.

Section Sort.
Context {A : Type} (leb : A -> A -> bool).

Lemma insert_sorted_Permutation (x : A) (l : list A) :
  insert_sorted leb x l ≡ₚ x :: l.
Proof.
  induction l as [|y r IH]; simpl; [done|].
  destruct (leb x y); [done|].
  rewrite IH. apply Permutation_swap.
Qed.

(** A sorted list has the elements of the list it comes from. *)
Lemma sorted_Permutation (l : list A) : sorted leb l ≡ₚ l.
Proof.
  induction l as [|x r IH]; simpl; [done|].
  rewrite insert_sorted_Permutation. by f_equiv.
Qed.
End Sort.

Section Keyed.
Context {A : Type} (key : A -> string).

Local Abbreviation key_le := (ItertoolsInv.key_le key).
Local Abbreviation key_leb := (ItertoolsInv.key_leb key).
Local Abbreviation key_lt := ItertoolsInv.key_lt.

Lemma key_leb_true x y : key_leb x y = true → key_le x y.
Proof. unfold ItertoolsInv.key_le, ItertoolsInv.key_leb, String.le. by intros ->. Qed.

Lemma key_leb_false x y : key_leb x y = false → key_le y x ∧ key x ≠ key y.
Proof.
  unfold ItertoolsInv.key_le, ItertoolsInv.key_leb. intros Hxy. split.
  - destruct (total String.le (key x) (key y)) as [Hle|Hle]; [|done].
    unfold String.le in Hle. rewrite Hxy in Hle. done.
  - intros Heq. rewrite Heq in Hxy.
    assert (String.le (key y) (key y)) as Hrefl by reflexivity.
    unfold String.le in Hrefl. by rewrite Hxy in Hrefl.
Qed.

(** The sort is stable: the elements of one key keep their order. *)
Lemma insert_sorted_filter (k : string) (x : A) (l : list A) :
  filter (λ y, key y = k) (insert_sorted key_leb x l)
  = filter (λ y, key y = k) (x :: l).
Proof.
  induction l as [|y r IH]; simpl; [done|].
  destruct (key_leb x y) eqn:Hxy; [done|].
  apply key_leb_false in Hxy as [_ Hne].
  rewrite (filter_cons _ y), IH, !filter_cons.
  repeat case_decide; congruence.
Qed.

Lemma sorted_by_key_filter (k : string) (l : list A) :
  filter (λ y, key y = k) (sorted_by_key key l)
  = filter (λ y, key y = k) l.
Proof.
  unfold sorted_by_key. induction l as [|x r IH]; simpl; [done|].
  change (λ x y, String.leb (key x) (key y)) with (ItertoolsInv.key_leb key) in *.
  by rewrite insert_sorted_filter, !filter_cons, IH.
Qed.

Lemma sorted_by_key_Permutation (l : list A) : sorted_by_key key l ≡ₚ l.
Proof. apply sorted_Permutation. Qed.

Lemma insert_sorted_sorted (x : A) (l : list A) :
  StronglySorted key_le l → StronglySorted key_le (insert_sorted key_leb x l).
Proof.
  induction 1 as [|y r Hr IH Hall]; simpl.
  - repeat constructor.
  - destruct (key_leb x y) eqn:Hxy.
    + apply key_leb_true in Hxy. constructor; [by constructor|].
      constructor; [done|].
      eapply Forall_impl; [exact Hall|].
      intros z Hz. unfold ItertoolsInv.key_le in *. by etrans.
    + apply key_leb_false in Hxy as [Hyx _]. constructor; [done|].
      assert (Forall (key_le y) (x :: r)) as Hall' by (by constructor).
      rewrite Forall_forall in Hall'. rewrite Forall_forall.
      intros z Hz. apply Hall'.
      clear -Hz. induction r as [|w r IHr]; simpl in Hz.
      * done.
      * destruct (key_leb x w).
        -- done.
        -- apply elem_of_cons in Hz as [->|Hz].
           ++ right. by left.
           ++ apply IHr in Hz. apply elem_of_cons in Hz as [->|Hz].
              ** by left.
              ** right. by right.
Qed.

(** The sorted list is in the order of its keys. *)
Lemma sorted_by_key_sorted (l : list A) :
  StronglySorted key_le (sorted_by_key key l).
Proof.
  unfold sorted_by_key. induction l as [|x r IH]; simpl; [constructor|].
  by apply insert_sorted_sorted.
Qed.

Lemma filter_key_none (k : string) (l : list A) :
  (∀ y, y ∈ l → key y ≠ k) → filter (λ y, key y = k) l = [].
Proof.
  induction l as [|y r IH]; intros Hl; [done|].
  rewrite filter_cons, decide_False by (apply Hl; by left).
  apply IH. intros z Hz. apply Hl. by right.
Qed.

(** The groups of a list sorted by key: keys in strictly increasing
    order, each with all the elements of that key, in their order. *)
Lemma groupby_sorted (l : list A) :
  StronglySorted key_le l →
  StronglySorted key_lt (groupby key l).*1
  ∧ (∀ k g, (k, g) ∈ groupby key l →
            g = filter (λ y, key y = k) l ∧ g ≠ [])
  ∧ (∀ x, x ∈ l → key x ∈ (groupby key l).*1).
Proof.
  induction 1 as [|x r Hr IH Hall]; simpl.
  - split; [constructor|]. split.
    + intros k g Hin. by apply elem_of_nil in Hin.
    + intros x Hx. by apply elem_of_nil in Hx.
  - destruct IH as (Hkeys & Hgroups & Hcover).
    rewrite Forall_forall in Hall.
    assert (∀ k, k ∈ (groupby key r).*1 → String.le (key x) k) as Hxle.
    { intros k Hk. apply list_elem_of_fmap in Hk as ([k' g] & -> & Hin).
      destruct (Hgroups _ _ Hin) as [Hg Hne]. simpl.
      destruct g as [|y g]; [done|].
      assert (y ∈ filter (λ y, key y = k') r) as Hy by (rewrite <- Hg; by left).
      apply list_elem_of_filter in Hy as [<- Hy]. by apply Hall. }
    destruct (groupby key r) as [|[k g] gs] eqn:Hgs.
    + assert (r = []) as ->.
      { destruct r as [|y r]; [done|].
        specialize (Hcover y ltac:(by left)). by apply elem_of_nil in Hcover. }
      simpl. split; [repeat constructor|]. split.
      * intros k g Hin. apply list_elem_of_singleton in Hin as [= -> ->].
        rewrite filter_cons, decide_True by done. done.
      * intros y Hy. apply list_elem_of_singleton in Hy as ->. by left.
    + simpl in Hkeys. apply StronglySorted_inv in Hkeys as [Hkeys Hk].
      rewrite Forall_forall in Hk.
      destruct (String.eqb_spec (key x) k) as [Hxk|Hxk].
      * simpl. split; [by constructor; [|apply Forall_forall]|]. split.
        -- intros k' g' Hin. apply elem_of_cons in Hin as [[= -> ->]|Hin].
           ++ rewrite filter_cons, decide_True by done.
              destruct (Hgroups k g) as [<- _]; [by left|]. done.
           ++ destruct (Hgroups k' g') as [Hg' Hne]; [by right|].
              split; [|done].
              rewrite filter_cons, decide_False; [done|].
              intros Heq. assert (key_lt k k') as [_ Hn].
              { apply Hk. apply list_elem_of_fmap. by exists (k', g'). }
              apply Hn. rewrite <- Heq, Hxk. reflexivity.
        -- intros y Hy. apply elem_of_cons in Hy as [->|Hy].
           ++ rewrite Hxk. by left.
           ++ by apply Hcover.
      * assert (key_lt (key x) k) as Hlt.
        { assert (String.le (key x) k) as Hle by (apply Hxle; by left).
          split; [done|]. intros Hge. apply Hxk. by apply (anti_symm String.le). }
        assert (∀ k', k' ∈ k :: gs.*1 → key_lt (key x) k') as Hlts.
        { intros k' Hk'. apply elem_of_cons in Hk' as [->|Hk']; [done|].
          specialize (Hk k' Hk'). unfold ItertoolsInv.key_lt in *. by etrans. }
        simpl. split.
        { constructor; [by constructor; [|apply Forall_forall]|].
          by apply Forall_forall. }
        split.
        -- intros k' g' Hin. apply elem_of_cons in Hin as [[= -> ->]|Hin].
           ++ rewrite filter_cons, decide_True by done. split; [|done].
              f_equal. symmetry. apply filter_key_none.
              intros y Hy Heq. specialize (Hcover y Hy).
              apply Hlts in Hcover as [_ Hn]. apply Hn.
              rewrite Heq. reflexivity.
           ++ destruct (Hgroups k' g' Hin) as [Hg' Hne]. split; [|done].
              rewrite filter_cons, decide_False; [done|].
              intros Heq. assert (key_lt (key x) k') as [_ Hn].
              { apply Hlts. change (k' ∈ ((k, g) :: gs).*1).
                apply list_elem_of_fmap. by exists (k', g'). }
              apply Hn. rewrite Heq. reflexivity.
        -- intros y Hy. apply elem_of_cons in Hy as [->|Hy].
           ++ by left.
           ++ right. by apply Hcover.
Qed.
End Keyed.
End ItertoolsFacts.

Module DifflibFacts.
Import Difflib DifflibInv.
Section SequenceMatcher.
Context `{Countable A}.
Implicit Types (a b : list A) (b2j : gmap A (list nat)).

Lemma b2j_all_snoc b x :
  b2j_all (b ++ [x]) = b2j_add (b2j_all b) (length b, x).
Proof.
  unfold b2j_all. rewrite imap_app, fold_left_app. simpl.
  by rewrite Nat.add_0_r.
Qed.

Lemma StronglySorted_snoc (js : list nat) (n : nat) :
  StronglySorted lt js → (∀ j, j ∈ js → j < n) →
  StronglySorted lt (js ++ [n]).
Proof.
  induction 1 as [|j js Hs IH Hall]; intros Hlt; simpl.
  - repeat constructor.
  - constructor.
    + apply IH. intros j' Hj'. apply Hlt. by right.
    + apply Forall_app. split; [done|].
      constructor; [|constructor]. apply Hlt. by left.
Qed.

Lemma b2j_all_ok b : b2j_ok b (b2j_all b) ∧ b2j_complete b (b2j_all b).
Proof.
  induction b as [|x b [IHok IHc]] using rev_ind.
  - split.
    + intros x js. unfold b2j_all. simpl. by rewrite lookup_empty.
    + intros x _ j. by rewrite lookup_nil.
  - rewrite b2j_all_snoc. unfold b2j_add. simpl. split.
    + intros y js. rewrite lookup_insert. case_decide as Hxy.
      * subst y. intros [= <-].
        destruct (b2j_all b !! x) as [old|] eqn:Hold; simpl.
        -- destruct (IHok _ _ Hold) as [Hs Hm]. split.
           ++ apply StronglySorted_snoc; [done|].
              intros j Hj. apply Hm in Hj. by apply lookup_lt_Some in Hj.
           ++ intros j. rewrite elem_of_app, list_elem_of_singleton, Hm.
              destruct (decide (j = length b)) as [->|Hne].
              ** rewrite list_lookup_middle by done.
                 split; [done|]. by right.
              ** split.
                 --- intros [Hj|?]; [|done].
                     rewrite lookup_app_l; [done|]. by apply lookup_lt_Some in Hj.
                 --- intros Hj. left.
                     assert (j < length (b ++ [x])) as Hlt
                       by (by apply lookup_lt_Some in Hj).
                     rewrite length_app in Hlt. simpl in Hlt.
                     rewrite lookup_app_l in Hj by lia. done.
        -- split; [repeat constructor|].
           intros j. rewrite list_elem_of_singleton.
           destruct (decide (j = length b)) as [->|Hne].
           ++ by rewrite list_lookup_middle.
           ++ split; [done|]. intros Hj.
              assert (j < length (b ++ [x])) as Hlt
                by (by apply lookup_lt_Some in Hj).
              rewrite length_app in Hlt. simpl in Hlt.
              rewrite lookup_app_l in Hj by lia.
              by apply (IHc x Hold) in Hj.
      * intros Hjs. destruct (IHok _ _ Hjs) as [Hs Hm]. split; [done|].
        intros j. rewrite Hm.
        destruct (decide (j = length b)) as [->|Hne].
        -- rewrite list_lookup_middle by done.
           rewrite lookup_ge_None_2 by done. split; [done|]. by intros [= ->].
        -- destruct (decide (j < length b)).
           ++ by rewrite lookup_app_l.
           ++ rewrite !lookup_ge_None_2; [done| |lia].
              rewrite length_app. simpl. lia.
    + intros y. rewrite lookup_insert. case_decide; [done|].
      intros Hy j Hj.
      assert (j < length (b ++ [x])) as Hlt
        by (by apply lookup_lt_Some in Hj).
      rewrite length_app in Hlt. simpl in Hlt.
      destruct (decide (j = length b)) as [->|Hne].
      * rewrite list_lookup_middle in Hj by done. congruence.
      * rewrite lookup_app_l in Hj by lia. by apply (IHc y Hy) in Hj.
Qed.

Lemma chain_b_ok b : b2j_ok b (chain_b b).
Proof.
  unfold chain_b. destruct (autojunk && _).
  - intros x js Hx. apply map_lookup_filter_Some in Hx as [Hx _].
    by apply (b2j_all_ok b).
  - apply b2j_all_ok.
Qed.

Section FindLongestMatch.
Variables (a b : list A) (b2j : gmap A (list nat)).
Variables (alo ahi blo bhi : nat).
Hypothesis Hb2j : b2j_ok b b2j.

Local Abbreviation prev_ok := (DifflibInv.prev_ok a b alo blo bhi).
Local Abbreviation best_ok := (DifflibInv.best_ok a b alo blo bhi).

Lemma scan_row_ok i x j2len js best newj2len :
  alo ≤ i → a !! i = Some x →
  (∀ j, j ∈ js → b !! j = Some x) →
  prev_ok i j2len →
  best_ok (S i) best → prev_ok (S i) newj2len →
  best_ok (S i) (scan_row blo bhi i j2len js best newj2len).1
  ∧ prev_ok (S i) (scan_row blo bhi i j2len js best newj2len).2.
Proof.
  intros Hi Hx Hjs Hprev. revert best newj2len.
  induction js as [|j js IH]; intros best new Hbest Hnew; simpl; [done|].
  assert (∀ j', j' ∈ js → b !! j' = Some x) as Hjs'
    by (intros j' Hj'; apply Hjs; by right).
  assert (b !! j = Some x) as Hj by (apply Hjs; by left).
  destruct (Nat.ltb_spec j blo) as [Hlo|Hlo]; [by apply IH|].
  destruct (Nat.leb_spec bhi j) as [Hhi|Hhi]; [done|].
  set (k := j2lenget_pred j2len j + 1).
  assert (1 ≤ k ∧ k + alo ≤ S i ∧ k + blo ≤ j + 1
          ∧ seg_eq a b (S i - k) (j + 1 - k) k) as (Hk1 & Hka & Hkb & Hseg).
  { unfold k, j2lenget_pred. destruct j as [|j'].
    - repeat split; try lia.
      intros t Ht. reindex i 0. congruence.
    - destruct (j2len !! j') as [k'|] eqn:Hk'; simpl.
      + destruct (Hprev _ _ Hk') as (? & ? & ? & ? & Hseg').
        repeat split; try lia.
        intros t Ht. destruct (decide (t < k')) as [Hlt|Hge].
        * reindex (i - k' + t) (j' + 1 - k' + t). by apply Hseg'.
        * reindex i (S j'). congruence.
      + repeat split; try lia.
        intros t Ht. reindex i (S j'). congruence. }
  apply (IH Hjs').
  - destruct (Nat.ltb_spec (match_size best) k); [|done].
    unfold DifflibInv.best_ok, block_in.
    replace (i + 1 - k) with (S i - k) by lia.
    repeat split; try lia. done.
  - intros j0 k0. rewrite lookup_insert. case_decide as Hjj.
    + subst j0. intros [= <-]. repeat split; try lia. done.
    + apply Hnew.
Qed.

Lemma best_ok_mono i best : best_ok i best → best_ok (S i) best.
Proof.
  unfold DifflibInv.best_ok, block_in. destruct best as [[bi bj] bs].
  intros (? & ? & ? & ? & ?). repeat split; try lia. done.
Qed.

Lemma scan_step_ok i st :
  alo ≤ i → best_ok i st.1 → prev_ok i st.2 →
  best_ok (S i) (scan_step a b2j blo bhi st i).1
  ∧ prev_ok (S i) (scan_step a b2j blo bhi st i).2.
Proof.
  intros Hi Hbest Hprev. unfold scan_step.
  destruct (a !! i) as [x|] eqn:Hx; simpl.
  - apply scan_row_ok with x; [done|done| |done| |].
    + intros j Hj. destruct (b2j !! x) as [js|] eqn:Hjs; simpl in Hj.
      * by apply (Hb2j _ _ Hjs).
      * by apply elem_of_nil in Hj.
    + by apply best_ok_mono.
    + intros j k. by rewrite lookup_empty.
  - split; [by apply best_ok_mono|].
    intros j k. by rewrite lookup_empty.
Qed.

Lemma scan_rows_prefix_ok n :
  blo ≤ bhi →
  best_ok (alo + n)
    (fold_left (scan_step a b2j blo bhi) (seq alo n) ((alo, blo, 0), ∅)).1
  ∧ prev_ok (alo + n)
    (fold_left (scan_step a b2j blo bhi) (seq alo n) ((alo, blo, 0), ∅)).2.
Proof.
  intros Hb. induction n as [|n [IH1 IH2]].
  - simpl. split.
    + unfold DifflibInv.best_ok, block_in. repeat split; try lia.
      intros t Ht. lia.
    + intros j k. by rewrite lookup_empty.
  - rewrite seq_S, fold_left_app.
    replace (alo + S n) with (S (alo + n)) by lia.
    apply scan_step_ok; [lia|done|done].
Qed.

Lemma scan_rows_ok :
  alo ≤ ahi → blo ≤ bhi →
  block_in a b (alo, ahi, blo, bhi) (scan_rows a b2j alo ahi blo bhi).1.
Proof.
  intros Ha Hb. unfold scan_rows.
  pose proof (scan_rows_prefix_ok (ahi - alo) Hb) as [Hbest _].
  replace (alo + (ahi - alo)) with ahi in Hbest by lia.
  done.
Qed.

Lemma same_at_true i j : same_at a b i j = true → a !! i = b !! j.
Proof.
  unfold same_at. destruct (a !! i), (b !! j); try done.
  intros ->%bool_decide_eq_true. done.
Qed.

Lemma extend_left_ok junk besti bestj bestsize :
  block_in a b (alo, ahi, blo, bhi) (besti, bestj, bestsize) →
  block_in a b (alo, ahi, blo, bhi)
    (extend_left a b alo blo junk besti bestj bestsize).
Proof.
  revert bestj bestsize.
  induction besti as [|i' IH]; intros bestj bestsize Hok; simpl; [done|].
  destruct bestj as [|j']; [done|].
  destruct (_ && _) eqn:Hc; [|done].
  apply andb_true_iff in Hc as [Hc Hsame].
  apply andb_true_iff in Hc as [Hc _].
  apply andb_true_iff in Hc as [Hi Hj].
  apply Nat.ltb_lt in Hi, Hj. apply same_at_true in Hsame.
  apply IH. destruct Hok as (? & ? & ? & ? & Hseg).
  repeat split; try lia.
  intros t Ht. destruct t as [|t].
  - by reindex i' j'.
  - reindex (S i' + t) (S j' + t). apply Hseg. lia.
Qed.

Lemma extend_right_ok fuel junk besti bestj bestsize :
  block_in a b (alo, ahi, blo, bhi) (besti, bestj, bestsize) →
  block_in a b (alo, ahi, blo, bhi)
    (besti, bestj,
     extend_right a b ahi bhi fuel junk besti bestj bestsize).
Proof.
  revert bestsize.
  induction fuel as [|fuel IH]; intros bestsize Hok; simpl; [done|].
  destruct (_ && _) eqn:Hc; [|done].
  apply andb_true_iff in Hc as [Hc Hsame].
  apply andb_true_iff in Hc as [Hc _].
  apply andb_true_iff in Hc as [Hi Hj].
  apply Nat.ltb_lt in Hi, Hj. apply same_at_true in Hsame.
  apply IH. destruct Hok as (? & ? & ? & ? & Hseg).
  repeat split; try lia.
  intros t Ht. destruct (decide (t < bestsize)) as [|Hge].
  - by apply Hseg.
  - by reindex (besti + bestsize) (bestj + bestsize).
Qed.

Lemma extend_ok junk m :
  block_in a b (alo, ahi, blo, bhi) m →
  block_in a b (alo, ahi, blo, bhi) (extend a b alo ahi blo bhi junk m).
Proof.
  destruct m as [[bi bj] bs]. intros Hok. unfold extend. simpl.
  pose proof (extend_left_ok junk bi bj bs Hok) as Hl.
  destruct (extend_left a b alo blo junk bi bj bs) as [[bi' bj'] bs'].
  by apply extend_right_ok.
Qed.

(** The match [find_longest_match] returns lies in the region it
    was asked to search and is a match. *)
Lemma find_longest_match_ok :
  alo ≤ ahi → blo ≤ bhi →
  block_in a b (alo, ahi, blo, bhi)
    (find_longest_match a b b2j alo ahi blo bhi).
Proof.
  intros Ha Hb. unfold find_longest_match.
  by apply extend_ok, extend_ok, scan_rows_ok.
Qed.
End FindLongestMatch.


(** *** The loop over the regions *)

Lemma sizes_app ms1 ms2 : sizes (ms1 ++ ms2) = sizes ms1 + sizes ms2.
Proof. unfold sizes. by rewrite fmap_app, sum_list_with_app. Qed.

Lemma sizes_nil : sizes [] = 0.
Proof. done. Qed.

Lemma sizes_cons m ms : sizes (m :: ms) = m.2 + sizes ms.
Proof. done. Qed.

Local Tactic Notation "sizes_lia" :=
  repeat first [ rewrite sizes_app | rewrite sizes_cons
               | progress change (sizes []) with 0 ];
  simpl; lia.

Lemma seg_eq_glue a b alo ahi blo i j k :
  alo ≤ i → i + k ≤ ahi → i - alo = j - blo → blo ≤ j →
  seg_eq a b alo blo (i - alo) → seg_eq a b i j k →
  seg_eq a b (i + k) (j + k) (ahi - (i + k)) →
  seg_eq a b alo blo (ahi - alo).
Proof.
  intros ? ? ? ? Hl Hm Hr t Ht.
  destruct (decide (t < i - alo)) as [|Hge1]; [by apply Hl|].
  destruct (decide (t < i - alo + k)) as [|Hge2].
  - reindex (i + (t - (i - alo))) (j + (t - (i - alo))). apply Hm. lia.
  - reindex (i + k + (t - (i - alo) - k)) (j + k + (t - (i - alo) - k)).
    apply Hr. lia.
Qed.

Section Regions.
Variables (a b : list A) (b2j : gmap A (list nat)).
Hypothesis Hb2j : b2j_ok b b2j.

Lemma match_regions_step fuel r queue acc :
  match_regions a b b2j (S fuel) (r :: queue) acc =
  let m := find_longest_match a b b2j r.1.1.1 r.1.1.2 r.1.2 r.2 in
  if m.2 =? 0 then match_regions a b b2j fuel queue acc
  else match_regions a b b2j fuel (pushed r m ++ queue) (acc ++ [m]).
Proof.
  destruct r as [[[alo ahi] blo] bhi]. simpl.
  destruct (find_longest_match a b b2j alo ahi blo bhi)
    as [[i j] k]. simpl.
  destruct (k =? 0); [done|].
  by destruct ((alo <? i) && (blo <? j)),
              ((i + k <? ahi) && (j + k <? bhi)).
Qed.

Lemma pushed_ok r m :
  block_in a b r m → Forall region_ok (pushed r m).
Proof.
  destruct r as [[[alo ahi] blo] bhi], m as [[i j] k].
  intros (? & ? & ? & ? & _). unfold pushed.
  apply Forall_app. split.
  - destruct (_ && _) eqn:Hc; [|constructor].
    apply andb_true_iff in Hc as [?%Nat.ltb_lt ?%Nat.ltb_lt].
    repeat constructor; simpl; lia.
  - destruct (_ && _) eqn:Hc; [|constructor].
    apply andb_true_iff in Hc as [?%Nat.ltb_lt ?%Nat.ltb_lt].
    repeat constructor; simpl; lia.
Qed.

(** The sizes found in the pushed regions, with those of the match
    itself, are a sum for the whole region. *)
Lemma pushed_sum r m ss :
  block_in a b r m → m.2 ≠ 0 →
  Forall2 (region_sum a b) (pushed r m) ss →
  region_sum a b r (m.2 + sum_list ss).
Proof.
  destruct r as [[[alo ahi] blo] bhi], m as [[i j] k].
  intros (Hi & Hik & Hj & Hjk & Hseg) Hk Hss. unfold pushed in Hss.
  apply Forall2_app_inv_l in Hss as (sr & sl & Hr & Hl & ->).
  rewrite sum_list_with_app. simpl.
  assert (sum_list sr ≤ ahi - (i + k) ∧ sum_list sr ≤ bhi - (j + k)
          ∧ (sum_list sr = ahi - (i + k) → sum_list sr = bhi - (j + k) →
             seg_eq a b (i + k) (j + k) (ahi - (i + k)))) as (Hr1 & Hr2 & Hr3).
  { destruct ((i + k <? ahi) && (j + k <? bhi)) eqn:Hc.
    - apply Forall2_cons_inv_l in Hr as (s & ? & (? & ? & ?) & ->%Forall2_nil_inv_l & ->).
      simpl in *. rewrite Nat.add_0_r. done.
    - apply Forall2_nil_inv_l in Hr as ->. simpl.
      repeat split; try lia. intros Ha Hb t Ht. lia. }
  assert (sum_list sl ≤ i - alo ∧ sum_list sl ≤ j - blo
          ∧ (sum_list sl = i - alo → sum_list sl = j - blo →
             seg_eq a b alo blo (i - alo))) as (Hl1 & Hl2 & Hl3).
  { destruct ((alo <? i) && (blo <? j)) eqn:Hc.
    - apply Forall2_cons_inv_l in Hl as (s & ? & (? & ? & ?) & ->%Forall2_nil_inv_l & ->).
      simpl in *. rewrite Nat.add_0_r. done.
    - apply Forall2_nil_inv_l in Hl as ->. simpl.
      repeat split; try lia. intros Ha Hb t Ht. lia. }
  repeat split; simpl; try lia.
  intros Ha Hb.
  apply seg_eq_glue with i j k; try lia; [| done |].
  - apply Hl3; lia.
  - apply Hr3; lia.
Qed.

Lemma match_regions_sound fuel queue acc res :
  Forall region_ok queue →
  match_regions a b b2j fuel queue acc = Some res →
  ∃ ss, sizes res = sizes acc + sum_list ss
        ∧ Forall2 (region_sum a b) queue ss.
Proof.
  revert queue acc.
  induction fuel as [|fuel IH]; intros queue acc Hq Hres.
  - destruct queue as [|[[[??]?]?] ?]; [|done].
    injection Hres as <-. exists []. split; [simpl; lia|constructor].
  - destruct queue as [|r queue].
    { injection Hres as <-. exists []. split; [simpl; lia|constructor]. }
    rewrite match_regions_step in Hres. cbn zeta in Hres.
    apply Forall_cons in Hq as [Hr Hq].
    assert (block_in a b r
              (find_longest_match a b b2j r.1.1.1 r.1.1.2 r.1.2 r.2))
      as Hm.
    { destruct r as [[[alo ahi] blo] bhi]. destruct Hr.
      by apply find_longest_match_ok. }
    destruct (Nat.eqb_spec
                (find_longest_match a b b2j r.1.1.1 r.1.1.2 r.1.2 r.2).2 0)
      as [Hk|Hk].
    + destruct (IH _ _ Hq Hres) as (ss & Hsum & Hss).
      exists (0 :: ss). split; [simpl; lia|].
      constructor; [|done].
      destruct r as [[[alo ahi] blo] bhi]. repeat split; simpl; try lia.
      intros Ha _ t Ht. lia.
    + set (m := find_longest_match a b b2j r.1.1.1 r.1.1.2 r.1.2 r.2) in *.
      assert (Forall region_ok (pushed r m ++ queue)) as Hq'.
      { apply Forall_app. split; [by apply pushed_ok|done]. }
      destruct (IH _ _ Hq' Hres) as (ss & Hsum & Hss).
      apply Forall2_app_inv_l in Hss as (sp & sq & Hsp & Hsq & ->).
      exists (m.2 + sum_list sp :: sq). split.
      * rewrite Hsum, sum_list_with_app. sizes_lia.
      * constructor; [|done]. by apply pushed_sum.
Qed.

Lemma turns_cons r queue :
  turns (r :: queue) = 2 * width_a r + 1 + turns queue.
Proof. done. Qed.

Lemma turns_app q1 q2 : turns (q1 ++ q2) = turns q1 + turns q2.
Proof. unfold turns. by rewrite fmap_app, sum_list_with_app. Qed.

Lemma pushed_turns r m :
  block_in a b r m → m.2 ≠ 0 → turns (pushed r m) ≤ 2 * width_a r.
Proof.
  destruct r as [[[alo ahi] blo] bhi], m as [[i j] k].
  intros (? & ? & ? & ? & _) Hk. unfold pushed, turns. simpl in Hk.
  rewrite fmap_app, sum_list_with_app.
  destruct ((i + k <? ahi) && (j + k <? bhi)) eqn:Hc1;
    destruct ((alo <? i) && (blo <? j)) eqn:Hc2; simpl; lia.
Qed.

(** The loop ends before its fuel does. *)
Lemma match_regions_total fuel queue acc :
  Forall region_ok queue → turns queue ≤ fuel →
  is_Some (match_regions a b b2j fuel queue acc).
Proof.
  revert queue acc.
  induction fuel as [|fuel IH]; intros queue acc Hq Hfuel.
  - destruct queue as [|r queue]; [by eexists|].
    rewrite turns_cons in Hfuel. lia.
  - destruct queue as [|r queue]; [by eexists|].
    rewrite match_regions_step. cbn zeta.
    apply Forall_cons in Hq as [Hr Hq].
    assert (block_in a b r
              (find_longest_match a b b2j r.1.1.1 r.1.1.2 r.1.2 r.2))
      as Hm.
    { destruct r as [[[alo ahi] blo] bhi]. destruct Hr.
      by apply find_longest_match_ok. }
    rewrite turns_cons in Hfuel.
    destruct (Nat.eqb_spec
                (find_longest_match a b b2j r.1.1.1 r.1.1.2 r.1.2 r.2).2 0)
      as [Hk|Hk].
    + apply IH; [done|lia].
    + apply IH.
      * apply Forall_app. split; [by apply pushed_ok|done].
      * pose proof (pushed_turns _ _ Hm Hk) as Hp.
        rewrite turns_app. lia.
Qed.
End Regions.


(** *** The blocks and the ratio *)

Lemma collapse_sizes i1 j1 k1 blocks non_adjacent :
  sizes (collapse i1 j1 k1 blocks non_adjacent)
  = sizes non_adjacent + k1 + sizes blocks.
Proof.
  revert i1 j1 k1 non_adjacent.
  induction blocks as [|[[i2 j2] k2] rest IH];
    intros i1 j1 k1 non_adjacent; simpl.
  - destruct (Nat.eqb_spec k1 0) as [->|_]; sizes_lia.
  - destruct (_ && _); rewrite IH.
    + sizes_lia.
    + destruct (Nat.eqb_spec k1 0) as [->|_]; sizes_lia.
Qed.

Lemma sorted_sizes (ms : list Match) :
  sizes (Itertools.sorted match_leb ms) = sizes ms.
Proof.
  unfold sizes. by rewrite (ItertoolsFacts.sorted_Permutation match_leb ms).
Qed.

(** The loop of [get_matching_blocks] always ends. *)
Lemma get_matching_blocks_loop_total a b :
  is_Some (match_regions a b (chain_b b) (2 * length a + 1)
             [(0, length a, 0, length b)] []).
Proof.
  apply match_regions_total.
  - apply chain_b_ok.
  - repeat constructor; simpl; lia.
  - rewrite turns_cons. unfold turns. simpl. lia.
Qed.

Lemma get_matching_blocks_sizes a b :
  region_sum a b (0, length a, 0, length b)
             (sizes (get_matching_blocks a b)).
Proof.
  unfold get_matching_blocks.
  destruct (get_matching_blocks_loop_total a b) as [ms Hms].
  rewrite Hms.
  apply match_regions_sound in Hms as (ss & Hsum & Hss);
    [|apply chain_b_ok|repeat constructor; simpl; lia].
  apply Forall2_cons_inv_l in Hss
    as (s & ? & Hs & ->%Forall2_nil_inv_l & ->).
  rewrite sizes_app, collapse_sizes, sorted_sizes, Hsum.
  replace (sizes [] + 0 + (sizes [] + sum_list [s]) + sizes [(length a, length b, 0)])
    with s by sizes_lia.
  done.
Qed.

Lemma seg_eq_all a b :
  length a = length b → seg_eq a b 0 0 (length a) → a = b.
Proof.
  intros Hlen Hseg. apply list_eq. intros i.
  destruct (decide (i < length a)) as [Hi|Hi].
  - apply (Hseg i Hi).
  - rewrite !lookup_ge_None_2; [done|lia..].
Qed.

Lemma calculate_ratio_lt_1 (matches length : nat) :
  Qle_bool 1 (calculate_ratio matches length) = false
  ↔ length ≠ 0 ∧ 2 * matches < length.
Proof.
  unfold calculate_ratio. destruct length as [|n]; simpl.
  - split; [done|]. intros [? _]. done.
  - rewrite <- not_true_iff_false, Qle_bool_iff.
    unfold Qle, Qdiv, Qmult, Qinv, inject_Z. simpl. lia.
Qed.

(** Two sequences that differ have a ratio below 1. *)
Lemma ratio_lt_1_of_ne a b :
  a ≠ b → Qle_bool 1 (ratio a b) = false.
Proof.
  intros Hne. unfold ratio. apply calculate_ratio_lt_1.
  fold (sizes (get_matching_blocks a b)).
  destruct (get_matching_blocks_sizes a b) as (Ha & Hb & Heq).
  simpl in Ha, Hb, Heq. rewrite Nat.sub_0_r in *.
  destruct (decide (2 * sizes (get_matching_blocks a b)
                    < length a + length b)) as [Hlt|Hge].
  - split; [lia|done].
  - exfalso. apply Hne. apply seg_eq_all; [lia|]. apply Heq; lia.
Qed.


(** *** A sequence against itself *)

Section Same.
Variables (s : list A) (b2j : gmap A (list nat)).
Hypothesis Hb2j : b2j_ok s b2j.

Local Abbreviation run := (DifflibInv.run s b2j).
Local Abbreviation prevrun := (DifflibInv.prevrun s b2j).
Local Abbreviation diag_prev := (DifflibInv.diag_prev s b2j).
Local Abbreviation diag_best := (DifflibInv.diag_best s b2j).

Lemma run_prevrun i : run i = run_step s b2j i (prevrun i).
Proof. by destruct i. Qed.

Lemma run_le i : run i ≤ S i.
Proof.
  induction i as [|i IH]; simpl; unfold DifflibInv.run_step.
  - destruct (s !! 0) as [x|]; [destruct (b2j !! x)|]; lia.
  - destruct (s !! S i) as [x|]; [destruct (b2j !! x)|]; lia.
Qed.

Lemma run_entry i x js :
  s !! i = Some x → b2j !! x = Some js → run i = S (prevrun i).
Proof. intros Hx Hjs. rewrite run_prevrun. unfold DifflibInv.run_step. by rewrite Hx, Hjs. Qed.

Lemma scan_row_diag i x js0 j2len js best new :
  s !! i = Some x → b2j !! x = Some js0 →
  diag_prev i j2len →
  StronglySorted lt js → (∀ j, j ∈ js → s !! j = Some x) →
  best.1.1 = best.1.2 → best.1.1 + best.2 ≤ S i →
  (∀ i', i' < i → run i' ≤ best.2) →
  (i ∈ js ∨ (run i ≤ best.2 ∧ new !! i = Some (run i))) →
  (∀ j k, new !! j = Some k → k ≤ run i ∧ k ≤ run j) →
  diag_best (S i) (scan_row 0 (length s) i j2len js best new).1
  ∧ (∀ j k, (scan_row 0 (length s) i j2len js best new).2 !! j = Some k →
            k ≤ run i ∧ k ≤ run j)
  ∧ (scan_row 0 (length s) i j2len js best new).2 !! i = Some (run i).
Proof.
  intros Hx Hx0 [Hprev Hprevi]. revert best new.
  induction js as [|j js IH];
    intros best new Hsort Hjs Hd Hsum Hruns Hi Hnew.
  - simpl. destruct Hi as [Hi|[Hi1 Hi2]]; [by apply elem_of_nil in Hi|].
    split; [|by split]. split; [done|]. split; [done|].
    intros i' Hi'. destruct (decide (i' = i)) as [->|]; [done|].
    apply Hruns. lia.
  - assert (s !! j = Some x) as Hj by (apply Hjs; by left).
    assert (j < length s) as Hjn by (by apply lookup_lt_Some in Hj).
    assert (∀ j', j' ∈ js → s !! j' = Some x) as Hjs'
      by (intros j' Hj'; apply Hjs; by right).
    apply StronglySorted_inv in Hsort as [Hsort Hall].
    rewrite Forall_forall in Hall.
    simpl. destruct (Nat.leb_spec (length s) j) as [|_]; [lia|].
    set (k := j2lenget_pred j2len j + 1).
    assert (k ≤ run i ∧ k ≤ run j) as [Hki Hkj].
    { destruct (Hprev j) as [H1 H2]. unfold k.
      rewrite (run_entry i x js0), (run_entry j x js0) by done. lia. }
    assert (∀ j' k', <[j:=k]> new !! j' = Some k' →
                     k' ≤ run i ∧ k' ≤ run j') as Hnew'.
    { intros j' k'. rewrite lookup_insert. case_decide as Hjj.
      - subst j'. by intros [= <-].
      - apply Hnew. }
    destruct (Nat.lt_total j i) as [Hlt|[Heq|Hgt]].
    + (* before the diagonal: no longer than a run already met *)
      assert ((match_size best <? k) = false) as ->.
      { apply Nat.ltb_ge. unfold match_size. specialize (Hruns j Hlt). lia. }
      apply IH; try done.
      destruct Hi as [Hi|[Hi1 Hi2]].
      * left. apply elem_of_cons in Hi as [->|Hi]; [lia|done].
      * right. split; [done|]. rewrite lookup_insert_ne by lia. done.
    + (* on the diagonal: the run in full *)
      subst j.
      assert (k = run i) as Hk.
      { unfold k. rewrite Hprevi, (run_entry i x js0) by done. lia. }
      pose proof (run_le i) as Hle.
      destruct (Nat.ltb_spec (match_size best) k) as [Hup|Hno].
      * apply IH; try done; simpl; try lia.
        -- intros i' Hi'. specialize (Hruns i' Hi').
           unfold match_size in Hup. lia.
        -- right. split; [lia|]. rewrite lookup_insert_eq. by rewrite Hk.
      * apply IH; try done.
        right. unfold match_size in Hno. split; [lia|].
        rewrite lookup_insert_eq. by rewrite Hk.
    + (* past the diagonal: no longer than the run on it *)
      destruct Hi as [Hi|[Hi1 Hi2]].
      { apply elem_of_cons in Hi as [->|Hi]; [lia|].
        specialize (Hall i Hi). lia. }
      assert ((match_size best <? k) = false) as ->.
      { apply Nat.ltb_ge. unfold match_size. lia. }
      apply IH; try done.
      right. split; [done|]. rewrite lookup_insert_ne by lia. done.
Qed.

Lemma scan_step_diag i st :
  i < length s → diag_best i st.1 → diag_prev i st.2 →
  diag_best (S i) (scan_step s b2j 0 (length s) st i).1
  ∧ diag_prev (S i) (scan_step s b2j 0 (length s) st i).2.
Proof.
  intros Hi (Hd & Hsum & Hruns) Hprev. unfold scan_step.
  destruct (lookup_lt_is_Some_2 s i Hi) as [x Hx]. rewrite Hx.
  destruct (b2j !! x) as [js|] eqn:Hjs; simpl.
  - destruct (Hb2j _ _ Hjs) as [Hsort Hmem].
    assert (∀ j, j ∈ js → s !! j = Some x) as Hall
      by (intros j Hj; by apply Hmem).
    assert (st.1.1.1 + st.1.2 ≤ S i) as Hsum' by lia.
    assert (i ∈ js ∨ (run i ≤ st.1.2
                      ∧ (∅ : gmap nat nat) !! i = Some (run i))) as Hin
      by (left; by apply Hmem).
    assert (∀ j k, (∅ : gmap nat nat) !! j = Some k →
                   k ≤ run i ∧ k ≤ run j) as Hempty
      by (intros j k; by rewrite lookup_empty).
    destruct (scan_row_diag i x js st.2 js st.1 ∅ Hx Hjs Hprev Hsort
                Hall Hd Hsum' Hruns Hin Hempty)
      as (Hbest & Hnew & Hnewi).
    split; [done|]. split.
    + intros [|j']; simpl; [lia|].
      destruct (_ !! j') as [k|] eqn:Hk; simpl; [|lia].
      apply Hnew in Hk. lia.
    + simpl. by rewrite Hnewi.
  - assert (run i = 0) as Hrun.
    { rewrite run_prevrun. unfold DifflibInv.run_step. by rewrite Hx, Hjs. }
    split.
    + repeat split; [done|lia|].
      intros i' Hi'. destruct (decide (i' = i)) as [->|]; [lia|].
      apply Hruns. lia.
    + split.
      * intros [|j']; simpl; [lia|]. rewrite lookup_empty. simpl. lia.
      * simpl. rewrite lookup_empty. simpl. lia.
Qed.

Lemma scan_rows_prefix_diag n :
  n ≤ length s →
  diag_best n
    (fold_left (scan_step s b2j 0 (length s)) (seq 0 n) ((0, 0, 0), ∅)).1
  ∧ diag_prev n
    (fold_left (scan_step s b2j 0 (length s)) (seq 0 n) ((0, 0, 0), ∅)).2.
Proof.
  induction n as [|n IH]; intros Hn.
  - simpl. split.
    + repeat split; simpl; try lia.
    + split; [|done]. intros [|j']; simpl; [lia|].
      rewrite lookup_empty. simpl. lia.
  - rewrite seq_S, fold_left_app. simpl.
    destruct IH as [IH1 IH2]; [lia|].
    by apply scan_step_diag.
Qed.

Lemma same_at_diag i : i < length s → same_at s s i i = true.
Proof.
  intros Hi. unfold same_at.
  destruct (lookup_lt_is_Some_2 s i Hi) as [x ->].
  by apply bool_decide_eq_true.
Qed.

Lemma extend_left_diag d k :
  d + k ≤ length s →
  extend_left s s 0 0 false d d k = (0, 0, k + d).
Proof.
  revert k. induction d as [|d IH]; intros k Hk; simpl.
  - by rewrite Nat.add_0_r.
  - rewrite same_at_diag by lia. unfold junk_at.
    destruct (s !! d); simpl; rewrite IH by lia; f_equal; lia.
Qed.

Lemma extend_right_diag fuel k :
  k + fuel = length s →
  extend_right s s (length s) (length s) fuel false 0 0 k = length s.
Proof.
  revert k. induction fuel as [|fuel IH]; intros k Hk; simpl; [lia|].
  destruct (Nat.ltb_spec k (length s)) as [Hlt|]; [|lia].
  rewrite same_at_diag by lia. unfold junk_at.
  destruct (s !! k); simpl; apply IH; lia.
Qed.

(** The longest match of a sequence with itself is the whole of
    it, whatever is popular. *)
Lemma find_longest_match_same :
  find_longest_match s s b2j 0 (length s) 0 (length s)
  = (0, 0, length s).
Proof.
  unfold find_longest_match, scan_rows. rewrite Nat.sub_0_r.
  destruct (scan_rows_prefix_diag (length s)) as [(Hd & Hsum & _) _];
    [done|].
  destruct (fold_left _ _ _) as [[[bi bj] bs] j2len]. simpl in *.
  subst bj. unfold extend at 2. simpl.
  rewrite extend_left_diag by done.
  rewrite extend_right_diag by lia.
  unfold extend. simpl. by rewrite Nat.sub_diag.
Qed.
End Same.

Lemma match_regions_nil a b b2j fuel acc :
  match_regions a b b2j fuel [] acc = Some acc.
Proof. by destruct fuel. Qed.

Lemma get_matching_blocks_same (s : list A) :
  sizes (get_matching_blocks s s) = length s.
Proof.
  unfold get_matching_blocks.
  replace (2 * length s + 1) with (S (2 * length s)) by lia.
  rewrite match_regions_step. cbn zeta.
  cbn [fst snd].
  rewrite find_longest_match_same by apply chain_b_ok.
  cbn [fst snd pushed]. rewrite Nat.ltb_irrefl.
  cbn [andb app]. rewrite !match_regions_nil.
  destruct (Nat.eqb_spec (length s) 0) as [Hn|Hn].
  - rewrite Hn. sizes_lia.
  - rewrite sizes_app, collapse_sizes, sorted_sizes. sizes_lia.
Qed.

(** A sequence has ratio 1 with itself. *)
Lemma ratio_same (s : list A) : Qle_bool 1 (ratio s s) = true.
Proof.
  apply not_false_iff_true. unfold ratio.
  fold (sizes (get_matching_blocks s s)).
  rewrite calculate_ratio_lt_1, get_matching_blocks_same. lia.
Qed.

(** The ratio is below 1 exactly for sequences that differ. *)
Lemma ratio_lt_1_iff a b : Qle_bool 1 (ratio a b) = false ↔ a ≠ b.
Proof.
  split.
  - intros Hr ->. by rewrite ratio_same in Hr.
  - apply ratio_lt_1_of_ne.
Qed.

End SequenceMatcher.
End DifflibFacts.

Module HashlibFacts.
Import Hashlib.

Lemma hex_of_bytes_length (bs : list Z) :
  String.length (hex_of_bytes bs) = 2 * length bs.
Proof. induction bs as [|b bs IH]; simpl; [done|]. rewrite IH. lia. Qed.

Lemma hex_digit_lower (d : Z) : is_lower_hex (hex_digit d) = true.
Proof.
  unfold is_lower_hex, hex_digit. apply bool_decide_eq_true.
  apply list_elem_of_In.
  destruct (nth_in_or_default (Z.to_nat d)
              (String.list_ascii_of_string "0123456789abcdef") "0"%char)
    as [Hin | ->]; [done|].
  simpl. tauto.
Qed.

Lemma hex_of_bytes_lower (bs : list Z) :
  forallb is_lower_hex (String.list_ascii_of_string (hex_of_bytes bs)) = true.
Proof.
  induction bs as [|b bs IH]; [done|].
  cbn [hex_of_bytes String.list_ascii_of_string forallb].
  by rewrite !hex_digit_lower, IH.
Qed.

(** Every round leaves a state of 25 lanes. *)
Lemma keccak_round_length (st : list Z) (rc : Z) :
  length (keccak_round st rc) = 25.
Proof.
  unfold keccak_round, iota.
  assert (length (chi (rho_pi (theta st))) = 25) as Hlen
    by (unfold chi; by rewrite length_map).
  destruct (chi (rho_pi (theta st))) as [|l r]; [done|]. done.
Qed.

Lemma keccak_f_length (st : list Z) : length (keccak_f st) = 25.
Proof.
  unfold keccak_f.
  assert (∃ rcs rc, round_constants = rcs ++ [rc]) as (rcs & rc & ->).
  { by exists (removelast round_constants), (List.last round_constants 0%Z). }
  rewrite fold_left_app. apply keccak_round_length.
Qed.

Lemma absorb_length (blocks : nat) (st padded : list Z) :
  length st = 25 → length (absorb blocks st padded) = 25.
Proof.
  revert st padded. induction blocks as [|n IH]; intros st padded Hst; [done|].
  simpl. apply IH. apply keccak_f_length.
Qed.

Lemma bytes_of_state_length (st : list Z) :
  length (bytes_of_state st) = 8 * length st.
Proof.
  unfold bytes_of_state. induction st as [|l st IH]; [done|].
  rewrite bind_cons, length_app, IH. simpl. lia.
Qed.

(** Four bytes out of SHAKE128 are four bytes. *)
Lemma shake_128_digest_4 (msg : list Z) : length (shake_128_digest msg 4) = 4.
Proof.
  unfold shake_128_digest.
  change (4 / rate + 1) with 1. cbn [squeeze].
  rewrite length_take, length_app, length_take, bytes_of_state_length.
  rewrite absorb_length by done. unfold rate. simpl. lia.
Qed.

(** Four bytes in hexadecimal are eight lower-case digits. *)
Lemma shake_128_hexdigest_4 (msg : list Z) :
  String.length (shake_128_hexdigest msg 4) = 8
  ∧ forallb is_lower_hex
      (String.list_ascii_of_string (shake_128_hexdigest msg 4)) = true.
Proof.
  unfold shake_128_hexdigest. split.
  - by rewrite hex_of_bytes_length, shake_128_digest_4.
  - apply hex_of_bytes_lower.
Qed.

End HashlibFacts.

Module PosixPathFacts.
Import PosixPath PosixPathInv.

Lemma last_char_app (s1 s2 : string) :
  s2 ≠ EmptyString → last_char (s1 +:+ s2) = last_char s2.
Proof.
  intros Hs2. induction s1 as [|c r IH]; [done|].
  change (String c r +:+ s2) with (String c (r +:+ s2)).
  cbn [last_char]. rewrite IH.
  destruct s2 as [|c2 r2]; [done|]. simpl. by destruct (last_char r2).
Qed.

(** A step of [join] ends the way its second argument does. *)
Lemma join_step_last_char (path b : string) :
  b ≠ EmptyString → last_char (join_step path b) = last_char b.
Proof.
  intros Hb. unfold join_step.
  destruct (_ || _); [done|].
  destruct (Py.endswith path _).
  - by apply last_char_app.
  - change (path +:+ String sep b) with (path +:+ (String sep b)).
    rewrite last_char_app by done. simpl.
    destruct b as [|c r]; [done|]. simpl. by destruct (last_char r).
Qed.

Lemma endswith_sep_false (s : string) (c : ascii) :
  c ≠ sep → last_char s = Some c →
  Py.endswith s (String sep EmptyString) = false.
Proof.
  intros Hc. induction s as [|a r IH]; [done|].
  cbn [Py.endswith last_char].
  destruct (last_char r) as [c'|] eqn:Hr.
  - intros [= ->]. rewrite IH by done. rewrite orb_false_r.
    apply String.eqb_neq. intros [= -> ->]. done.
  - intros [= ->]. destruct r as [|a' r'].
    + simpl. rewrite orb_false_r. by destruct (Ascii.eqb_spec c sep).
    + simpl in Hr. by destruct (last_char r').
Qed.

(** Joining a relative name to a directory that ends in a letter puts the
    name under the directory. *)
Lemma join_step_relative (dir b : string) (c : ascii) :
  c ≠ sep → last_char dir = Some c →
  Py.startswith b (String sep EmptyString) = false →
  join_step dir b = dir +:+ String sep b.
Proof.
  intros Hc Hdir Hb. unfold join_step. rewrite Hb.
  rewrite (endswith_sep_false _ c) by done.
  by destruct dir.
Qed.

End PosixPathFacts.

(* ================================================================= *)
(** * Facts about [config/filewrite.py] *)

Module FileWriteFacts.
Import FileWrite.

(** ** Change detection *)

Lemma ratio_lt_1_Qlt (r : Q) : Qle_bool 1 r = false ↔ (r < 1)%Q.
Proof.
  rewrite <- not_true_iff_false, Qle_bool_iff. split.
  - apply Qnot_le_lt.
  - apply Qlt_not_le.
Qed.

Lemma files_are_different_true rfp new_rfp :
  files_are_different rfp new_rfp = true
  ↔ Py.strip <$> rfp ≠ Py.strip <$> new_rfp.
Proof.
  unfold files_are_different.
  rewrite negb_true_iff. apply DifflibFacts.ratio_lt_1_iff.
Qed.

Lemma files_are_different_false rfp new_rfp :
  files_are_different rfp new_rfp = false
  ↔ Py.strip <$> rfp = Py.strip <$> new_rfp.
Proof.
  rewrite <- not_true_iff_false, files_are_different_true.
  split; [|by intros ? ?].
  intros Hnn. by destruct (decide (Py.strip <$> rfp = Py.strip <$> new_rfp)).
Qed.

Lemma files_are_different_ratio rfp new_rfp :
  files_are_different rfp new_rfp = true
  ↔ (Difflib.ratio (Py.strip <$> rfp) (Py.strip <$> new_rfp) < 1)%Q.
Proof.
  unfold files_are_different. by rewrite negb_true_iff, ratio_lt_1_Qlt.
Qed.

(** ** What a conditional write leaves alone *)

Lemma write_if_different_cases fname content wd :
  write_if_different fname content wd = write_text fname content wd
  ∨ write_if_different fname content wd = wd.
Proof.
  unfold write_if_different.
  destruct (match files wd !! fname with Some _ => _ | None => _ end);
    [by left|by right].
Qed.

Lemma write_if_different_other fname content wd other :
  fname ≠ other →
  files (write_if_different fname content wd) !! other = files wd !! other.
Proof.
  intros Hne. destruct (write_if_different_cases fname content wd) as [-> | ->];
    [|done].
  simpl. by rewrite lookup_insert_ne.
Qed.

Lemma write_if_different_absent fname content wd :
  files wd !! fname = None →
  files (write_if_different fname content wd) !! fname = Some content.
Proof.
  intros Hnone. unfold write_if_different. rewrite Hnone. simpl.
  by rewrite lookup_insert_eq.
Qed.

(** A conditional write is no flush. *)
Lemma write_if_different_finished fname content wd :
  finish_count (write_if_different fname content wd) = finish_count wd.
Proof.
  destruct (write_if_different_cases fname content wd) as [-> | ->]; [|done].
  unfold finish_count. simpl. rewrite filter_app, length_app. simpl. lia.
Qed.

(** ** One group of the flush *)

Lemma set_generators_same wd : set_generators (generators wd) wd = wd.
Proof. by destruct wd. Qed.

(** The three branches of [finish] prepend the banner of the path. *)
Lemma finish_group_eq wd fname fcontents :
  finish_group wd (fname, fcontents)
  = write_if_different fname
      (Py.join NL (banner_for fname ++ (drain fcontents (generators wd)).1))
      (set_generators (drain fcontents (generators wd)).2 wd).
Proof.
  unfold finish_group, banner_for.
  destruct (drain fcontents (generators wd)) as [lines gens]. simpl.
  set (ext := (PosixPath.splitext fname).2).
  destruct (decide (ext = ".cc" ∨ ext = ".h" ∨ ext = ".inc")) as [Hc|Hc].
  - rewrite (bool_decide_eq_true_2 (_ ∨ _)) by done.
    rewrite bool_decide_eq_true_2; [done|].
    rewrite !elem_of_cons. tauto.
  - rewrite (bool_decide_eq_false_2 (_ ∨ _)) by done.
    rewrite (bool_decide_eq_false_2 (ext ∈ [".cc"; ".h"; ".inc"])).
    2:{ rewrite !elem_of_cons, elem_of_nil. tauto. }
    destruct (decide (ext = ".mk")) as [Hm|Hm].
    + rewrite (bool_decide_eq_true_2 (ext = ".mk")) by done.
      rewrite bool_decide_eq_true_2; [done|]. rewrite Hm. by left.
    + rewrite (bool_decide_eq_false_2 (ext = ".mk")) by done.
      rewrite bool_decide_eq_false_2; [done|].
      rewrite list_elem_of_singleton. done.
Qed.

Lemma flush_path_other parts wd fname other :
  fname ≠ other →
  files (flush_path parts wd fname) !! other = files wd !! other.
Proof.
  intros Hne. unfold flush_path.
  destruct (drain _ _) as [lines gens].
  by rewrite write_if_different_other.
Qed.

Lemma flush_path_finished parts wd fname :
  finish_count (flush_path parts wd fname) = finish_count wd.
Proof.
  unfold flush_path. destruct (drain _ _) as [lines gens].
  by rewrite write_if_different_finished.
Qed.

(** ** The whole flush *)

(** The groups of [finish]: one path after the other in the order of the
    strings, each path once, each with its fragments in the order of
    submission. *)
Lemma groups_of_fileparts (parts : list (string * line_seq)) :
  StronglySorted (strict String.le) (flush_paths parts)
  ∧ (∀ P, P ∈ flush_paths parts ↔ P ∈ parts.*1)
  ∧ (∀ P fcontents,
       (P, fcontents)
         ∈ Itertools.groupby fst (Itertools.sorted_by_key fst parts) →
       fcontents = group_of P parts).
Proof.
  unfold flush_paths.
  pose proof (ItertoolsFacts.groupby_sorted fst _
                (ItertoolsFacts.sorted_by_key_sorted fst parts))
    as (Hsorted & Hgroups & Hcover).
  split; [done|]. split.
  - intros P. split.
    + intros HP. apply list_elem_of_fmap in HP as ([P' g] & -> & Hin).
      destruct (Hgroups _ _ Hin) as [Hg Hne]. simpl.
      destruct g as [|f g]; [done|].
      assert (f ∈ filter (λ y : string * line_seq, y.1 = P')
                (Itertools.sorted_by_key fst parts)) as Hf
        by (rewrite <- Hg; by left).
      apply list_elem_of_filter in Hf as [<- Hf].
      rewrite (ItertoolsFacts.sorted_by_key_Permutation fst parts) in Hf.
      apply list_elem_of_fmap. by exists f.
    + intros HP. apply list_elem_of_fmap in HP as (f & -> & Hf).
      apply Hcover.
      by rewrite (ItertoolsFacts.sorted_by_key_Permutation fst parts).
  - intros P g Hin. destruct (Hgroups _ _ Hin) as [-> _].
    apply ItertoolsFacts.sorted_by_key_filter.
Qed.

Lemma fold_finish_groups parts groups wd :
  (∀ P fcontents, (P, fcontents) ∈ groups → fcontents = group_of P parts) →
  fold_left finish_group groups wd
  = fold_left (flush_path parts) groups.*1 wd.
Proof.
  revert wd. induction groups as [|[P g] groups IH]; intros wd Hg; [done|].
  rewrite fmap_cons. cbn [fold_left fst].
  rewrite IH by (intros ???; apply Hg; by right). f_equal.
  rewrite finish_group_eq. unfold flush_path.
  rewrite <- (Hg P g) by (by left).
  by destruct (drain g (generators wd)).
Qed.

(** [finish] flushes the paths one after the other. *)
Lemma finish_as_flush self wd :
  finish (self, wd)
  = (Ret (), (self, fold_left (flush_path (fileparts self))
                              (flush_paths (fileparts self))
                              (log_event Finished wd))).
Proof.
  destruct (groups_of_fileparts (fileparts self)) as (_ & _ & Hg).
  unfold finish, flush_paths. cbn [fst snd].
  by rewrite (fold_finish_groups (fileparts self)).
Qed.

Lemma sorted_same_key (P : string) (x y : line_seq) :
  Itertools.groupby fst (Itertools.sorted_by_key fst [(P, x); (P, y)])
  = [(P, [(P, x); (P, y)])].
Proof.
  unfold Itertools.sorted_by_key. simpl.
  assert (String.leb P P = true) as ->.
  { assert (String.le P P) as Hle by reflexivity.
    unfold String.le in Hle. by destruct (String.leb P P). }
  simpl. by rewrite String.eqb_refl.
Qed.

Lemma fold_flush_other parts paths wd other :
  other ∉ paths →
  files (fold_left (flush_path parts) paths wd) !! other = files wd !! other.
Proof.
  revert wd. induction paths as [|P paths IH]; intros wd Hnot; [done|].
  cbn [fold_left]. rewrite IH by (intros ?; apply Hnot; by right).
  apply flush_path_other. intros ->. apply Hnot. by left.
Qed.

Lemma fold_flush_finished parts paths wd :
  finish_count (fold_left (flush_path parts) paths wd) = finish_count wd.
Proof.
  revert wd. induction paths as [|P paths IH]; intros wd; [done|].
  cbn [fold_left]. by rewrite IH, flush_path_finished.
Qed.

Lemma strict_sorted_NoDup (paths : list string) :
  StronglySorted (strict String.le) paths → NoDup paths.
Proof.
  induction 1 as [|P paths _ IH Hall]; constructor; [|done].
  intros Hin. rewrite Forall_forall in Hall.
  destruct (Hall P Hin) as [_ Hn]. by apply Hn.
Qed.

(** A flush counts as one flush. *)
Lemma finish_counts st :
  finish_count (finish st).2.2 = S (finish_count st.2).
Proof.
  destruct st as [self wd]. rewrite finish_as_flush.
  cbn [snd]. rewrite fold_flush_finished.
  unfold finish_count. simpl. rewrite filter_app, length_app. simpl. lia.
Qed.

(** The file of a path that did not exist holds, after the flush, the
    banner of the path and then lines. *)
Lemma finish_new_file self wd P :
  P ∈ (fileparts self).*1 → files wd !! P = None →
  ∃ lines,
    files (finish (self, wd)).2.2 !! P
    = Some (Py.join NL (banner_for P ++ lines)).
Proof.
  intros HP Hnone.
  destruct (groups_of_fileparts (fileparts self)) as (Hsorted & Hpaths & _).
  rewrite finish_as_flush. cbn [snd]. apply Hpaths in HP.
  apply strict_sorted_NoDup in Hsorted.
  apply list_elem_of_split in HP as (before & after & Heq).
  rewrite Heq in Hsorted |- *.
  apply NoDup_app in Hsorted as (_ & Hbefore & Hafter).
  apply NoDup_cons in Hafter as [Hafter _].
  rewrite fold_left_app. cbn [fold_left].
  rewrite fold_flush_other by done.
  unfold flush_path at 1.
  destruct (drain _ _) as [lines gens]. exists lines.
  apply write_if_different_absent. simpl.
  rewrite fold_flush_other; [done|].
  intros Hin. by apply (Hbefore P Hin); left.
Qed.

(** ** Flushing twice *)

Lemma plain_app (s1 s2 : string) :
  Py.plain (s1 +:+ s2) = Py.plain s1 && Py.plain s2.
Proof.
  induction s1 as [|c r IH]; [done|].
  change (String c r +:+ s2) with (String c (r +:+ s2)).
  cbn [Py.plain]. by rewrite IH, andb_assoc.
Qed.

Lemma plain_join (ls : list string) :
  forallb Py.plain ls = true → Py.plain (Py.join NL ls) = true.
Proof.
  induction ls as [|l ls IH]; [done|].
  cbn [forallb]. intros [Hl Hls]%andb_true_iff.
  destruct ls as [|l' ls]; [done|].
  change (Py.join NL (l :: l' :: ls))
    with (l +:+ NL +:+ Py.join NL (l' :: ls)).
  rewrite !plain_app, Hl, IH by done. done.
Qed.

Lemma forallb_mjoin {A} (f : A → bool) (ls : list (list A)) :
  forallb (forallb f) ls = true → forallb f (mjoin ls) = true.
Proof.
  induction ls as [|l ls IH]; [done|].
  intros Hls. cbn [forallb] in Hls. apply andb_true_iff in Hls as [Hl Hls].
  change (mjoin (l :: ls)) with (l ++ mjoin ls).
  rewrite forallb_app, Hl, IH by done. done.
Qed.

Lemma forallb_filter_true {A} (f : A → bool) (P : A → Prop)
    `{∀ x, Decision (P x)} (l : list A) :
  forallb f l = true → forallb f (filter P l) = true.
Proof.
  induction l as [|x l IH]; [done|].
  cbn [forallb]. intros [Hx Hl]%andb_true_iff.
  rewrite filter_cons. destruct (decide (P x)); [|by apply IH].
  cbn [forallb]. by rewrite Hx, IH.
Qed.

Lemma plain_content parts P :
  forallb reiterable parts = true → Py.plain (content_of parts P) = true.
Proof.
  intros Hparts. unfold content_of. apply plain_join.
  rewrite forallb_app. apply andb_true_iff. split.
  - unfold banner_for. by repeat case_bool_decide.
  - apply forallb_mjoin. unfold group_of.
    apply (forallb_filter_true reiterable (λ f, f.1 = P)) in Hparts.
    induction (filter _ parts) as [|f fs IH]; [done|].
    cbn [forallb] in Hparts. apply andb_true_iff in Hparts as [Hf Hfs].
    rewrite fmap_cons. cbn [forallb]. rewrite IH by done.
    unfold reiterable in Hf. unfold lines_of.
    destruct f.2; [by rewrite Hf|done].
Qed.

(** Running lists leaves the generators as they are. *)
Lemma drain_reiterable fcontents gens :
  forallb reiterable fcontents = true →
  drain fcontents gens = (mjoin (lines_of <$> fcontents), gens).
Proof.
  induction fcontents as [|f fs IH]; [done|].
  cbn [forallb]. intros [Hf Hfs]%andb_true_iff.
  cbn [drain]. unfold reiterable in Hf. unfold lines_of at 1.
  rewrite fmap_cons. destruct f.2 as [lines|g] eqn:Hf2; [|done].
  cbn [iterate]. by rewrite IH.
Qed.

Lemma flush_path_reiterable parts wd P :
  forallb reiterable parts = true →
  flush_path parts wd P = write_if_different P (content_of parts P) wd.
Proof.
  intros Hparts. unfold flush_path, content_of.
  rewrite drain_reiterable
    by (by apply (forallb_filter_true reiterable (λ f, f.1 = P))).
  by rewrite set_generators_same.
Qed.

(** A conditional write settles its path, when the content is plain. *)
Lemma write_if_different_settles P content wd :
  Py.plain content = true →
  settled content (write_if_different P content wd) P.
Proof.
  intros Hplain. unfold settled, write_if_different.
  destruct (files wd !! P) as [old|] eqn:Hold.
  - destruct (files_are_different _ _) eqn:Hd.
    + exists content. split; [simpl; by rewrite lookup_insert_eq|].
      by apply PyFacts.strip_readlines_splitlines.
    + exists old. split; [done|]. by apply files_are_different_false.
  - exists content. split; [simpl; by rewrite lookup_insert_eq|].
    by apply PyFacts.strip_readlines_splitlines.
Qed.

(** On a settled path the conditional write does nothing. *)
Lemma settled_noop P content wd :
  settled content wd P → write_if_different P content wd = wd.
Proof.
  intros (old & Hold & Hsame). unfold write_if_different. rewrite Hold.
  by rewrite (proj2 (files_are_different_false _ _) Hsame).
Qed.

Lemma settled_files content wd wd' P :
  files wd' !! P = files wd !! P → settled content wd P → settled content wd' P.
Proof. intros Heq (old & Hold & Hsame). exists old. by rewrite Heq. Qed.

Lemma fold_flush_settles parts paths wd :
  forallb reiterable parts = true → NoDup paths →
  Forall (λ P, settled (content_of parts P)
                 (fold_left (flush_path parts) paths wd) P) paths.
Proof.
  intros Hparts. revert wd.
  induction paths as [|P paths IH]; intros wd Hnodup; [constructor|].
  apply NoDup_cons in Hnodup as [HP Hnodup]. cbn [fold_left].
  constructor; [|by apply IH].
  apply settled_files with (flush_path parts wd P).
  - by apply fold_flush_other.
  - rewrite flush_path_reiterable by done.
    by apply write_if_different_settles, plain_content.
Qed.

Lemma fold_flush_noop parts paths wd :
  forallb reiterable parts = true →
  Forall (λ P, settled (content_of parts P) wd P) paths →
  fold_left (flush_path parts) paths wd = wd.
Proof.
  intros Hparts. induction 1 as [|P paths HP _ IH]; [done|].
  cbn [fold_left]. rewrite flush_path_reiterable by done.
  by rewrite settled_noop.
Qed.

(** A second flush of lists only records that it ran. *)
Lemma second_finish_noop self wd :
  forallb reiterable (fileparts self) = true →
  finish (finish (self, wd)).2
  = (Ret (), (self, log_event Finished (finish (self, wd)).2.2)).
Proof.
  intros Hparts.
  destruct (groups_of_fileparts (fileparts self)) as (Hsorted & _ & _).
  apply strict_sorted_NoDup in Hsorted.
  rewrite (finish_as_flush self wd). cbn [snd].
  set (wd1 := fold_left (flush_path (fileparts self))
                        (flush_paths (fileparts self))
                        (log_event Finished wd)).
  rewrite (finish_as_flush self wd1). do 2 f_equal.
  apply fold_flush_noop; [done|].
  pose proof (fold_flush_settles (fileparts self) (flush_paths (fileparts self))
                (log_event Finished wd) Hparts Hsorted) as Hsettled.
  eapply Forall_impl; [exact Hsettled|].
  intros P HP. by apply settled_files with wd1.
Qed.

(** ** [write_files], step by step *)

Lemma bind_ret_step {R S} (r : R) (k : R → M S) st :
  mbind k (ret r) st = k r st.
Proof. done. Qed.

Lemma bind_raise_step {R S} (e : exn) (k : R → M S) st :
  mbind k (raise e) st = (Raise e, st).
Proof. done. Qed.

Lemma bind_get_self_step {S} (k : FileWriter → M S) st :
  mbind k get_self st = k st.1 st.
Proof. done. Qed.

Lemma bind_new_generator_step {S} lines (k : line_seq → M S) self wd :
  mbind k (new_generator lines) (self, wd)
  = k (Generator (length (generators wd)))
      (self, set_generators (generators wd ++ [lines]) wd).
Proof. done. Qed.

Lemma bind_append_step {S} part (k : () → M S) self wd :
  mbind k (append part) (self, wd)
  = k () (mkFileWriter (fileparts self ++ [part]) (bindir_name self)
                       (core_sources self) (objdir_name self), wd).
Proof. done. Qed.

Lemma bind_result_step {R S} (m : M R) (k : R → M S) st r st' :
  m st = (Ret r, st') → mbind k m st = k r st'.
Proof. unfold mbind, M_bind, bind. by intros ->. Qed.

Section Process.
Variables (cwd module_file : string).
Context {Elements ModuleInfo ConfigFile Env : Type}.
Context {collaborators : @Collaborators Elements ModuleInfo ConfigFile Env}.

Local Abbreviation in_inc_dir := (FileWrite.in_inc_dir cwd module_file).

Lemma makefile_last_char :
  PosixPathInv.last_char (makefile_file_name cwd module_file)
  = Some "k"%char.
Proof.
  unfold makefile_file_name, PosixPath.join. cbn [fold_left].
  by rewrite PosixPathFacts.join_step_last_char.
Qed.

Lemma inc_dir_last_char (dir build_id : string) :
  PosixPathInv.last_char (PosixPath.join dir [build_id; "inc"])
  = Some "c"%char.
Proof.
  unfold PosixPath.join. cbn [fold_left].
  by rewrite PosixPathFacts.join_step_last_char.
Qed.

Lemma in_inc_dir_intro (dir build_id fname : string) (c : ascii)
    (ls : line_seq) :
  PosixPathInv.last_char fname = Some c → c ≠ "k"%char →
  in_inc_dir (PosixPath.join dir [build_id; "inc"])
             (PosixPath.join (PosixPath.join dir [build_id; "inc"]) [fname],
              ls).
Proof.
  intros Hlast Hc. split.
  - cbn [fst]. intros Heq.
    assert (PosixPathInv.last_char
              (PosixPath.join (PosixPath.join dir [build_id; "inc"]) [fname])
            = Some c) as Hl.
    { unfold PosixPath.join at 1. cbn [fold_left].
      rewrite PosixPathFacts.join_step_last_char; [done|].
      by destruct fname. }
    rewrite Heq, makefile_last_char in Hl. congruence.
  - exists fname. split; [done|]. intros Hrel. cbn [fst].
    unfold PosixPath.join at 1. cbn [fold_left].
    by apply PosixPathFacts.join_step_relative with "c"%char;
      [|apply inc_dir_last_char|].
Qed.

Lemma last_char_inc (s : string) :
  PosixPathInv.last_char (s +:+ ".inc") = Some "c"%char.
Proof. by rewrite PosixPathFacts.last_char_app. Qed.

(** The loop over the compiled modules returns, and every fragment it
    appends is a path of the include directory. *)
Lemma extend_module_parts_spec (dir build_id : string)
    (ms : list ModuleEntry) (self : FileWriter) (wd : World) :
  ∃ parts gens,
    extend_module_parts (PosixPath.join dir [build_id; "inc"]) ms (self, wd)
    = (Ret (),
       (mkFileWriter (fileparts self ++ parts) (bindir_name self)
                     (core_sources self) (objdir_name self),
        set_generators gens wd))
    ∧ Forall (in_inc_dir (PosixPath.join dir [build_id; "inc"])) parts.
Proof.
  revert self wd. induction ms as [|m ms IH]; intros self wd.
  - exists [], (generators wd). split; [|constructor].
    simpl. rewrite app_nil_r. by destruct self, wd.
  - cbn [extend_module_parts].
    rewrite bind_new_generator_step, bind_append_step.
    match goal with
    | |- context [extend_module_parts _ ms (?w, ?d)] =>
        destruct (IH w d) as (parts & gens & -> & Hparts)
    end.
    eexists (_ :: parts), gens. split.
    + cbn [fileparts bindir_name core_sources objdir_name].
      by rewrite <- app_assoc.
    + constructor; [|done].
      by apply in_inc_dir_intro with "c"%char; [apply last_char_inc|].
Qed.

(** What [write_files] has appended when it returns. *)
Lemma write_files_returns (parsed_config : ParsedConfig)
    (bindir_name : option string) (srcdir_names : option (list string))
    (objdir_name : option string)
    (self : FileWriter) (wd : World) (st : FileWriter * World) :
  write_files cwd module_file parsed_config bindir_name srcdir_names
              objdir_name (self, wd) = (Ret (), st) →
  ∃ build_id objdir others g,
    compute_build_id parsed_config = Some build_id
    ∧ py_or objdir_name (FileWrite.objdir_name self) = Some objdir
    ∧ fileparts st.1
      = fileparts self ++ others
        ++ [(makefile_file_name cwd module_file, Generator g)]
    ∧ 6 ≤ length others
    ∧ Forall (in_inc_dir
                (PosixPath.join (PosixPath.abspath cwd objdir)
                                [build_id; "inc"])) others.
Proof.
  unfold write_files. rewrite bind_get_self_step. cbn [fst].
  destruct (compute_build_id parsed_config) as [build_id|];
    [rewrite bind_ret_step|by rewrite bind_raise_step].
  destruct (py_or objdir_name (FileWrite.objdir_name self))
    as [objdir|]; cbn [fspath];
    [rewrite bind_ret_step|by rewrite bind_raise_step].
  set (dir := PosixPath.abspath cwd objdir).
  repeat (rewrite ?bind_new_generator_step, ?bind_append_step;
          cbn [fileparts generators set_generators
               FileWrite.bindir_name core_sources FileWrite.objdir_name]).
  match goal with
  | |- context [mbind _ (extend_module_parts _ ?ms) (?w, ?d)] =>
      destruct (extend_module_parts_spec dir build_id ms w d)
        as (parts & gens & Hext & Hparts)
  end.
  rewrite (bind_result_step _ _ _ _ _ Hext).
  destruct (py_or bindir_name (FileWrite.bindir_name self))
    as [bindir|]; cbn [fspath];
    [rewrite bind_ret_step|by rewrite bind_raise_step].
  rewrite bind_new_generator_step. unfold append.
  cbn [fst snd fileparts generators set_generators
       FileWrite.bindir_name core_sources FileWrite.objdir_name].
  intros [= <-]. cbn [fst fileparts].
  eexists build_id, objdir, (_ :: _ :: _ :: _ :: _ :: _ :: parts), _.
  split; [done|]. split; [done|]. split.
  { rewrite <- !app_assoc. reflexivity. }
  split; [simpl; lia|].
  repeat (constructor;
          [by eapply in_inc_dir_intro; [reflexivity|]|]).
  done.
Qed.

End Process.

End FileWriteFacts.

(* ================================================================= *)
(** * The properties of the file writer *)

Import FileWrite.

(** C1: for the path of every group of a flush, [write_if_different]
    writes the new content when the file does not exist, or when the
    similarity ratio of the trimmed lines of the file and of the new
    content is below 1; otherwise, and so whenever the trimmed lines are
    the same (lines that differ only in the whitespace around them
    included), it writes nothing and the world is as before. *)
Theorem C1_write_if_different fname new_file_string wd :
  (files wd !! fname = None →
   write_if_different fname new_file_string wd
   = write_text fname new_file_string wd)
  ∧ (∀ content, files wd !! fname = Some content →
     let old_file_lines := Py.strip <$> Py.readlines content in
     let new_file_lines := Py.strip <$> Py.splitlines new_file_string in
     ((Difflib.ratio old_file_lines new_file_lines < 1)%Q →
      write_if_different fname new_file_string wd
      = write_text fname new_file_string wd)
     ∧ (¬ (Difflib.ratio old_file_lines new_file_lines < 1)%Q →
        write_if_different fname new_file_string wd = wd)
     ∧ (old_file_lines = new_file_lines →
        write_if_different fname new_file_string wd = wd)).
Proof.
  unfold write_if_different. split.
  - by intros ->.
  - intros content ->. cbn zeta.
    pose proof (FileWriteFacts.files_are_different_ratio
                  (Py.readlines content) (Py.splitlines new_file_string))
      as Hr.
    destruct (files_are_different _ _) eqn:Hd.
    + split; [done|]. split.
      * intros Hn. destruct Hn. by apply Hr.
      * intros Heq. by apply FileWriteFacts.files_are_different_true in Hd.
    + split; [|done]. intros Hlt. apply Hr in Hlt. congruence.
Qed.

(** The example of the specification: a file that holds ["A\nB\n"] is
    left alone by the content ["A \nB\n"]. *)
Lemma C1_trailing_space_example :
  write_if_different "out.h" ("A " +:+ NL +:+ "B" +:+ NL)
    (mkWorld {["out.h" := "A" +:+ NL +:+ "B" +:+ NL]} [] [])
  = mkWorld {["out.h" := "A" +:+ NL +:+ "B" +:+ NL]} [] [].
Proof.
  destruct (C1_write_if_different "out.h" ("A " +:+ NL +:+ "B" +:+ NL)
              (mkWorld {["out.h" := "A" +:+ NL +:+ "B" +:+ NL]} [] []))
    as [_ Hexists].
  destruct (Hexists ("A" +:+ NL +:+ "B" +:+ NL)) as (_ & _ & Hsame).
  - vm_compute. reflexivity.
  - apply Hsame. vm_compute. reflexivity.
Defined.

(** C2: for all line sequences, the test of [files_are_different], that
    the ratio of the two lists of trimmed lines is below 1, holds exactly
    when the two lists of trimmed lines are not equal; the function is the
    direct comparison of the trimmed lists. *)
Theorem C2_ratio_test_is_inequality rfp new_rfp :
  let old_file_lines := Py.strip <$> rfp in
  let new_file_lines := Py.strip <$> new_rfp in
  (files_are_different rfp new_rfp = true
   ↔ (Difflib.ratio old_file_lines new_file_lines < 1)%Q)
  ∧ ((Difflib.ratio old_file_lines new_file_lines < 1)%Q
     ↔ old_file_lines ≠ new_file_lines)
  ∧ files_are_different rfp new_rfp = trimmed_lines_differ rfp new_rfp.
Proof.
  cbn zeta. split; [|split].
  - apply FileWriteFacts.files_are_different_ratio.
  - rewrite <- FileWriteFacts.ratio_lt_1_Qlt.
    apply DifflibFacts.ratio_lt_1_iff.
  - unfold trimmed_lines_differ.
    destruct (files_are_different rfp new_rfp) eqn:Hd; symmetry.
    + apply bool_decide_eq_true.
      by apply FileWriteFacts.files_are_different_true.
    + apply bool_decide_eq_false.
      apply FileWriteFacts.files_are_different_false in Hd.
      by intros ?.
Qed.






(** C5: a flush takes the paths one after the other in the order of the
    strings, each path once; for each path it runs the fragments
    submitted to that path in the order of submission and joins their
    lines after the banner.  Lines ["x"] and then ["y"] submitted to one
    path give the content ["x\ny"] after the banner. *)
Theorem C5_groups_in_submission_order self wd :
  let parts := fileparts self in
  StronglySorted (strict String.le) (flush_paths parts)
  ∧ (∀ P, P ∈ flush_paths parts ↔ P ∈ parts.*1)
  ∧ finish (self, wd)
    = (Ret (), (self, fold_left (flush_path parts) (flush_paths parts)
                                (log_event Finished wd)))
  ∧ (∀ P bindir src objdir,
       finish (mkFileWriter [(P, Lines ["x"]); (P, Lines ["y"])]
                            bindir src objdir, wd)
       = (Ret (), (mkFileWriter [(P, Lines ["x"]); (P, Lines ["y"])]
                                bindir src objdir,
                   write_if_different P
                     (Py.join NL (banner_for P ++ ["x"; "y"]))
                     (log_event Finished wd))))
  ∧ Py.join NL ["x"; "y"] = "x" +:+ NL +:+ "y".
Proof.
  cbn zeta.
  destruct (FileWriteFacts.groups_of_fileparts (fileparts self))
    as (Hsorted & Hpaths & _).
  split; [done|]. split; [done|]. split; [|split; [|done]].
  - apply FileWriteFacts.finish_as_flush.
  - intros P bindir src objdir. unfold finish. cbn [fst snd fileparts].
    rewrite FileWriteFacts.sorted_same_key. cbn [fold_left].
    rewrite FileWriteFacts.finish_group_eq.
    cbn [drain iterate fst snd app].
    by rewrite FileWriteFacts.set_generators_same.
Qed.




(** C7: the build identifier is a function of the serialized
    configuration alone: the first four bytes of SHAKE128 of its UTF-8
    bytes, as eight lower-case hexadecimal digits; two configurations
    with the same serialization, and so one configuration taken twice,
    have the same identifier. *)
Theorem C7_build_id_of_serialization
    {Elements ModuleInfo ConfigFile Env : Type}
    {collaborators : @Collaborators Elements ModuleInfo ConfigFile Env}
    (parsed_config : @ParsedConfig Elements ModuleInfo ConfigFile Env) :
  compute_build_id parsed_config
  = (λ dumped, Hashlib.shake_128_hexdigest (Hashlib.encode_utf8 dumped) 4)
      <$> json_dumps parsed_config
  ∧ (∀ build_id, compute_build_id parsed_config = Some build_id →
       String.length build_id = 8
       ∧ forallb Hashlib.is_lower_hex
           (String.list_ascii_of_string build_id) = true)
  ∧ (∀ other, json_dumps other = json_dumps parsed_config →
       compute_build_id other = compute_build_id parsed_config).
Proof.
  split; [done|]. split.
  - unfold compute_build_id. intros build_id Hid.
    destruct (json_dumps parsed_config) as [dumped|]; [|done].
    injection Hid as <-. apply HashlibFacts.shake_128_hexdigest_4.
  - intros other Heq. unfold compute_build_id. by rewrite Heq.
Qed.

(** C8: the block [with writer(...) as w] runs [finish] once when it is
    left, after a body that returns and after a body that raises alike,
    and passes on the result or the exception of the body; after a body
    that raises, the flush is the flush of the fragments the writer held
    at the failure. *)
Theorem C8_writer_flushes_once cwd module_file {R}
    (bindir objdir : option string) (body : M R) (wd : World) :
  let w := FileWriter_init cwd module_file bindir objdir in
  (∀ r st, body (w, wd) = (Ret r, st) →
     writer cwd module_file bindir objdir body wd
     = (Ret r, (finish st).2.2)
     ∧ finish_count (writer cwd module_file bindir objdir body wd).2
       = S (finish_count st.2))
  ∧ (∀ e st, body (w, wd) = (Raise e, st) →
       writer cwd module_file bindir objdir body wd
       = (Raise e, (finish st).2.2)
       ∧ finish_count (writer cwd module_file bindir objdir body wd).2
         = S (finish_count st.2)
       ∧ (finish st).2.2
         = fold_left (flush_path (fileparts st.1))
             (flush_paths (fileparts st.1)) (log_event Finished st.2)).
Proof.
  cbn zeta. split.
  - intros r st Hbody. unfold writer. rewrite Hbody.
    pose proof (FileWriteFacts.finish_counts st) as Hc.
    destruct (finish st) as [? [? wd']]. by split.
  - intros e st Hbody. unfold writer. rewrite Hbody.
    pose proof (FileWriteFacts.finish_counts st) as Hc.
    destruct st as [self wd1].
    rewrite (FileWriteFacts.finish_as_flush self wd1) in *. by repeat split.
Qed.

(** A body that submits one fragment and then fails. *)
Lemma C8_failing_body_example :
  writer demo_cwd demo_file None None failing_body empty_world
  = (Raise (Exception "generation failed"),
     (finish (failing_body
                (FileWriter_init demo_cwd demo_file None None,
                 empty_world)).2).2.2)
  ∧ finish_count
      (writer demo_cwd demo_file None None failing_body empty_world).2
    = 1.
Proof.
  destruct (C8_writer_flushes_once demo_cwd demo_file None None failing_body
              empty_world) as [_ Hraise].
  destruct (Hraise (Exception "generation failed")
              (failing_body (FileWriter_init demo_cwd demo_file None None,
                             empty_world)).2 eq_refl)
    as (Hwriter & Hcount & _).
  split; [exact Hwriter|]. rewrite Hcount. vm_compute. reflexivity.
Defined.





(* ================================================================= *)
(** * Values checked against Python *)

Example shake_128_of_nothing :
  Hashlib.shake_128_hexdigest (Hashlib.encode_utf8 "") 4 = "7f9c2ba4".
Proof. vm_compute. reflexivity. Qed.

Example shake_128_of_abc :
  Hashlib.shake_128_hexdigest (Hashlib.encode_utf8 "abc") 8
  = "5881092dd818bf5c".
Proof. vm_compute. reflexivity. Qed.

Example build_id_of_demo :
  compute_build_id (H := demo_collaborators) (demo_config [])
  = Some "c3233bd1".
Proof. vm_compute. reflexivity. Qed.

Example splitext_of_paths :
  PosixPath.splitext <$> ["a.h"; ".h"; "dir/.h"; "a.b/c"; "a.tar.gz"]
  = [("a", ".h"); (".h", ""); ("dir/.h", ""); ("a.b/c", "");
     ("a.tar", ".gz")].
Proof. vm_compute. reflexivity. Qed.

Example join_of_paths :
  [PosixPath.join "a" ["b"]; PosixPath.join "a/" ["b"];
   PosixPath.join "a" ["/b"]; PosixPath.join "" ["b"];
   PosixPath.join "a" ["b"; "c"]]
  = ["a/b"; "a/b"; "/b"; "b"; "a/b/c"].
Proof. vm_compute. reflexivity. Qed.

Example normpath_of_paths :
  PosixPath.normpath <$> [""; "a//b"; "/a/../b"; "//a"; "///a"; "a/./b/"; "a/.."]
  = ["."; "a/b"; "/b"; "//a"; "/a"; "a/b"; "."].
Proof. vm_compute. reflexivity. Qed.

Example matching_blocks_of_lists :
  Difflib.get_matching_blocks [1; 2; 3; 4; 5] [1; 2; 9; 3; 4; 5; 7]
  = [(0, 0, 2); (2, 3, 3); (5, 7, 0)].
Proof. vm_compute. reflexivity. Qed.

Example ratio_of_shifted_lists :
  Qeq (Difflib.ratio [1; 1; 1; 4; 5] [5; 1; 1; 1; 4]) (8 # 10).
Proof. vm_compute. reflexivity. Qed.

Example form_feed_splits_a_line :
  Py.splitlines (String "a" (String "012" "b")) = ["a"; "b"]
  ∧ Py.readlines (String "a" (String "012" "b"))
    = [String "a" (String "012" "b")].
Proof. vm_compute. done. Qed.

(** A line with a form feed in it: the file holds one line and
    [splitlines] sees two, so the second flush writes it again. *)
Example form_feed_line_is_written_twice :
  let self :=
    mkFileWriter [("a.txt", Lines [String "a" (String "012" "b")])]
                 None "" None in
  reiterable ("a.txt", Lines [String "a" (String "012" "b")]) = false
  ∧ write_count (finish (self, empty_world)).2.2 = 1
  ∧ write_count (finish (finish (self, empty_world)).2).2.2 = 2.
Proof. vm_compute. done. Qed.

(* ================================================================= *)
(** * More facts about [config/filewrite.py] *)

Module FlushFacts.
Import FileWrite FileWriteInv FileWriteFacts.

(** ** What a flush leaves of the files *)

Lemma write_if_different_kept fname content wd other :
  is_Some (files wd !! other) →
  is_Some (files (write_if_different fname content wd) !! other).
Proof.
  intros Hsome.
  destruct (write_if_different_cases fname content wd) as [-> | ->]; [|done].
  simpl. destruct (decide (fname = other)) as [->|Hne].
  - by rewrite lookup_insert_eq.
  - by rewrite lookup_insert_ne.
Qed.

Lemma write_if_different_exists fname content wd :
  is_Some (files (write_if_different fname content wd) !! fname).
Proof.
  unfold write_if_different.
  destruct (files wd !! fname) as [old|] eqn:Hold.
  - destruct (files_are_different _ _).
    + simpl. by rewrite lookup_insert_eq.
    + by rewrite Hold.
  - simpl. by rewrite lookup_insert_eq.
Qed.

Lemma write_if_different_generators fname content wd :
  generators (write_if_different fname content wd) = generators wd.
Proof.
  by destruct (write_if_different_cases fname content wd) as [-> | ->].
Qed.

Lemma flush_path_kept parts wd fname other :
  is_Some (files wd !! other) →
  is_Some (files (flush_path parts wd fname) !! other).
Proof.
  intros Hsome. unfold flush_path. destruct (drain _ _) as [lines gens].
  by apply write_if_different_kept.
Qed.

Lemma flush_path_exists parts wd fname :
  is_Some (files (flush_path parts wd fname) !! fname).
Proof.
  unfold flush_path. destruct (drain _ _) as [lines gens].
  apply write_if_different_exists.
Qed.

Lemma fold_flush_kept parts paths wd other :
  is_Some (files wd !! other) →
  is_Some (files (fold_left (flush_path parts) paths wd) !! other).
Proof.
  revert wd. induction paths as [|P paths IH]; intros wd Hsome; [done|].
  cbn [fold_left]. by apply IH, flush_path_kept.
Qed.

Lemma fold_flush_exists parts paths wd P :
  P ∈ paths →
  is_Some (files (fold_left (flush_path parts) paths wd) !! P).
Proof.
  revert wd. induction paths as [|Q paths IH]; intros wd HP.
  - by apply elem_of_nil in HP.
  - cbn [fold_left]. apply elem_of_cons in HP as [->|HP].
    + apply fold_flush_kept, flush_path_exists.
    + by apply IH.
Qed.

(** ** The writes of a flush *)

Lemma flush_path_trace parts wd fname :
  trace (flush_path parts wd fname) = trace wd
  ∨ trace (flush_path parts wd fname) = trace wd ++ [Wrote fname].
Proof.
  unfold flush_path. destruct (drain _ _) as [lines gens].
  destruct (write_if_different_cases fname (Py.join NL (banner_for fname ++ lines))
              (set_generators gens wd)) as [-> | ->]; [by right|by left].
Qed.

Lemma fold_flush_trace parts paths wd :
  ∃ written,
    written `sublist_of` paths
    ∧ trace (fold_left (flush_path parts) paths wd)
      = trace wd ++ (Wrote <$> written).
Proof.
  revert wd. induction paths as [|P paths IH]; intros wd.
  - exists []. split; [done|]. simpl. by rewrite app_nil_r.
  - cbn [fold_left].
    destruct (IH (flush_path parts wd P)) as (written & Hsub & ->).
    destruct (flush_path_trace parts wd P) as [-> | ->].
    + exists written. split; [by apply sublist_cons|done].
    + exists (P :: written). split; [by apply sublist_skip|].
      by rewrite <- app_assoc.
Qed.

Lemma write_count_app (tr : list event) (written : list string) :
  length (filter (λ e, e ≠ Finished) (tr ++ Finished :: (Wrote <$> written)))
  = length (filter (λ e, e ≠ Finished) tr) + length written.
Proof.
  rewrite filter_app, length_app. f_equal.
  rewrite filter_cons_False by (intros Hne; by apply Hne).
  induction written as [|P written IH]; [done|].
  rewrite fmap_cons, filter_cons_True by done. simpl. by rewrite IH.
Qed.

(** ** The generators of a flush *)

Lemma iterate_spent_kept ls gens g :
  spent gens g → spent (iterate ls gens).2 g.
Proof.
  unfold spent. destruct ls as [lines|g']; [done|]. simpl. intros Hg.
  destruct (decide (g' = g)) as [->|Hne].
  - destruct (decide (g < length gens)) as [Hlt|Hge].
    + by rewrite list_lookup_insert_eq.
    + by rewrite list_insert_ge by lia.
  - by rewrite list_lookup_insert_ne.
Qed.

Lemma iterate_spends g gens : spent (iterate (Generator g) gens).2 g.
Proof.
  unfold spent. simpl. destruct (decide (g < length gens)) as [Hlt|Hge].
  - by rewrite list_lookup_insert_eq.
  - rewrite list_insert_ge by lia. by rewrite lookup_ge_None_2 by lia.
Qed.

Lemma drain_spent_kept fcontents gens g :
  spent gens g → spent (drain fcontents gens).2 g.
Proof.
  revert gens. induction fcontents as [|f fs IH]; intros gens Hg; [done|].
  cbn [drain].
  destruct (iterate f.2 gens) as [lines gens1] eqn:Hit.
  destruct (drain fs gens1) as [more gens2] eqn:Hdr. cbn [snd].
  change gens2 with (more, gens2).2. rewrite <- Hdr. apply IH.
  change gens1 with (lines, gens1).2. rewrite <- Hit.
  by apply iterate_spent_kept.
Qed.

Lemma drain_spends fcontents gens P g :
  (P, Generator g) ∈ fcontents → spent (drain fcontents gens).2 g.
Proof.
  revert gens. induction fcontents as [|f fs IH]; intros gens Hin.
  - by apply elem_of_nil in Hin.
  - cbn [drain].
    destruct (iterate f.2 gens) as [lines gens1] eqn:Hit.
    destruct (drain fs gens1) as [more gens2] eqn:Hdr. cbn [snd].
    change gens2 with (more, gens2).2. rewrite <- Hdr.
    apply elem_of_cons in Hin as [<-|Hin].
    + apply drain_spent_kept.
      change gens1 with (lines, gens1).2. rewrite <- Hit.
      apply iterate_spends.
    + by apply IH.
Qed.

Lemma flush_path_generators parts wd fname :
  generators (flush_path parts wd fname)
  = (drain (group_of fname parts) (generators wd)).2.
Proof.
  unfold flush_path. destruct (drain _ _) as [lines gens].
  by rewrite write_if_different_generators.
Qed.

Lemma fold_flush_spent_kept parts paths wd g :
  spent (generators wd) g →
  spent (generators (fold_left (flush_path parts) paths wd)) g.
Proof.
  revert wd. induction paths as [|P paths IH]; intros wd Hg; [done|].
  cbn [fold_left]. apply IH. rewrite flush_path_generators.
  by apply drain_spent_kept.
Qed.

Lemma fold_flush_spends parts paths wd P g :
  P ∈ paths → (P, Generator g) ∈ parts →
  spent (generators (fold_left (flush_path parts) paths wd)) g.
Proof.
  revert wd. induction paths as [|Q paths IH]; intros wd HP Hin.
  - by apply elem_of_nil in HP.
  - cbn [fold_left]. apply elem_of_cons in HP as [<-|HP].
    + apply fold_flush_spent_kept. rewrite flush_path_generators.
      apply drain_spends with P. unfold group_of.
      by apply list_elem_of_filter.
    + by apply IH.
Qed.

(** ** Fragments with generators of their own *)

Lemma generators_of_cons f fs :
  generators_of (f :: fs) = generators_of [f] ++ generators_of fs.
Proof. unfold generators_of. simpl. by destruct f.2. Qed.

Lemma generators_of_elem g parts :
  g ∈ generators_of parts ↔ ∃ P, (P, Generator g) ∈ parts.
Proof.
  unfold generators_of. rewrite list_elem_of_omap. split.
  - intros ([P ls] & Hin & Hg). simpl in Hg. destruct ls as [|g']; [done|].
    injection Hg as ->. by exists P.
  - intros [P Hin]. by exists (P, Generator g).
Qed.

Lemma generators_of_group_sublist P parts :
  generators_of (group_of P parts) `sublist_of` generators_of parts.
Proof.
  unfold group_of. induction parts as [|f fs IH]; [done|].
  rewrite filter_cons. destruct (decide (f.1 = P)).
  - rewrite (generators_of_cons f fs), (generators_of_cons f (filter _ fs)).
    by apply sublist_app.
  - rewrite (generators_of_cons f fs). by apply sublist_inserts_l.
Qed.

(** Two fragments with the generator [g] are one fragment. *)
Lemma generators_of_NoDup_inj parts P Q g :
  NoDup (generators_of parts) →
  (P, Generator g) ∈ parts → (Q, Generator g) ∈ parts → P = Q.
Proof.
  induction parts as [|f fs IH]; intros Hnodup HP HQ.
  - by apply elem_of_nil in HP.
  - rewrite generators_of_cons in Hnodup.
    apply NoDup_app in Hnodup as (_ & Hdisj & Hfs).
    apply elem_of_cons in HP as [HP|HP]; apply elem_of_cons in HQ as [HQ|HQ].
    + congruence.
    + subst f. exfalso. apply (Hdisj g).
      * unfold generators_of. simpl. by left.
      * apply generators_of_elem. by exists Q.
    + subst f. exfalso. apply (Hdisj g).
      * unfold generators_of. simpl. by left.
      * apply generators_of_elem. by exists P.
    + by apply IH.
Qed.

Lemma generators_of_groups_disjoint parts P Q g :
  NoDup (generators_of parts) → P ≠ Q →
  g ∈ generators_of (group_of P parts) →
  g ∉ generators_of (group_of Q parts).
Proof.
  intros Hnodup Hne [P' HP]%generators_of_elem [Q' HQ]%generators_of_elem.
  unfold group_of in HP, HQ.
  apply list_elem_of_filter in HP as [HP1 HP].
  apply list_elem_of_filter in HQ as [HQ1 HQ].
  simpl in HP1, HQ1. subst P' Q'.
  by apply Hne, (generators_of_NoDup_inj parts P Q g).
Qed.

Lemma iterate_untouched (f : string * line_seq) gens g :
  g ∉ generators_of [f] → (iterate f.2 gens).2 !! g = gens !! g.
Proof.
  unfold generators_of. simpl. destruct f.2 as [lines|g']; [done|].
  intros Hg. simpl. apply list_lookup_insert_ne. intros ->. apply Hg. by left.
Qed.

Lemma drain_untouched fcontents gens g :
  g ∉ generators_of fcontents → (drain fcontents gens).2 !! g = gens !! g.
Proof.
  revert gens. induction fcontents as [|f fs IH]; intros gens Hg; [done|].
  rewrite generators_of_cons in Hg. cbn [drain].
  destruct (iterate f.2 gens) as [lines gens1] eqn:Hit.
  destruct (drain fs gens1) as [more gens2] eqn:Hdr. cbn [snd].
  change gens2 with (more, gens2).2. rewrite <- Hdr.
  rewrite IH by (intros ?; apply Hg, elem_of_app; by right).
  change gens1 with (lines, gens1).2. rewrite <- Hit.
  apply iterate_untouched. intros ?; apply Hg, elem_of_app; by left.
Qed.

Lemma pending_agree f gens1 gens2 :
  agree_on (generators_of [f]) gens1 gens2 → pending gens1 f = pending gens2 f.
Proof.
  unfold agree_on, pending, generators_of. simpl.
  destruct f.2 as [lines|g]; [done|]. intros Hag. simpl.
  by rewrite (Hag g) by (by left).
Qed.

Lemma pending_agree_all fcontents gens1 gens2 :
  agree_on (generators_of fcontents) gens1 gens2 →
  pending gens1 <$> fcontents = pending gens2 <$> fcontents.
Proof.
  induction fcontents as [|f fs IH]; intros Hag; [done|].
  rewrite generators_of_cons in Hag. rewrite !fmap_cons. f_equal.
  - apply pending_agree. intros g Hg. apply Hag, elem_of_app. by left.
  - apply IH. intros g Hg. apply Hag, elem_of_app. by right.
Qed.

(** Fragments that share no generator yield, one after the other, what
    each of them has pending at the start. *)
Lemma drain_lines fcontents gens :
  NoDup (generators_of fcontents) →
  (drain fcontents gens).1 = mjoin (pending gens <$> fcontents).
Proof.
  revert gens. induction fcontents as [|f fs IH]; intros gens Hnodup; [done|].
  rewrite generators_of_cons in Hnodup.
  apply NoDup_app in Hnodup as (_ & Hdisj & Hfs).
  cbn [drain].
  destruct (iterate f.2 gens) as [lines gens1] eqn:Hit.
  destruct (drain fs gens1) as [more gens2] eqn:Hdr. cbn [fst].
  rewrite fmap_cons.
  change (mjoin (pending gens f :: (pending gens <$> fs)))
    with (pending gens f ++ mjoin (pending gens <$> fs)).
  unfold pending at 1. rewrite Hit. cbn [fst]. f_equal.
  change more with (more, gens2).1. rewrite <- Hdr, IH by done. f_equal.
  apply pending_agree_all. intros g Hg.
  change gens1 with (lines, gens1).2. rewrite <- Hit.
  apply iterate_untouched. intros Hgf. by apply (Hdisj g).
Qed.

Lemma fold_flush_agree parts paths wd P :
  NoDup (generators_of parts) → P ∉ paths →
  agree_on (generators_of (group_of P parts))
           (generators (fold_left (flush_path parts) paths wd))
           (generators wd).
Proof.
  intros Hnodup. revert wd.
  induction paths as [|Q paths IH]; intros wd HP g Hg; [done|].
  cbn [fold_left]. rewrite IH by (try done; intros ?; apply HP; by right).
  rewrite flush_path_generators. apply drain_untouched.
  apply generators_of_groups_disjoint with P; [done| |done].
  intros ->. apply HP. by left.
Qed.

(** The file of a path that did not exist holds, after the flush, the
    banner of the path and then what its fragments had pending, when no
    two fragments of the writer share a generator. *)
Lemma finish_content self wd P :
  NoDup (generators_of (fileparts self)) →
  P ∈ (fileparts self).*1 → files wd !! P = None →
  files (finish (self, wd)).2.2 !! P
  = Some (Py.join NL
            (banner_for P
             ++ mjoin (pending (generators wd)
                         <$> group_of P (fileparts self)))).
Proof.
  intros Hgens HP Hnone.
  destruct (groups_of_fileparts (fileparts self)) as (Hsorted & Hpaths & _).
  rewrite finish_as_flush. cbn [snd]. apply Hpaths in HP.
  apply strict_sorted_NoDup in Hsorted.
  apply list_elem_of_split in HP as (before & after & Heq).
  rewrite Heq in Hsorted |- *.
  apply NoDup_app in Hsorted as (_ & Hbefore & Hafter).
  apply NoDup_cons in Hafter as [Hafter _].
  assert (P ∉ before) as HPb by (intros Hin; by apply (Hbefore P Hin); left).
  rewrite fold_left_app. cbn [fold_left].
  rewrite fold_flush_other by done.
  set (wd1 := fold_left (flush_path (fileparts self)) before
                        (log_event Finished wd)).
  unfold flush_path.
  pose proof (drain_lines (group_of P (fileparts self)) (generators wd1))
    as Hlines.
  destruct (drain _ _) as [lines gens]. cbn [fst] in Hlines.
  rewrite Hlines.
  2:{ eapply sublist_NoDup; [exact Hgens|].
      apply generators_of_group_sublist. }
  rewrite write_if_different_absent.
  - do 4 f_equal. apply pending_agree_all.
    subst wd1.
    change (generators wd) with (generators (log_event Finished wd)).
    by apply fold_flush_agree.
  - simpl. subst wd1. by rewrite fold_flush_other.
Qed.

Lemma group_of_absent P parts : P ∉ parts.*1 → group_of P parts = [].
Proof.
  intros HP. unfold group_of. induction parts as [|f fs IH]; [done|].
  rewrite fmap_cons in HP. apply not_elem_of_cons in HP as [Hne HP].
  rewrite filter_cons, decide_False by done. by apply IH.
Qed.

(** A path with one fragment, a generator no other fragment shares. *)
Lemma finish_single self wd P g before after :
  fileparts self = before ++ (P, Generator g) :: after →
  P ∉ before.*1 → P ∉ after.*1 →
  NoDup (generators_of (fileparts self)) → files wd !! P = None →
  files (finish (self, wd)).2.2 !! P
  = Some (Py.join NL (banner_for P ++ default [] (generators wd !! g))).
Proof.
  intros Hparts Hbefore Hafter Hnodup Hnone.
  rewrite finish_content; [|done| |done].
  2:{ rewrite Hparts, fmap_app, fmap_cons. apply elem_of_app. right. by left. }
  rewrite Hparts. unfold group_of at 1. rewrite filter_app, filter_cons.
  rewrite decide_True by done.
  fold (group_of P before). fold (group_of P after).
  rewrite !group_of_absent by done. simpl. by rewrite app_nil_r.
Qed.

Lemma finish_untouched self wd P :
  P ∉ (fileparts self).*1 →
  files (finish (self, wd)).2.2 !! P = files wd !! P.
Proof.
  intros HP.
  destruct (groups_of_fileparts (fileparts self)) as (_ & Hpaths & _).
  rewrite finish_as_flush. cbn [snd].
  rewrite fold_flush_other; [done|].
  intros Hin. by apply HP, Hpaths.
Qed.

(** After a flush of lists of plain lines, the file of every fragment
    reads back as the content made for its path. *)
Lemma finish_settles self wd P :
  forallb reiterable (fileparts self) = true → P ∈ (fileparts self).*1 →
  settled (content_of (fileparts self) P) (finish (self, wd)).2.2 P.
Proof.
  intros Hparts HP.
  destruct (groups_of_fileparts (fileparts self)) as (Hsorted & Hpaths & _).
  apply strict_sorted_NoDup in Hsorted.
  rewrite finish_as_flush. cbn [snd].
  pose proof (fold_flush_settles (fileparts self) (flush_paths (fileparts self))
                (log_event Finished wd) Hparts Hsorted) as Hall.
  rewrite Forall_forall in Hall. by apply Hall, Hpaths.
Qed.

Lemma sublist_sorted {A} (R : relation A) (l1 l2 : list A) :
  l1 `sublist_of` l2 → StronglySorted R l2 → StronglySorted R l1.
Proof.
  induction 1 as [|x l1 l2 Hsub IH|x l1 l2 Hsub IH]; intros Hsorted.
  - constructor.
  - apply StronglySorted_inv in Hsorted as [Hl2 Hall].
    constructor; [by apply IH|].
    rewrite Forall_forall in Hall |- *. intros y Hy.
    apply Hall. by apply elem_of_sublist with l1.
  - apply StronglySorted_inv in Hsorted as [Hl2 _]. by apply IH.
Qed.

End FlushFacts.

Module WriteFilesFacts.
Import FileWrite FileWriteInv FileWriteFacts.

(** ** Methods that only collect *)

Lemma collects_refl st : collects st st.
Proof. by repeat split. Qed.

Lemma collects_trans st1 st2 st3 :
  collects st1 st2 → collects st2 st3 → collects st1 st3.
Proof.
  intros (Hf1 & Ht1 & Hp1 & Hg1 & Hb1 & Hc1 & Ho1)
         (Hf2 & Ht2 & Hp2 & Hg2 & Hb2 & Hc2 & Ho2).
  split; [congruence|]. split; [congruence|].
  split; [by etrans|]. split; [by etrans|].
  split; [congruence|]. split; congruence.
Qed.

Lemma collecting_ret {R} (r : R) : collecting (ret r).
Proof. intros st. apply collects_refl. Qed.

Lemma collecting_raise {R} (e : exn) : collecting (@raise R e).
Proof. intros st. apply collects_refl. Qed.

Lemma collecting_get_self : collecting get_self.
Proof. intros st. apply collects_refl. Qed.

Lemma collecting_fspath x : collecting (fspath x).
Proof. destruct x; [apply collecting_ret|apply collecting_raise]. Qed.

Lemma collecting_append part : collecting (append part).
Proof.
  intros [self wd]. unfold collects. simpl.
  split; [done|]. split; [done|].
  split; [by apply prefix_app_r|]. done.
Qed.

Lemma collecting_new_generator lines : collecting (new_generator lines).
Proof.
  intros [self wd]. unfold collects. simpl.
  split; [done|]. split; [done|]. split; [done|].
  split; [by apply prefix_app_r|]. done.
Qed.

Lemma collecting_bind {R S} (m : M R) (k : R → M S) :
  collecting m → (∀ r, collecting (k r)) → collecting (mbind k m).
Proof.
  intros Hm Hk st. unfold mbind, M_bind, bind.
  specialize (Hm st). destruct (m st) as [[r|e] st']; [|done].
  eapply collects_trans; [exact Hm|]. apply Hk.
Qed.

Local Tactic Notation "collecting_step" :=
  lazymatch goal with
  | |- collecting (mbind _ _) => apply collecting_bind; [|intros ?]
  | |- collecting (new_generator _) => apply collecting_new_generator
  | |- collecting (append _) => apply collecting_append
  | |- collecting (fspath _) => apply collecting_fspath
  | |- collecting (ret _) => apply collecting_ret
  | |- collecting (mret _) => apply collecting_ret
  | |- collecting (raise _) => apply collecting_raise
  | |- collecting get_self => apply collecting_get_self
  end.

Section Process.
Variables (cwd module_file : string).
Context {Elements ModuleInfo ConfigFile Env : Type}.
Context {collaborators : @Collaborators Elements ModuleInfo ConfigFile Env}.

Lemma collecting_extend_module_parts inc_dir ms :
  collecting (extend_module_parts inc_dir ms).
Proof.
  induction ms as [|m ms IH]; [apply collecting_ret|].
  cbn [extend_module_parts]. repeat collecting_step. exact IH.
Qed.

Lemma collecting_write_files (parsed_config : ParsedConfig)
    (bindir_name : option string) (srcdir_names : option (list string))
    (objdir_name : option string) :
  collecting (write_files cwd module_file parsed_config bindir_name
                          srcdir_names objdir_name).
Proof.
  unfold write_files.
  apply collecting_bind; [apply collecting_get_self|intros self]. cbv zeta.
  apply collecting_bind;
    [destruct (compute_build_id parsed_config);
       [apply collecting_ret|apply collecting_raise]|intros build_id].
  apply collecting_bind; [apply collecting_fspath|intros objdir].
  repeat collecting_step.
  apply collecting_extend_module_parts.
Qed.

(** ** What an invocation appends *)

Lemma submit_cons inc_dir n0 f fs :
  submit inc_dir n0 (f :: fs)
  = (PosixPath.join inc_dir [f.1], Generator n0) :: submit inc_dir (S n0) fs.
Proof.
  unfold submit. rewrite imap_cons. f_equal; [by rewrite Nat.add_0_r|].
  apply imap_ext. intros i x _. simpl. do 2 f_equal. lia.
Qed.

Lemma submit_app inc_dir n0 fs1 fs2 :
  submit inc_dir n0 (fs1 ++ fs2)
  = submit inc_dir n0 fs1 ++ submit inc_dir (n0 + length fs1) fs2.
Proof.
  revert n0. induction fs1 as [|f fs1 IH]; intros n0.
  - simpl. by rewrite Nat.add_0_r.
  - change ((f :: fs1) ++ fs2) with (f :: (fs1 ++ fs2)).
    rewrite !submit_cons, IH. simpl. do 3 f_equal. lia.
Qed.

Lemma extend_module_parts_effect inc_dir (ms : list ModuleEntry) self wd :
  extend_module_parts inc_dir ms (self, wd)
  = (Ret (),
     (with_fileparts self
        (fileparts self
         ++ submit inc_dir (length (generators wd)) (module_file_of <$> ms)),
      set_generators (generators wd ++ (module_file_of <$> ms).*2) wd)).
Proof.
  revert self wd. induction ms as [|m ms IH]; intros self wd.
  - simpl. rewrite !app_nil_r. by destruct self, wd.
  - cbn [extend_module_parts].
    rewrite bind_new_generator_step, bind_append_step, IH.
    rewrite !fmap_cons, submit_cons. unfold with_fileparts, set_generators.
    cbn [fileparts bindir_name core_sources objdir_name files generators trace
         fst snd module_file_of].
    rewrite <- !app_assoc, length_app. simpl.
    by rewrite Nat.add_1_r.
Qed.

(** The state an invocation leaves, with a build identifier and an
    object directory: without a binary directory it raises after the
    fragments of the include directory. *)
Lemma write_files_effect (parsed_config : ParsedConfig)
    (bindir_name : option string) (srcdir_names : option (list string))
    (objdir_name : option string) (self : FileWriter) (wd : World)
    (build_id objdir : string) :
  compute_build_id parsed_config = Some build_id →
  py_or objdir_name (FileWrite.objdir_name self) = Some objdir →
  let inc_dir :=
    PosixPath.join (PosixPath.abspath cwd objdir) [build_id; "inc"] in
  let n0 := length (generators wd) in
  let fs := include_files parsed_config in
  write_files cwd module_file parsed_config bindir_name srcdir_names
              objdir_name (self, wd)
  = match py_or bindir_name (FileWrite.bindir_name self) with
    | Some bindir =>
        (Ret (),
         (with_fileparts self
            (fileparts self ++ submit inc_dir n0 fs
             ++ [(makefile_file_name cwd module_file,
                  Generator (n0 + length fs))]),
          set_generators
            (generators wd ++ fs.*2
             ++ [makefile_lines parsed_config objdir build_id bindir
                   srcdir_names (core_sources self)]) wd))
    | None =>
        (Raise TypeError,
         (with_fileparts self (fileparts self ++ submit inc_dir n0 fs),
          set_generators (generators wd ++ fs.*2) wd))
    end.
Proof.
  intros Hid Hobj inc_dir n0 fs.
  unfold write_files. rewrite bind_get_self_step. cbn [fst].
  rewrite Hid, bind_ret_step, Hobj. cbn [fspath]. rewrite bind_ret_step.
  fold inc_dir.
  repeat (rewrite ?bind_new_generator_step, ?bind_append_step;
          cbn [fileparts generators set_generators
               FileWrite.bindir_name core_sources FileWrite.objdir_name]).
  match goal with
  | |- context [mbind _ (extend_module_parts _ ?ms) (?w, ?d)] =>
      rewrite (bind_result_step _ _ _ _ _
                 (extend_module_parts_effect inc_dir ms w d))
  end.
  unfold with_fileparts, set_generators.
  cbn [fileparts generators files trace
       FileWrite.bindir_name core_sources FileWrite.objdir_name].
  subst fs. unfold include_files.
  rewrite submit_app, !submit_cons. cbn [length fst snd].
  rewrite !fmap_app, !fmap_cons. cbn [fst snd fmap list_fmap].
  rewrite !length_app. cbn [length].
  destruct (py_or bindir_name (FileWrite.bindir_name self)) as [bindir|];
    cbn [fspath].
  - rewrite bind_ret_step, bind_new_generator_step. unfold append.
    cbn [fst snd fileparts generators set_generators files trace
         FileWrite.bindir_name core_sources FileWrite.objdir_name].
    rewrite !length_app, !length_fmap. cbn [length].
    unfold makefile_lines. subst n0.
    set (n := length (generators wd)).
    rewrite <- !app_assoc. cbn [app]. rewrite !Nat.add_1_r.
    change (submit inc_dir (S (S (S (S (S (S n)))))) [])
      with (@nil (string * line_seq)). cbn [app].
    replace (n + 6) with (S (S (S (S (S (S n)))))) by lia.
    match goal with
    | |- context [Generator (n + (6 + ?len))] =>
        replace (n + (6 + len)) with (S (S (S (S (S (S n))))) + len) by lia
    end.
    reflexivity.
  - rewrite bind_raise_step. subst n0.
    set (n := length (generators wd)).
    rewrite <- !app_assoc. cbn [app]. rewrite !Nat.add_1_r.
    change (submit inc_dir (S (S (S (S (S (S n)))))) [])
      with (@nil (string * line_seq)). cbn [app].
    replace (n + 6) with (S (S (S (S (S (S n)))))) by lia.
    reflexivity.
Qed.

End Process.

End WriteFilesFacts.

Module NameFacts.
Import PosixPath PosixPathInv FileWrite FileWriteInv.

(** ** Strings *)

Lemma append_assoc (a b c : string) : (a +:+ b) +:+ c = a +:+ (b +:+ c).
Proof.
  induction a as [|x a IH]; [done|].
  change ((String x a +:+ b) +:+ c) with (String x ((a +:+ b) +:+ c)).
  change (String x a +:+ (b +:+ c)) with (String x (a +:+ (b +:+ c))).
  by rewrite IH.
Qed.

Lemma length_append (a b : string) :
  String.length (a +:+ b) = String.length a + String.length b.
Proof.
  induction a as [|x a IH]; [done|].
  change (S (String.length (a +:+ b)) = S (String.length a + String.length b)).
  by rewrite IH.
Qed.

Lemma substring_all (b : string) : String.substring 0 (String.length b) b = b.
Proof. induction b as [|x b IH]; [done|]. simpl. by rewrite IH. Qed.

Lemma substring_prefix (a b : string) :
  String.substring 0 (String.length a) (a +:+ b) = a.
Proof.
  induction a as [|x a IH]; [by destruct b|].
  change (String x a +:+ b) with (String x (a +:+ b)). simpl. by rewrite IH.
Qed.

Lemma substring_skip (a b : string) (n : nat) :
  String.substring (String.length a) n (a +:+ b) = String.substring 0 n b.
Proof. induction a as [|x a IH]; [done|]. exact IH. Qed.

Lemma occurs_append (c : ascii) (a b : string) :
  occurs c (a +:+ b) = occurs c a || occurs c b.
Proof.
  induction a as [|x a IH]; [done|].
  change (String x a +:+ b) with (String x (a +:+ b)).
  cbn [occurs]. by rewrite IH, orb_assoc.
Qed.

(** ** [rfind] *)

Lemma rfind_from_range (i : Z) (c : ascii) (s : string) :
  (0 ≤ i)%Z →
  rfind_from i c s = (-1)%Z
  ∨ (i ≤ rfind_from i c s < i + Z.of_nat (String.length s))%Z.
Proof.
  revert i. induction s as [|a r IH]; intros i Hi; [by left|].
  cbn [rfind_from String.length].
  destruct (IH (i + 1)%Z ltac:(lia)) as [-> | Hk].
  - simpl. destruct (Ascii.eqb a c); [right; lia|by left].
  - destruct (Z.leb_spec 0 (rfind_from (i + 1) c r)); [right|]; lia.
Qed.

Lemma rfind_from_absent (i : Z) (c : ascii) (s : string) :
  occurs c s = false → rfind_from i c s = (-1)%Z.
Proof.
  revert i. induction s as [|a r IH]; intros i; [done|].
  cbn [occurs rfind_from]. intros [Ha Hr]%orb_false_iff.
  by rewrite IH, Ha.
Qed.

Lemma rfind_from_append (i : Z) (c : ascii) (s1 s2 : string) :
  (0 ≤ i)%Z →
  rfind_from i c (s1 +:+ s2)
  = if (0 <=? rfind_from (i + Z.of_nat (String.length s1)) c s2)%Z
    then rfind_from (i + Z.of_nat (String.length s1)) c s2
    else rfind_from i c s1.
Proof.
  revert i. induction s1 as [|a r IH]; intros i Hi.
  - change (EmptyString +:+ s2) with s2. simpl. rewrite Z.add_0_r.
    destruct (rfind_from_range i c s2 Hi) as [-> | Hk]; [done|].
    by destruct (Z.leb_spec 0 (rfind_from i c s2)); [|lia].
  - change (String a r +:+ s2) with (String a (r +:+ s2)).
    cbn [rfind_from String.length]. rewrite IH by lia.
    replace (i + 1 + Z.of_nat (String.length r))%Z
      with (i + Z.of_nat (S (String.length r)))%Z by lia.
    destruct (0 <=? rfind_from (i + Z.of_nat (S (String.length r))) c s2)%Z
      eqn:Hk; [by rewrite Hk|done].
Qed.

Lemma rfind_from_head (i : Z) (c : ascii) (s : string) :
  (0 ≤ i)%Z → occurs c s = false → rfind_from i c (String c s) = i.
Proof.
  intros Hi Hs. cbn [rfind_from]. rewrite rfind_from_absent by done.
  simpl. by rewrite Ascii.eqb_refl.
Qed.

Lemma rfind_from_last (i : Z) (c : ascii) (s : string) :
  (0 ≤ i)%Z → last_char s = Some c →
  rfind_from i c s = (i + Z.of_nat (String.length s) - 1)%Z.
Proof.
  revert i. induction s as [|a r IH]; intros i Hi; [done|].
  cbn [last_char rfind_from String.length].
  destruct (last_char r) as [c'|] eqn:Hr.
  - intros [= ->]. rewrite IH by (done || lia).
    destruct (Z.leb_spec 0 (i + 1 + Z.of_nat (String.length r) - 1)); lia.
  - intros [= ->]. destruct r as [|a' r'].
    + simpl. rewrite Ascii.eqb_refl. lia.
    + simpl in Hr. by destruct (last_char r').
Qed.

(** The separator that ends the directories is the last one of the
    path, when the file name holds none. *)
Lemma rfind_sep_prefix (d : string) :
  dir_prefix d → rfind sep d = (Z.of_nat (String.length d) - 1)%Z.
Proof.
  intros [-> | Hlast]; [done|].
  unfold rfind. rewrite (rfind_from_last 0 sep d) by done. lia.
Qed.

(** ** [splitext] on a path that ends with a file name *)

Lemma is_stem_inv (stem : string) :
  is_stem stem = true →
  ∃ c r, stem = String c r ∧ c ≠ extsep ∧ occurs sep stem = false.
Proof.
  destruct stem as [|c r]; [done|]. cbn [is_stem].
  intros [Hc Hs]%andb_true_iff. exists c, r. split; [done|].
  apply negb_true_iff in Hc, Hs. split; [|done].
  by apply Ascii.eqb_neq.
Qed.

Lemma splitext_named (d stem e : string) :
  dir_prefix d → is_stem stem = true → is_suffix e = true →
  splitext (d +:+ stem +:+ String extsep e)
  = (d +:+ stem, String extsep e).
Proof.
  intros Hd Hstem Hsuf.
  destruct (is_stem_inv stem Hstem) as (c & r & Hcr & Hc & Hsep).
  apply andb_true_iff in Hsuf as [He1 He2].
  apply negb_true_iff in He1, He2.
  unfold splitext.
  assert (rfind sep (d +:+ stem +:+ String extsep e)
          = (Z.of_nat (String.length d) - 1)%Z) as ->.
  { unfold rfind. rewrite rfind_from_append by done.
    rewrite (rfind_from_absent _ sep (stem +:+ String extsep e)).
    - simpl. by apply rfind_sep_prefix.
    - rewrite occurs_append, Hsep. cbn [occurs]. by rewrite He1. }
  assert (rfind extsep (d +:+ stem +:+ String extsep e)
          = Z.of_nat (String.length d + String.length stem)) as ->.
  { unfold rfind. rewrite rfind_from_append by done.
    rewrite (rfind_from_append _ extsep stem) by lia.
    rewrite rfind_from_head by (done || lia).
    assert ((0 <=? 0 + Z.of_nat (String.length d)
                   + Z.of_nat (String.length stem))%Z = true) as Hle
      by (apply Z.leb_le; lia).
    rewrite Hle. cbv iota. rewrite Hle. lia. }
  assert (1 ≤ String.length stem) as Hlen by (rewrite Hcr; simpl; lia).
  destruct (Z.ltb_spec (Z.of_nat (String.length d) - 1)
              (Z.of_nat (String.length d + String.length stem))); [|lia].
  replace (Z.of_nat (String.length d) - 1 + 1)%Z
    with (Z.of_nat (String.length d)) by lia.
  replace (Z.to_nat (Z.of_nat (String.length d + String.length stem)
                     - Z.of_nat (String.length d)))
    with (S (String.length stem - 1)) by lia.
  cbn [skip_leading_dots].
  destruct (Z.ltb_spec (Z.of_nat (String.length d))
              (Z.of_nat (String.length d + String.length stem))); [|lia].
  unfold char_at. rewrite Nat2Z.id, substring_skip, Hcr.
  change (String.substring 0 1 (String c r +:+ String extsep e))
    with (String c (String.substring 0 0 (r +:+ String extsep e))).
  assert (String.substring 0 0 (r +:+ String extsep e) = EmptyString) as ->
    by (by destruct (r +:+ String extsep e)).
  assert (String.eqb (String c EmptyString) (String extsep EmptyString)
          = false) as ->.
  { apply String.eqb_neq. by intros [= ->]. }
  rewrite <- Hcr. unfold slice_to, slice_from. rewrite Nat2Z.id.
  rewrite <- append_assoc, <- length_append.
  rewrite substring_prefix, substring_skip.
  rewrite (length_append (d +:+ stem)).
  replace (String.length (d +:+ stem) + String.length (String extsep e)
           - String.length (d +:+ stem))
    with (String.length (String extsep e)) by lia.
  by rewrite substring_all.
Qed.

(** A file name that is a dot and then a suffix has no extension. *)
Lemma splitext_hidden (d e : string) :
  dir_prefix d → is_suffix e = true →
  splitext (d +:+ String extsep e) = (d +:+ String extsep e, EmptyString).
Proof.
  intros Hd Hsuf.
  apply andb_true_iff in Hsuf as [He1 He2].
  apply negb_true_iff in He1, He2.
  unfold splitext.
  assert (rfind sep (d +:+ String extsep e)
          = (Z.of_nat (String.length d) - 1)%Z) as ->.
  { unfold rfind. rewrite rfind_from_append by done.
    rewrite (rfind_from_absent _ sep (String extsep e)).
    - simpl. by apply rfind_sep_prefix.
    - cbn [occurs]. by rewrite He1. }
  assert (rfind extsep (d +:+ String extsep e)
          = Z.of_nat (String.length d)) as ->.
  { unfold rfind. rewrite rfind_from_append by done.
    rewrite rfind_from_head by (done || lia).
    assert ((0 <=? 0 + Z.of_nat (String.length d))%Z = true) as Hle
      by (apply Z.leb_le; lia).
    rewrite Hle. lia. }
  destruct (Z.ltb_spec (Z.of_nat (String.length d) - 1)
              (Z.of_nat (String.length d))); [|lia].
  replace (Z.to_nat (Z.of_nat (String.length d)
                     - (Z.of_nat (String.length d) - 1 + 1))) with 0 by lia.
  done.
Qed.

(** ** Banners by file name *)

Lemma banner_for_ext (p root e : string) :
  splitext p = (root, String extsep e) → banner_for p = banner_of_suffix e.
Proof.
  intros Hsplit. unfold banner_for, banner_of_suffix. rewrite Hsplit.
  cbn [snd].
  destruct (decide (e ∈ ["cc"; "h"; "inc"])) as [He|He].
  - rewrite (bool_decide_eq_true_2 (e ∈ _)) by done.
    rewrite bool_decide_eq_true_2; [done|].
    rewrite !elem_of_cons, elem_of_nil in He.
    destruct He as [->|[->|[->|[]]]]; tauto.
  - rewrite (bool_decide_eq_false_2 (e ∈ _)) by done.
    rewrite bool_decide_eq_false_2.
    2:{ intros Hor. apply He. rewrite !elem_of_cons.
        destruct Hor as [[= ->]|[[= ->]|[= ->]]]; tauto. }
    destruct (decide (e = "mk")) as [->|Hmk].
    + by rewrite !bool_decide_eq_true_2.
    + rewrite !bool_decide_eq_false_2; [done|done|]. by intros [= ->].
Qed.

Lemma banner_for_named (d stem e : string) :
  dir_prefix d → is_stem stem = true → is_suffix e = true →
  banner_for (d +:+ stem +:+ String extsep e) = banner_of_suffix e.
Proof.
  intros Hd Hstem Hsuf.
  by apply banner_for_ext with (d +:+ stem), splitext_named.
Qed.

(** ** [join] with a relative name *)

Lemma endswith_sep_last (s : string) :
  Py.endswith s (String sep EmptyString) = true → last_char s = Some sep.
Proof.
  induction s as [|a r IH]; [done|].
  cbn [Py.endswith last_char]. intros [Heq|Hr]%orb_true_iff.
  - apply String.eqb_eq in Heq. by injection Heq as -> ->.
  - by rewrite IH.
Qed.

Lemma as_prefix_dir (path : string) : dir_prefix (as_prefix path).
Proof.
  unfold as_prefix, dir_prefix.
  destruct (String.eqb path EmptyString); [by left|].
  destruct (Py.endswith path _) eqn:Hend; right.
  - by apply endswith_sep_last.
  - by rewrite PosixPathFacts.last_char_app.
Qed.

Lemma join_relative (path b : string) :
  Py.startswith b (String sep EmptyString) = false →
  join path [b] = as_prefix path +:+ b.
Proof.
  intros Hb. unfold join. cbn [fold_left]. unfold join_step, as_prefix.
  rewrite Hb. cbn [orb].
  destruct (String.eqb path EmptyString); [done|].
  destruct (Py.endswith path _); [done|].
  by rewrite append_assoc.
Qed.

Lemma is_stem_relative (stem rest : string) :
  is_stem stem = true →
  Py.startswith (stem +:+ rest) (String sep EmptyString) = false.
Proof.
  intros (c & r & -> & _ & Hsep)%is_stem_inv.
  cbn [occurs] in Hsep. apply orb_false_iff in Hsep as [Hc _].
  change (String c r +:+ rest) with (String c (r +:+ rest)).
  cbn [Py.startswith]. rewrite Ascii.eqb_sym, Hc. done.
Qed.

(** A file name joined to a directory gets the banner of its suffix. *)
Lemma banner_for_joined (dir stem e : string) :
  is_stem stem = true → is_suffix e = true →
  banner_for (join dir [stem +:+ String extsep e]) = banner_of_suffix e.
Proof.
  intros Hstem Hsuf. rewrite join_relative by (by apply is_stem_relative).
  apply banner_for_named; [apply as_prefix_dir|done|done].
Qed.

End NameFacts.

Module RunFacts.
Import PosixPath PosixPathInv FileWrite FileWriteInv FileWriteFacts.
Import FlushFacts WriteFilesFacts NameFacts.

Lemma generators_of_app parts1 parts2 :
  generators_of (parts1 ++ parts2)
  = generators_of parts1 ++ generators_of parts2.
Proof. apply omap_app. Qed.

Lemma generators_of_submit inc_dir n0 fs :
  generators_of (submit inc_dir n0 fs) = seq n0 (length fs).
Proof.
  revert n0. induction fs as [|f fs IH]; intros n0; [done|].
  rewrite submit_cons, generators_of_cons, IH. done.
Qed.

Lemma submit_paths inc_dir n0 fs :
  (submit inc_dir n0 fs).*1 = (λ f, join inc_dir [f.1]) <$> fs.
Proof.
  revert n0. induction fs as [|f fs IH]; intros n0; [done|].
  by rewrite submit_cons, !fmap_cons, IH.
Qed.

Lemma submit_length inc_dir n0 fs :
  length (submit inc_dir n0 fs) = length fs.
Proof. apply length_imap. Qed.

Lemma join_last_char dir fname c :
  last_char fname = Some c → last_char (join dir [fname]) = Some c.
Proof.
  intros Hc. unfold join. cbn [fold_left].
  rewrite PosixPathFacts.join_step_last_char; [done|]. by destruct fname.
Qed.

(** A path is not among paths that end with other characters. *)
Lemma last_char_absent (P : string) (c : ascii) (paths : list string) :
  last_char P = Some c → Forall (λ Q, last_char Q ≠ Some c) paths →
  P ∉ paths.
Proof.
  intros HP Hall Hin. rewrite Forall_forall in Hall.
  by apply (Hall P Hin).
Qed.

Section Process.
Variables (cwd module_file : string).
Context {Elements ModuleInfo ConfigFile Env : Type}.
Context {collaborators : @Collaborators Elements ModuleInfo ConfigFile Env}.

Lemma module_files_last_char (ms : list ModuleEntry) :
  Forall (λ f : string * list string, last_char f.1 = Some "c"%char)
         (module_file_of <$> ms).
Proof.
  apply Forall_fmap, Forall_forall. intros m _. simpl.
  apply last_char_inc.
Qed.

Lemma include_files_length (parsed_config : ParsedConfig) :
  length (include_files parsed_config)
  = 6 + length (joined_module_info (module_info parsed_config)
                                   (modules_to_compile parsed_config)).
Proof. unfold include_files. rewrite length_app, length_fmap. done. Qed.

(** The paths of the include directory end with [c] or [h]. *)
Lemma submit_last_char inc_dir n0 (fs : list (string * list string)) c :
  Forall (λ f : string * list string, last_char f.1 = Some c) fs →
  Forall (λ Q, last_char Q = Some c) (submit inc_dir n0 fs).*1.
Proof.
  intros Hfs. rewrite submit_paths. apply Forall_fmap.
  eapply Forall_impl; [exact Hfs|]. intros f Hf. simpl.
  by apply join_last_char.
Qed.

Lemma makefile_not_submitted inc_dir n0 (parsed_config : ParsedConfig) :
  makefile_file_name cwd module_file
    ∉ (submit inc_dir n0 (include_files parsed_config)).*1.
Proof.
  apply last_char_absent with "k"%char;
    [apply (makefile_last_char cwd module_file)|].
  rewrite submit_paths. apply Forall_fmap. unfold include_files.
  apply Forall_app. split.
  - repeat (constructor;
            [unfold compose; cbn [fst];
             erewrite join_last_char by (vm_compute; reflexivity);
             discriminate|]).
    constructor.
  - eapply Forall_impl; [apply module_files_last_char|].
    intros f Hf. unfold compose.
    erewrite join_last_char by exact Hf. discriminate.
Qed.

Lemma writer_outcome {R} (bindir objdir : option string) (body : M R)
    (wd : World) outcome st :
  body (FileWriter_init cwd module_file bindir objdir, wd) = (outcome, st) →
  writer cwd module_file bindir objdir body wd = (outcome, (finish st).2.2).
Proof. intros Hbody. unfold writer. rewrite Hbody. by destruct st. Qed.

Lemma banner_for_makefile :
  banner_for (makefile_file_name cwd module_file) = make_generated_warning.
Proof.
  unfold makefile_file_name.
  by rewrite (banner_for_joined _ "_configuration" "mk").
Qed.

(** The constants header is the only path of an invocation that ends
    with [h]. *)
Lemma constants_header_content (parsed_config : ParsedConfig)
    (self : FileWriter) (wd : World) (inc_dir : string)
    (gens0 : list (list string)) (tail : list (string * line_seq))
    (more : list (list string)) :
  fileparts self
  = submit inc_dir (length gens0) (include_files parsed_config) ++ tail →
  Forall (λ Q, last_char Q ≠ Some "h"%char) tail.*1 →
  NoDup (generators_of (fileparts self)) →
  generators wd = gens0 ++ (include_files parsed_config).*2 ++ more →
  files wd !! join inc_dir [constants_file_name] = None →
  files (finish (self, wd)).2.2 !! join inc_dir [constants_file_name]
  = Some (Py.join NL
            (cxx_generated_warning
             ++ get_constants_file (config_file parsed_config)
                                   (elements parsed_config))).
Proof.
  intros Hparts Htail Hnodup Hgens Hnone.
  set (header := join inc_dir [constants_file_name]) in *.
  set (n0 := length gens0) in *.
  set (core := get_ooo_cpu_module_lines (module_info parsed_config)).
  set (cache := get_cache_module_lines (module_info parsed_config)).
  set (rest :=
         [(core_module_declaration_file_name, core.1);
          (core_module_definition_file_name, core.2);
          (cache_module_declaration_file_name, cache.1);
          (cache_module_definition_file_name, cache.2)]
         ++ (module_file_of
               <$> joined_module_info (module_info parsed_config)
                     (modules_to_compile parsed_config))).
  assert (include_files parsed_config
          = (instantiation_file_name,
             get_instantiation_lines (elements parsed_config))
            :: (constants_file_name,
                get_constants_file (config_file parsed_config)
                                   (elements parsed_config))
            :: rest) as Hfs by done.
  assert (last_char_h : last_char header = Some "h"%char).
  { subst header. by apply join_last_char. }
  rewrite (finish_single _ _ header (S n0)
             [(join inc_dir [instantiation_file_name], Generator n0)]
             (submit inc_dir (S (S n0)) rest ++ tail)).
  - assert (banner_for header = cxx_generated_warning) as ->.
    { subst header.
      by rewrite (banner_for_joined _ "champsim_constants" "h"). }
    do 3 f_equal. rewrite Hgens, Hfs. rewrite !fmap_cons. cbn [snd].
    rewrite lookup_app_r by (subst n0; lia).
    replace (S n0 - length gens0) with 1 by (subst n0; lia).
    done.
  - rewrite Hparts, Hfs. by rewrite !submit_cons.
  - apply last_char_absent with "h"%char; [done|].
    repeat constructor. cbn [fst].
    erewrite join_last_char by (vm_compute; reflexivity).
    discriminate.
  - apply last_char_absent with "h"%char; [done|].
    rewrite fmap_app. apply Forall_app. split; [|done].
    eapply Forall_impl.
    + apply (submit_last_char inc_dir (S (S n0)) rest "c"%char).
      subst rest. apply Forall_app. split.
      * by repeat constructor.
      * apply module_files_last_char.
    + intros Q HQ. rewrite HQ. discriminate.
  - done.
  - done.
Qed.

(** The fragments of an invocation that returns have generators of
    their own. *)
Lemma run_generators inc_dir n0 (fs : list (string * list string)) P :
  generators_of (submit inc_dir n0 fs ++ [(P, Generator (n0 + length fs))])
  = seq n0 (S (length fs)).
Proof. by rewrite generators_of_app, generators_of_submit, seq_S. Qed.

End Process.

End RunFacts.
Module AbsoluteFacts.
Import PosixPath PosixPathInv FileWrite FileWriteInv NameFacts.

Local Abbreviation absolute p := (Py.startswith p "/" = true).

Lemma absolute_inv (p : string) : absolute p → ∃ r, p = String sep r.
Proof.
  destruct p as [|c r]; [done|]. cbn [Py.startswith].
  intros [Hc _]%andb_true_iff. apply Ascii.eqb_eq in Hc. subst c.
  by exists r.
Qed.

Lemma absolute_cons (r : string) : absolute (String sep r).
Proof. cbn [Py.startswith]. by destruct r. Qed.

(** [join] of an absolute path is absolute, whatever is joined. *)
Lemma join_step_absolute (a b : string) : absolute a → absolute (join_step a b).
Proof.
  intros Ha. unfold join_step.
  destruct (Py.startswith b (String sep EmptyString)) eqn:Hb; [done|].
  destruct (absolute_inv a Ha) as [r ->]. cbn [orb String.eqb].
  destruct (Py.endswith (String sep r) _); apply absolute_cons.
Qed.

Lemma join_absolute (a : string) (p : list string) :
  absolute a → absolute (join a p).
Proof.
  revert a. induction p as [|b p IH]; intros a Ha; [done|].
  unfold join. cbn [fold_left]. by apply IH, join_step_absolute.
Qed.

Lemma normpath_absolute (path : string) :
  absolute path → absolute (normpath path).
Proof.
  intros Hp. destruct (absolute_inv path Hp) as [r Hr].
  unfold normpath. rewrite Hp.
  assert (String.eqb path EmptyString = false) as ->
    by (rewrite Hr; done).
  destruct (Py.startswith path "//" && negb (Py.startswith path "///"));
    cbn [repeat_sep];
    match goal with
    | |- context [String sep ?x +:+ ?y] =>
        change (String sep x +:+ y) with (String sep (x +:+ y))
    end;
    cbn [String.eqb]; apply absolute_cons.
Qed.

Lemma abspath_absolute (cwd path : string) :
  absolute cwd → absolute (abspath cwd path).
Proof.
  intros Hcwd. unfold abspath.
  destruct (Py.startswith path "/") eqn:Hp.
  - by apply normpath_absolute.
  - by apply normpath_absolute, join_absolute.
Qed.

Lemma rstrip_sep_empty (s : string) :
  rstrip_sep s = EmptyString → all_sep s = true.
Proof.
  induction s as [|c r IH]; [done|]. cbn [rstrip_sep all_sep].
  destruct (rstrip_sep r); [|done].
  destruct (Ascii.eqb c sep); [|done]. intros _. by apply IH.
Qed.

Lemma dirname_absolute (p : string) : absolute p → absolute (dirname p).
Proof.
  intros [r ->]%absolute_inv. unfold dirname.
  assert (∃ m, Z.to_nat (rfind sep (String sep r) + 1) = S m) as [m Hm].
  { unfold rfind. cbn [rfind_from].
    destruct (rfind_from_range (0 + 1) sep r ltac:(lia)) as [-> | Hk].
    - simpl. by exists 0.
    - destruct (Z.leb_spec 0 (rfind_from (0 + 1) sep r)); [|lia].
      exists (Z.to_nat (rfind_from (0 + 1) sep r)). lia. }
  unfold slice_to. rewrite Hm.
  change (String.substring 0 (S m) (String sep r))
    with (String sep (String.substring 0 m r)).
  set (h := String.substring 0 m r).
  destruct (negb (String.eqb (String sep h) EmptyString)
            && negb (all_sep (String sep h))) eqn:Hcond;
    [|apply absolute_cons].
  apply andb_true_iff in Hcond as [_ Hall]. apply negb_true_iff in Hall.
  cbn [all_sep] in Hall. rewrite Ascii.eqb_refl in Hall. simpl in Hall.
  cbn [rstrip_sep]. destruct (rstrip_sep h) eqn:Hh; [|apply absolute_cons].
  apply rstrip_sep_empty in Hh. congruence.
Qed.

Lemma champsim_root_absolute (cwd module_file : string) :
  absolute cwd → absolute (champsim_root cwd module_file).
Proof.
  intros Hcwd. unfold champsim_root.
  by apply dirname_absolute, dirname_absolute, abspath_absolute.
Qed.

End AbsoluteFacts.
Module ModuleFileFacts.
Import PosixPath PosixPathInv FileWrite FileWriteInv NameFacts.

Lemma startswith_nil (s : string) : Py.startswith s EmptyString = true.
Proof. by destruct s. Qed.

Lemma relative_append (s t : string) :
  t ≠ EmptyString →
  Py.startswith t "/" = false →
  Py.startswith s "/" = false → Py.startswith (s +:+ t) "/" = false.
Proof.
  intros Ht Htrel. destruct s as [|c r]; [done|].
  change (String c r +:+ t) with (String c (r +:+ t)).
  cbn [Py.startswith]. by rewrite !startswith_nil.
Qed.

Lemma append_inv_tail (a b s : string) : a +:+ s = b +:+ s → a = b.
Proof.
  revert b. induction a as [|x a IH]; intros b Heq.
  - destruct b as [|y b]; [done|].
    apply (f_equal String.length) in Heq.
    rewrite !length_append in Heq. simpl in Heq. lia.
  - destruct b as [|y b].
    + apply (f_equal String.length) in Heq.
      rewrite !length_append in Heq. simpl in Heq. lia.
    + change (String x (a +:+ s) = String y (b +:+ s)) in Heq.
      injection Heq as -> Heq. f_equal. by apply IH.
Qed.

(** Two relative names joined to one directory give one path only if
    they are one name. *)
Lemma join_relative_inj (dir a b : string) :
  Py.startswith a "/" = false → Py.startswith b "/" = false →
  join dir [a] = join dir [b] → a = b.
Proof.
  intros Ha Hb. rewrite !join_relative by done.
  apply (inj (String.app (as_prefix dir))).
Qed.

End ModuleFileFacts.
(* ================================================================= *)
(** * Further properties of the file writer *)

Import FileWrite FileWriteInv.

(** X1: after [write_if_different] with a plain text, the file exists
    and reads back, line by line and up to the whitespace around each
    line, as the new text; no other file is touched, and no generator
    is run. *)
Theorem X1_write_if_different_settles fname new_file_string wd :
  Py.plain new_file_string = true →
  let wd' := write_if_different fname new_file_string wd in
  (∃ stored, files wd' !! fname = Some stored
     ∧ Py.strip <$> Py.readlines stored
       = Py.strip <$> Py.splitlines new_file_string)
  ∧ (∀ other, other ≠ fname → files wd' !! other = files wd !! other)
  ∧ generators wd' = generators wd.
Proof.
  intros Hplain wd'.
  split; [by apply FileWriteFacts.write_if_different_settles|]. split.
  - intros other Hne. by apply FileWriteFacts.write_if_different_other.
  - apply FlushFacts.write_if_different_generators.
Qed.

(** A header that is there with other lines. *)
Lemma X1_changed_header_example :
  let wd' :=
    write_if_different "out.h" ("A" +:+ NL +:+ "C")
      (mkWorld {["out.h" := "A" +:+ NL +:+ "B"]} [] []) in
  (∃ stored, files wd' !! "out.h" = Some stored
     ∧ Py.strip <$> Py.readlines stored
       = Py.strip <$> Py.splitlines ("A" +:+ NL +:+ "C"))
  ∧ (∀ other, other ≠ "out.h"
       → files wd' !! other
         = files (mkWorld {["out.h" := "A" +:+ NL +:+ "B"]} [] []) !! other)
  ∧ generators wd' = [].
Proof.
  apply (X1_write_if_different_settles "out.h" ("A" +:+ NL +:+ "C")
           (mkWorld {["out.h" := "A" +:+ NL +:+ "B"]} [] [])).
  vm_compute. reflexivity.
Defined.

(** X2: [write_if_different] with a plain text, called again with the
    same text, changes nothing: what it has written it does not write
    again. *)
Theorem X2_write_if_different_twice fname new_file_string wd :
  Py.plain new_file_string = true →
  write_if_different fname new_file_string
    (write_if_different fname new_file_string wd)
  = write_if_different fname new_file_string wd.
Proof.
  intros Hplain.
  by apply FileWriteFacts.settled_noop,
           FileWriteFacts.write_if_different_settles.
Qed.

(** A makefile that is not there is written once. *)
Lemma X2_new_file_example :
  write_if_different "a.mk" ("x" +:+ NL +:+ "y")
    (write_if_different "a.mk" ("x" +:+ NL +:+ "y") empty_world)
  = write_if_different "a.mk" ("x" +:+ NL +:+ "y") empty_world.
Proof.
  apply (X2_write_if_different_twice "a.mk" ("x" +:+ NL +:+ "y") empty_world).
  vm_compute. reflexivity.
Defined.

(** X3: the files that [files_are_different] does not tell apart form
    classes: every file is the same as itself, the answer does not
    depend on which of the two is the old one, and two files that are
    both the same as a third are the same. *)
Theorem X3_same_files_equivalence :
  (∀ rfp, files_are_different rfp rfp = false)
  ∧ (∀ rfp new_rfp,
       files_are_different rfp new_rfp = files_are_different new_rfp rfp)
  ∧ (∀ rfp1 rfp2 rfp3,
       files_are_different rfp1 rfp2 = false →
       files_are_different rfp2 rfp3 = false →
       files_are_different rfp1 rfp3 = false).
Proof.
  split; [|split].
  - intros rfp. by apply FileWriteFacts.files_are_different_false.
  - intros rfp new_rfp.
    destruct (files_are_different rfp new_rfp) eqn:Hd; symmetry.
    + apply FileWriteFacts.files_are_different_true.
      apply FileWriteFacts.files_are_different_true in Hd.
      intros Heq. by apply Hd.
    + apply FileWriteFacts.files_are_different_false.
      by apply FileWriteFacts.files_are_different_false in Hd.
  - intros rfp1 rfp2 rfp3 H12 H23.
    apply FileWriteFacts.files_are_different_false in H12, H23.
    apply FileWriteFacts.files_are_different_false. congruence.
Qed.

(** X4: two files with different numbers of lines are different. *)
Theorem X4_line_count_differs rfp new_rfp :
  length rfp ≠ length new_rfp → files_are_different rfp new_rfp = true.
Proof.
  intros Hlen. apply FileWriteFacts.files_are_different_true.
  intros Heq. apply Hlen. apply (f_equal length) in Heq.
  by rewrite !length_fmap in Heq.
Qed.

(** A blank line more at the end is a difference. *)
Lemma X4_blank_line_example :
  files_are_different ["A"; "B"] ["A"; "B"; ""] = true.
Proof. apply X4_line_count_differs. simpl. lia. Defined.

(** X5: a flush leaves alone every file whose path no fragment names. *)
Theorem X5_finish_other_files self wd P :
  P ∉ (fileparts self).*1 →
  files (finish (self, wd)).2.2 !! P = files wd !! P.
Proof. apply FlushFacts.finish_untouched. Qed.

(** A text file beside a header that is flushed. *)
Lemma X5_bystander_example :
  files (finish (mkFileWriter [("a.h", Lines ["x"])] None "" None,
                 mkWorld {["b.txt" := "old"]} [] [])).2.2 !! "b.txt"
  = files (mkWorld {["b.txt" := "old"]} [] []) !! "b.txt".
Proof.
  apply (X5_finish_other_files
           (mkFileWriter [("a.h", Lines ["x"])] None "" None)
           (mkWorld {["b.txt" := "old"]} [] []) "b.txt").
  simpl. apply not_elem_of_cons. split; [discriminate|apply not_elem_of_nil].
Defined.

(** X6: a flush removes no file, and after it there is a file at the
    path of every fragment. *)
Theorem X6_finish_files_exist self wd :
  let after := (finish (self, wd)).2.2 in
  (∀ Q, is_Some (files wd !! Q) → is_Some (files after !! Q))
  ∧ (∀ P, P ∈ (fileparts self).*1 → is_Some (files after !! P)).
Proof.
  intros after. subst after.
  destruct (FileWriteFacts.groups_of_fileparts (fileparts self))
    as (_ & Hpaths & _).
  rewrite FileWriteFacts.finish_as_flush. cbn [snd]. split.
  - intros Q HQ. by apply FlushFacts.fold_flush_kept.
  - intros P HP. by apply FlushFacts.fold_flush_exists, Hpaths.
Qed.

(** X7: a flush records that it ran and then writes files, each one at
    most once and in the ascending order of the paths, and only at
    paths of fragments. *)
Theorem X7_finish_writes_in_order self wd :
  ∃ written,
    trace (finish (self, wd)).2.2
    = trace wd ++ Finished :: (Wrote <$> written)
    ∧ StronglySorted (strict String.le) written
    ∧ (∀ P, P ∈ written → P ∈ (fileparts self).*1)
    ∧ write_count (finish (self, wd)).2.2
      = write_count wd + length written.
Proof.
  destruct (FileWriteFacts.groups_of_fileparts (fileparts self))
    as (Hsorted & Hpaths & _).
  rewrite FileWriteFacts.finish_as_flush. cbn [snd].
  destruct (FlushFacts.fold_flush_trace (fileparts self)
              (flush_paths (fileparts self)) (log_event Finished wd))
    as (written & Hsub & Htrace).
  exists written. simpl in Htrace. rewrite <- app_assoc in Htrace.
  split; [exact Htrace|]. split; [|split].
  - by apply FlushFacts.sublist_sorted with (flush_paths (fileparts self)).
  - intros P HP. apply Hpaths. by apply elem_of_sublist with written.
  - unfold write_count. rewrite Htrace.
    apply FlushFacts.write_count_app.
Qed.

(** X8: after a flush, a generator that a fragment held yields no line
    any more. *)
Theorem X8_finish_spends_generators self wd P g :
  (P, Generator g) ∈ fileparts self →
  pending (generators (finish (self, wd)).2.2) (P, Generator g) = [].
Proof.
  intros Hin.
  destruct (FileWriteFacts.groups_of_fileparts (fileparts self))
    as (_ & Hpaths & _).
  rewrite FileWriteFacts.finish_as_flush. cbn [snd].
  apply (FlushFacts.fold_flush_spends (fileparts self) _ _ P g); [|done].
  apply Hpaths, list_elem_of_fmap. by exists (P, Generator g).
Qed.

(** A generator of two lines, after the flush. *)
Lemma X8_one_generator_example :
  pending
    (generators
       (finish (mkFileWriter [("a.h", Generator 0)] None "" None,
                mkWorld ∅ [["x"; "y"]] [])).2.2)
    ("a.h", Generator 0)
  = [].
Proof.
  apply (X8_finish_spends_generators
           (mkFileWriter [("a.h", Generator 0)] None "" None)
           (mkWorld ∅ [["x"; "y"]] []) "a.h" 0).
  simpl. apply list_elem_of_here.
Defined.

(** X9: when no two fragments of the writer share a generator, the file
    of a path that did not exist holds, after the flush, the banner of
    the path and then, fragment after fragment in the order of
    submission, the lines each fragment of the path had to yield before
    the flush. *)
Theorem X9_finish_content self wd P :
  NoDup (generators_of (fileparts self)) →
  P ∈ (fileparts self).*1 → files wd !! P = None →
  files (finish (self, wd)).2.2 !! P
  = Some (Py.join NL
            (banner_for P
             ++ mjoin (pending (generators wd)
                         <$> group_of P (fileparts self)))).
Proof. apply FlushFacts.finish_content. Qed.

(** A header with a generator and a list, beside a makefile. *)
Lemma X9_two_generators_example :
  files (finish (mkFileWriter [("a.h", Generator 1); ("b.mk", Generator 0);
                               ("a.h", Lines ["z"])] None "" None,
                 mkWorld ∅ [["y"]; ["x"]] [])).2.2 !! "a.h"
  = Some (Py.join NL
            (banner_for "a.h"
             ++ mjoin (pending [["y"]; ["x"]]
                         <$> group_of "a.h"
                               [("a.h", Generator 1); ("b.mk", Generator 0);
                                ("a.h", Lines ["z"])]))).
Proof.
  apply (X9_finish_content
           (mkFileWriter [("a.h", Generator 1); ("b.mk", Generator 0);
                          ("a.h", Lines ["z"])] None "" None)
           (mkWorld ∅ [["y"]; ["x"]] []) "a.h").
  - vm_compute. apply NoDup_cons. split.
    + apply not_elem_of_cons. split; [discriminate|apply not_elem_of_nil].
    + apply NoDup_singleton.
  - simpl. apply list_elem_of_here.
  - reflexivity.
Defined.

(** X10: [write_files] writes no file: whether it returns or raises, the
    files and the trace are as before, the fragments and the generators
    it found are still there, in front of those it added, and the
    settings of the writer are unchanged. *)
Theorem X10_write_files_only_collects cwd module_file
    {Elements ModuleInfo ConfigFile Env : Type}
    {collaborators : @Collaborators Elements ModuleInfo ConfigFile Env}
    (parsed_config : ParsedConfig)
    (bindir_name : option string) (srcdir_names : option (list string))
    (objdir_name : option string) (self : FileWriter) (wd : World) :
  let st' := (write_files cwd module_file parsed_config bindir_name
                          srcdir_names objdir_name (self, wd)).2 in
  files st'.2 = files wd
  ∧ trace st'.2 = trace wd
  ∧ fileparts self `prefix_of` fileparts st'.1
  ∧ generators wd `prefix_of` generators st'.2
  ∧ FileWrite.bindir_name st'.1 = FileWrite.bindir_name self
  ∧ core_sources st'.1 = core_sources self
  ∧ FileWrite.objdir_name st'.1 = FileWrite.objdir_name self.
Proof.
  exact (WriteFilesFacts.collecting_write_files cwd module_file parsed_config
           bindir_name srcdir_names objdir_name (self, wd)).
Qed.



(** X12: with a build identifier and an object directory but no binary
    directory, [write_files] raises [TypeError] after it has appended
    the fragments of the include directory, six and one per compiled
    module, each with a new generator; the fragment of the makefile is
    not among them. *)
Theorem X12_write_files_without_bindir cwd module_file
    {Elements ModuleInfo ConfigFile Env : Type}
    {collaborators : @Collaborators Elements ModuleInfo ConfigFile Env}
    (parsed_config : ParsedConfig)
    (bindir_name : option string) (srcdir_names : option (list string))
    (objdir_name : option string) (self : FileWriter) (wd : World)
    (build_id objdir : string) :
  compute_build_id parsed_config = Some build_id →
  py_or objdir_name (FileWrite.objdir_name self) = Some objdir →
  py_or bindir_name (FileWrite.bindir_name self) = None →
  let inc_dir :=
    PosixPath.join (PosixPath.abspath cwd objdir) [build_id; "inc"] in
  let new :=
    submit inc_dir (length (generators wd)) (include_files parsed_config) in
  write_files cwd module_file parsed_config bindir_name srcdir_names
              objdir_name (self, wd)
  = (Raise TypeError,
     (with_fileparts self (fileparts self ++ new),
      set_generators
        (generators wd ++ (include_files parsed_config).*2) wd))
  ∧ length new
    = 6 + length (joined_module_info (module_info parsed_config)
                                     (modules_to_compile parsed_config))
  ∧ makefile_file_name cwd module_file ∉ new.*1.
Proof.
  intros Hid Hobj Hbin inc_dir new.
  rewrite (WriteFilesFacts.write_files_effect cwd module_file parsed_config
             bindir_name srcdir_names objdir_name self wd build_id objdir
             Hid Hobj).
  rewrite Hbin. split; [done|]. split.
  - subst new. rewrite RunFacts.submit_length.
    apply RunFacts.include_files_length.
  - apply RunFacts.makefile_not_submitted.
Qed.

(** The demo configuration without a binary directory. *)
Lemma X12_no_bindir_example :
  let inc_dir :=
    PosixPath.join (PosixPath.abspath demo_cwd "obj") ["c3233bd1"; "inc"] in
  let new :=
    submit inc_dir 0
      (include_files (collaborators := demo_collaborators)
                     (demo_config ["m1"])) in
  write_files demo_cwd demo_file (H := demo_collaborators)
    (demo_config ["m1"]) None None None
    (FileWriter_init demo_cwd demo_file None (Some "obj"), empty_world)
  = (Raise TypeError,
     (with_fileparts (FileWriter_init demo_cwd demo_file None (Some "obj"))
        ([] ++ new),
      set_generators
        ([] ++ (include_files (collaborators := demo_collaborators)
                              (demo_config ["m1"])).*2) empty_world))
  ∧ length new = 6 + length ["m1"]
  ∧ makefile_file_name demo_cwd demo_file ∉ new.*1.
Proof.
  apply (X12_write_files_without_bindir demo_cwd demo_file
           (collaborators := demo_collaborators) (demo_config ["m1"])
           None None None
           (FileWriter_init demo_cwd demo_file None (Some "obj"))
           empty_world "c3233bd1" "obj").
  - vm_compute. reflexivity.
  - reflexivity.
  - reflexivity.
Defined.

(** X13: with a build identifier, an object directory and a binary
    directory, [write_files] returns, and has appended, after the
    fragments the writer held, the fragments of the include directory in
    the order of the source and last the fragment of the makefile: seven
    and one per compiled module, the i-th with the i-th new generator,
    no generator twice and none that was there before.  The makefile is
    made for the source directories given, then the core sources. *)
Theorem X13_write_files_appends cwd module_file
    {Elements ModuleInfo ConfigFile Env : Type}
    {collaborators : @Collaborators Elements ModuleInfo ConfigFile Env}
    (parsed_config : ParsedConfig)
    (bindir_name : option string) (srcdir_names : option (list string))
    (objdir_name : option string) (self : FileWriter) (wd : World)
    (build_id objdir bindir : string) :
  compute_build_id parsed_config = Some build_id →
  py_or objdir_name (FileWrite.objdir_name self) = Some objdir →
  py_or bindir_name (FileWrite.bindir_name self) = Some bindir →
  let inc_dir :=
    PosixPath.join (PosixPath.abspath cwd objdir) [build_id; "inc"] in
  let n0 := length (generators wd) in
  let fs := include_files parsed_config in
  let new :=
    submit inc_dir n0 fs
    ++ [(makefile_file_name cwd module_file, Generator (n0 + length fs))] in
  write_files cwd module_file parsed_config bindir_name srcdir_names
              objdir_name (self, wd)
  = (Ret (),
     (with_fileparts self (fileparts self ++ new),
      set_generators
        (generators wd ++ fs.*2
         ++ [get_makefile_lines objdir build_id
               (PosixPath.normpath
                  (PosixPath.join bindir [executable parsed_config]))
               (default [] srcdir_names ++ [core_sources self])
               (joined_module_info (module_info parsed_config)
                                   (modules_to_compile parsed_config))
               (env parsed_config)]) wd))
  ∧ length new
    = 7 + length (joined_module_info (module_info parsed_config)
                                     (modules_to_compile parsed_config))
  ∧ generators_of new = seq n0 (length new).
Proof.
  intros Hid Hobj Hbin inc_dir n0 fs new.
  rewrite (WriteFilesFacts.write_files_effect cwd module_file parsed_config
             bindir_name srcdir_names objdir_name self wd build_id objdir
             Hid Hobj).
  rewrite Hbin. split; [done|].
  assert (length new = S (length fs)) as Hlen.
  { subst new. rewrite length_app, RunFacts.submit_length. simpl. lia. }
  split.
  - rewrite Hlen. subst fs. by rewrite RunFacts.include_files_length.
  - rewrite Hlen. apply RunFacts.run_generators.
Qed.

(** The demo configuration with one more source directory. *)
Lemma X13_demo_example :
  let inc_dir :=
    PosixPath.join (PosixPath.abspath demo_cwd "obj") ["c3233bd1"; "inc"] in
  let fs :=
    include_files (collaborators := demo_collaborators)
                  (demo_config ["m1"]) in
  let new :=
    submit inc_dir 0 fs
    ++ [(makefile_file_name demo_cwd demo_file, Generator (0 + length fs))] in
  write_files demo_cwd demo_file (H := demo_collaborators)
    (demo_config ["m1"]) None (Some ["extra"]) None
    (FileWriter_init demo_cwd demo_file (Some "bin") (Some "obj"),
     empty_world)
  = (Ret (),
     (with_fileparts
        (FileWriter_init demo_cwd demo_file (Some "bin") (Some "obj"))
        ([] ++ new),
      set_generators
        ([] ++ fs.*2
         ++ [get_makefile_lines (Collaborators := demo_collaborators)
               "obj" "c3233bd1"
               (PosixPath.normpath (PosixPath.join "bin" ["champsim"]))
               (["extra"] ++ [PosixPath.join
                                (champsim_root demo_cwd demo_file) ["src"]])
               (joined_module_info (Collaborators := demo_collaborators)
                                   () ["m1"])
               ()]) empty_world))
  ∧ length new = 7 + length ["m1"]
  ∧ generators_of new = seq 0 (length new).
Proof.
  apply (X13_write_files_appends demo_cwd demo_file
           (collaborators := demo_collaborators) (demo_config ["m1"])
           None (Some ["extra"]) None
           (FileWriter_init demo_cwd demo_file (Some "bin") (Some "obj"))
           empty_world "c3233bd1" "obj" "bin").
  - vm_compute. reflexivity.
  - reflexivity.
  - reflexivity.
Defined.

(** X14: for a path that ends with a file name made of a stem, a dot
    and a suffix (the stem not starting with a dot), whatever the
    directories before it, [os.path.splitext] cuts at that dot, and so
    the flush chooses the banner by the suffix alone: the C++ banner for
    [cc], [h] and [inc], the make banner for [mk], no banner
    otherwise. *)
Theorem X14_banner_by_file_name (d stem e : string) :
  dir_prefix d → is_stem stem = true → is_suffix e = true →
  PosixPath.splitext (d +:+ stem +:+ "." +:+ e) = (d +:+ stem, "." +:+ e)
  ∧ banner_for (d +:+ stem +:+ "." +:+ e) = banner_of_suffix e.
Proof.
  intros Hd Hstem Hsuf. split.
  - by apply NameFacts.splitext_named.
  - by apply NameFacts.banner_for_named.
Qed.

(** Dots in the directory and in the stem. *)
Lemma X14_dotted_directory_example :
  PosixPath.splitext ("obj.d/" +:+ "ooo.cpu" +:+ "." +:+ "inc")
  = ("obj.d/" +:+ "ooo.cpu", "." +:+ "inc")
  ∧ banner_for ("obj.d/" +:+ "ooo.cpu" +:+ "." +:+ "inc")
    = banner_of_suffix "inc".
Proof.
  apply (X14_banner_by_file_name "obj.d/" "ooo.cpu" "inc").
  - right. reflexivity.
  - reflexivity.
  - reflexivity.
Defined.

(** X15: a file name that is only a dot and a suffix, such as [.inc] or
    [.mk], has no extension for [os.path.splitext], and the flush gives
    it no banner: the group is written as the lines of its fragments
    alone. *)
Theorem X15_hidden_file_no_banner (d e : string) wd fcontents :
  dir_prefix d → is_suffix e = true →
  let fname := d +:+ "." +:+ e in
  PosixPath.splitext fname = (fname, "")
  ∧ finish_group wd (fname, fcontents)
    = write_if_different fname
        (Py.join NL (drain fcontents (generators wd)).1)
        (set_generators (drain fcontents (generators wd)).2 wd).
Proof.
  intros Hd Hsuf fname.
  pose proof (NameFacts.splitext_hidden d e Hd Hsuf) as Hsplit.
  split; [exact Hsplit|].
  rewrite FileWriteFacts.finish_group_eq.
  assert (banner_for fname = []) as ->; [|done].
  unfold banner_for. subst fname.
  change (d +:+ "." +:+ e) with (d +:+ String PosixPath.extsep e).
  rewrite Hsplit. cbn [snd].
  rewrite !bool_decide_eq_false_2; [done|done|].
  intros [?|[?|?]]; discriminate.
Qed.

(** The file of a module with the empty name. *)
Lemma X15_dot_inc_example :
  let fname := "inc/" +:+ "." +:+ "inc" in
  PosixPath.splitext fname = (fname, "")
  ∧ finish_group empty_world (fname, [(fname, Lines ["x"])])
    = write_if_different fname
        (Py.join NL (drain [(fname, Lines ["x"])] (generators empty_world)).1)
        (set_generators
           (drain [(fname, Lines ["x"])] (generators empty_world)).2
           empty_world).
Proof.
  apply (X15_hidden_file_no_banner "inc/" "inc" empty_world
           [("inc/" +:+ "." +:+ "inc", Lines ["x"])]).
  - right. reflexivity.
  - reflexivity.
Defined.

(** X16: whatever the working directory, the place of the package and
    the include directory, the path of the makefile gets the make
    banner, the six named files of the include directory get the C++
    banner, and so does the file of a module whose name is a stem. *)
Theorem X16_banners_of_a_run cwd module_file (inc_dir : string) :
  banner_for (makefile_file_name cwd module_file) = make_generated_warning
  ∧ Forall (λ fname, banner_for (PosixPath.join inc_dir [fname])
                     = cxx_generated_warning)
      [instantiation_file_name; constants_file_name;
       core_module_declaration_file_name; core_module_definition_file_name;
       cache_module_declaration_file_name; cache_module_definition_file_name]
  ∧ (∀ name, is_stem name = true →
       banner_for (PosixPath.join inc_dir [name +:+ ".inc"])
       = cxx_generated_warning).
Proof.
  split; [apply RunFacts.banner_for_makefile|]. split.
  - repeat constructor.
    + by rewrite (NameFacts.banner_for_joined _ "core_inst" "inc").
    + by rewrite (NameFacts.banner_for_joined _ "champsim_constants" "h").
    + by rewrite (NameFacts.banner_for_joined _ "ooo_cpu_module_decl" "inc").
    + by rewrite (NameFacts.banner_for_joined _ "ooo_cpu_module_def" "inc").
    + by rewrite (NameFacts.banner_for_joined _ "cache_module_decl" "inc").
    + by rewrite (NameFacts.banner_for_joined _ "cache_module_def" "inc").
  - intros name Hname.
    by rewrite (NameFacts.banner_for_joined _ name "inc").
Qed.
(** X17: a block [with writer(...) as w: w.write_files(...)] whose
    invocation has a build identifier, an object directory and a binary
    directory returns, and a makefile that was not there holds, after
    the block, the five lines of the make banner and then the lines of
    the makefile generator, made for the object directory, the build
    identifier, the normalized path of the executable in the binary
    directory, the source directories given and then the [src] directory
    of the package. *)
Theorem X17_makefile_of_a_run cwd module_file
    {Elements ModuleInfo ConfigFile Env : Type}
    {collaborators : @Collaborators Elements ModuleInfo ConfigFile Env}
    (parsed_config : ParsedConfig)
    (bindir_name : option string) (srcdir_names : option (list string))
    (objdir_name : option string) (bindir0 objdir0 : option string)
    (wd : World) (build_id objdir bindir : string) :
  compute_build_id parsed_config = Some build_id →
  py_or objdir_name objdir0 = Some objdir →
  py_or bindir_name bindir0 = Some bindir →
  files wd !! makefile_file_name cwd module_file = None →
  let run :=
    writer cwd module_file bindir0 objdir0
      (write_files cwd module_file parsed_config bindir_name srcdir_names
                   objdir_name) wd in
  run.1 = Ret ()
  ∧ files run.2 !! makefile_file_name cwd module_file
    = Some (Py.join NL
              (make_generated_warning
               ++ get_makefile_lines objdir build_id
                    (PosixPath.normpath
                       (PosixPath.join bindir [executable parsed_config]))
                    (default [] srcdir_names
                     ++ [PosixPath.join (champsim_root cwd module_file)
                                        ["src"]])
                    (joined_module_info (module_info parsed_config)
                                        (modules_to_compile parsed_config))
                    (env parsed_config))).
Proof.
  intros Hid Hobj Hbin Hnone run. subst run.
  set (w := FileWriter_init cwd module_file bindir0 objdir0).
  pose proof (WriteFilesFacts.write_files_effect cwd module_file
                parsed_config bindir_name srcdir_names objdir_name w wd
                build_id objdir Hid Hobj) as Heff.
  cbv zeta in Heff.
  change (FileWrite.bindir_name w) with bindir0 in Heff.
  rewrite Hbin in Heff.
  rewrite (RunFacts.writer_outcome cwd module_file _ _ _ _ _ _ Heff).
  split; [done|]. cbn [snd].
  set (fs := include_files parsed_config).
  set (inc_dir := PosixPath.join (PosixPath.abspath cwd objdir)
                                 [build_id; "inc"]).
  rewrite (FlushFacts.finish_single _ _ (makefile_file_name cwd module_file)
             (length (generators wd) + length fs)
             (submit inc_dir (length (generators wd)) fs) []).
  - rewrite RunFacts.banner_for_makefile. do 3 f_equal.
    cbn [generators set_generators]. rewrite app_assoc.
    rewrite list_lookup_middle by (by rewrite length_app, length_fmap).
    done.
  - done.
  - apply RunFacts.makefile_not_submitted.
  - apply not_elem_of_nil.
  - unfold w, FileWriter_init. cbn [with_fileparts fileparts app].
    rewrite (RunFacts.run_generators inc_dir (length (generators wd)) fs).
    apply NoDup_seq.
  - done.
Qed.

(** The makefile of the demo configuration. *)
Lemma X17_demo_makefile :
  let run :=
    writer demo_cwd demo_file (Some "bin") (Some "obj")
      (write_files demo_cwd demo_file (H := demo_collaborators)
                   (demo_config ["m1"]) None None None) empty_world in
  run.1 = Ret ()
  ∧ files run.2 !! makefile_file_name demo_cwd demo_file
    = Some (Py.join NL
              (make_generated_warning
               ++ get_makefile_lines (Collaborators := demo_collaborators)
                    "obj" "c3233bd1"
                    (PosixPath.normpath (PosixPath.join "bin" ["champsim"]))
                    (default [] None
                     ++ [PosixPath.join (champsim_root demo_cwd demo_file)
                                        ["src"]])
                    (joined_module_info (Collaborators := demo_collaborators)
                                        () ["m1"])
                    ())).
Proof.
  apply (X17_makefile_of_a_run demo_cwd demo_file
           (collaborators := demo_collaborators) (demo_config ["m1"])
           None None None (Some "bin") (Some "obj") empty_world
           "c3233bd1" "obj" "bin").
  - vm_compute. reflexivity.
  - reflexivity.
  - reflexivity.
  - reflexivity.
Defined.

(** X18: after such a block, a constants header
    [{objdir}/{build_id}/inc/champsim_constants.h] that was not there
    holds the five lines of the C++ banner and then the lines of the
    constants generator, whatever the names of the compiled modules:
    no other fragment of the invocation has its path. *)
Theorem X18_constants_header_of_a_run cwd module_file
    {Elements ModuleInfo ConfigFile Env : Type}
    {collaborators : @Collaborators Elements ModuleInfo ConfigFile Env}
    (parsed_config : ParsedConfig)
    (bindir_name : option string) (srcdir_names : option (list string))
    (objdir_name : option string) (bindir0 objdir0 : option string)
    (wd : World) (build_id objdir bindir : string) :
  compute_build_id parsed_config = Some build_id →
  py_or objdir_name objdir0 = Some objdir →
  py_or bindir_name bindir0 = Some bindir →
  let header :=
    PosixPath.join
      (PosixPath.join (PosixPath.abspath cwd objdir) [build_id; "inc"])
      [constants_file_name] in
  files wd !! header = None →
  let run :=
    writer cwd module_file bindir0 objdir0
      (write_files cwd module_file parsed_config bindir_name srcdir_names
                   objdir_name) wd in
  files run.2 !! header
  = Some (Py.join NL
            (cxx_generated_warning
             ++ get_constants_file (config_file parsed_config)
                                   (elements parsed_config))).
Proof.
  intros Hid Hobj Hbin header Hnone run. subst run.
  set (w := FileWriter_init cwd module_file bindir0 objdir0).
  pose proof (WriteFilesFacts.write_files_effect cwd module_file
                parsed_config bindir_name srcdir_names objdir_name w wd
                build_id objdir Hid Hobj) as Heff.
  cbv zeta in Heff.
  change (FileWrite.bindir_name w) with bindir0 in Heff.
  rewrite Hbin in Heff.
  rewrite (RunFacts.writer_outcome cwd module_file _ _ _ _ _ _ Heff).
  cbn [snd].
  eapply (RunFacts.constants_header_content parsed_config _ _ _
            (generators wd)); [reflexivity| | |reflexivity|done].
  - repeat constructor. cbn [fst].
    rewrite (FileWriteFacts.makefile_last_char cwd module_file).
    discriminate.
  - unfold w, FileWriter_init. cbn [with_fileparts fileparts app].
    rewrite (RunFacts.run_generators _ (length (generators wd))
               (include_files parsed_config)).
    apply NoDup_seq.
Qed.

(** A module named like the constants header. *)
Lemma X18_demo_constants_header :
  let header :=
    PosixPath.join
      (PosixPath.join (PosixPath.abspath demo_cwd "obj") ["c3233bd1"; "inc"])
      [constants_file_name] in
  let run :=
    writer demo_cwd demo_file (Some "bin") (Some "obj")
      (write_files demo_cwd demo_file (H := demo_collaborators)
                   (demo_config ["champsim_constants"]) None None None)
      empty_world in
  files run.2 !! header
  = Some (Py.join NL
            (cxx_generated_warning
             ++ get_constants_file (Collaborators := demo_collaborators)
                  () ())).
Proof.
  intros header.
  apply (X18_constants_header_of_a_run demo_cwd demo_file
           (collaborators := demo_collaborators)
           (demo_config ["champsim_constants"])
           None None None (Some "bin") (Some "obj") empty_world
           "c3233bd1" "obj" "bin").
  - vm_compute. reflexivity.
  - reflexivity.
  - reflexivity.
  - reflexivity.
Defined.

(** The similarity ratio itself depends on the order of its arguments;
    the test of [files_are_different] does not. *)
Example ratio_is_not_symmetric :
  Qeq (Difflib.ratio ["t"; "i"; "d"; "e"] ["d"; "i"; "e"; "t"]) (1 # 4)
  ∧ Qeq (Difflib.ratio ["d"; "i"; "e"; "t"] ["t"; "i"; "d"; "e"]) (1 # 2).
Proof. split; by vm_compute. Qed.

(** A name that is only an extension gets no banner. *)
Example hidden_file_is_written_bare :
  files (finish (mkFileWriter [("inc/.inc", Lines ["x"])] None "" None,
                 empty_world)).2.2 !! "inc/.inc"
  = Some "x".
Proof. by vm_compute. Qed.
(** X19: in a process whose working directory is an absolute path, every
    path that [write_files] submits is absolute, whatever the object
    directory, the build identifier and the file names are: the paths of
    the include directory, the path of the makefile, and the directory
    of the core sources that goes into the makefile. *)
Theorem X19_paths_are_absolute cwd module_file
    (objdir build_id fname : string) :
  Py.startswith cwd "/" = true →
  Py.startswith
    (PosixPath.join
       (PosixPath.join (PosixPath.abspath cwd objdir) [build_id; "inc"])
       [fname]) "/" = true
  ∧ Py.startswith (makefile_file_name cwd module_file) "/" = true
  ∧ Py.startswith
      (core_sources (FileWriter_init cwd module_file None None)) "/" = true.
Proof.
  intros Hcwd. split; [|split].
  - by apply AbsoluteFacts.join_absolute, AbsoluteFacts.join_absolute,
             AbsoluteFacts.abspath_absolute.
  - by apply AbsoluteFacts.join_absolute,
             AbsoluteFacts.champsim_root_absolute.
  - by apply AbsoluteFacts.join_absolute,
             AbsoluteFacts.champsim_root_absolute.
Qed.

(** An object directory beside the working directory. *)
Lemma X19_relative_objdir_example :
  Py.startswith
    (PosixPath.join
       (PosixPath.join (PosixPath.abspath demo_cwd "../obj")
                       ["c3233bd1"; "inc"])
       ["core_inst.inc"]) "/" = true
  ∧ Py.startswith (makefile_file_name demo_cwd "config/filewrite.py") "/"
    = true
  ∧ Py.startswith
      (core_sources
         (FileWriter_init demo_cwd "config/filewrite.py" None None)) "/"
    = true.
Proof.
  apply (X19_paths_are_absolute demo_cwd "config/filewrite.py"
           "../obj" "c3233bd1" "core_inst.inc").
  reflexivity.
Defined.
(** X20: after a block [with writer(...) as w: w.write_files(...)] that
    returns, the file [{objdir}/{build_id}/inc/{name}.inc] of a compiled
    module, if it was not there, holds the five lines of the C++ banner
    and then one [#define] line for each entry of the function map of
    the module, in the order of the entries: when the name is a stem,
    the names of the other modules are relative and different from it,
    and it is none of the five named include files. *)
Theorem X20_module_file_of_a_run cwd module_file
    {Elements ModuleInfo ConfigFile Env : Type}
    {collaborators : @Collaborators Elements ModuleInfo ConfigFile Env}
    (parsed_config : ParsedConfig)
    (bindir_name : option string) (srcdir_names : option (list string))
    (objdir_name : option string) (bindir0 objdir0 : option string)
    (wd : World) (build_id objdir bindir : string)
    (earlier later : list ModuleEntry) (m : ModuleEntry) :
  compute_build_id parsed_config = Some build_id →
  py_or objdir_name objdir0 = Some objdir →
  py_or bindir_name bindir0 = Some bindir →
  joined_module_info (module_info parsed_config)
                     (modules_to_compile parsed_config)
  = earlier ++ m :: later →
  is_stem (name m) = true →
  Forall (λ m', Py.startswith (name m') "/" = false ∧ name m' ≠ name m)
         (earlier ++ later) →
  name m ∉ ["core_inst"; "ooo_cpu_module_decl"; "ooo_cpu_module_def";
            "cache_module_decl"; "cache_module_def"] →
  let path :=
    PosixPath.join
      (PosixPath.join (PosixPath.abspath cwd objdir) [build_id; "inc"])
      [name m +:+ ".inc"] in
  files wd !! path = None →
  let run :=
    writer cwd module_file bindir0 objdir0
      (write_files cwd module_file parsed_config bindir_name srcdir_names
                   objdir_name) wd in
  files run.2 !! path
  = Some (Py.join NL
            (cxx_generated_warning
             ++ ((λ x : string * string, "#define " +:+ x.1 +:+ " " +:+ x.2)
                   <$> func_map_items m))).
Proof.
  intros Hid Hobj Hbin Hjoined Hstem Hothers Hfixed path Hnone run.
  subst run.
  set (w := FileWriter_init cwd module_file bindir0 objdir0).
  pose proof (WriteFilesFacts.write_files_effect cwd module_file
                parsed_config bindir_name srcdir_names objdir_name w wd
                build_id objdir Hid Hobj) as Heff.
  cbv zeta in Heff.
  change (FileWrite.bindir_name w) with bindir0 in Heff.
  rewrite Hbin in Heff.
  rewrite (RunFacts.writer_outcome cwd module_file _ _ _ _ _ _ Heff).
  cbn [snd].
  set (inc_dir := PosixPath.join (PosixPath.abspath cwd objdir)
                                 [build_id; "inc"]) in *.
  set (n0 := length (generators wd)).
  set (core := get_ooo_cpu_module_lines (module_info parsed_config)).
  set (cache := get_cache_module_lines (module_info parsed_config)).
  set (six :=
         [(instantiation_file_name,
           get_instantiation_lines (elements parsed_config));
          (constants_file_name,
           get_constants_file (config_file parsed_config)
                              (elements parsed_config));
          (core_module_declaration_file_name, core.1);
          (core_module_definition_file_name, core.2);
          (cache_module_declaration_file_name, cache.1);
          (cache_module_definition_file_name, cache.2)]).
  set (A := six ++ (module_file_of <$> earlier)).
  set (B := module_file_of <$> later).
  assert (include_files parsed_config = A ++ module_file_of m :: B) as Hfs.
  { unfold include_files. fold core cache six. rewrite Hjoined.
    subst A B. by rewrite fmap_app, fmap_cons, app_assoc. }
  assert (Hrel : Py.startswith (name m +:+ ".inc") "/" = false)
    by (by apply NameFacts.is_stem_relative).
  assert (Hlast : PosixPathInv.last_char path = Some "c"%char).
  { subst path. apply RunFacts.join_last_char.
    apply FileWriteFacts.last_char_inc. }
  apply Forall_app in Hothers as [Hearlier Hlater].
  assert (Hmods : ∀ ms n1,
            Forall (λ m', Py.startswith (name m') "/" = false
                          ∧ name m' ≠ name m) ms →
            path ∉ (submit inc_dir n1 (module_file_of <$> ms)).*1).
  { intros ms n1 Hms Hin. rewrite RunFacts.submit_paths in Hin.
    apply list_elem_of_fmap in Hin as (f & Heq & Hf).
    apply list_elem_of_fmap in Hf as (m' & -> & Hm').
    rewrite Forall_forall in Hms. destruct (Hms m' Hm') as [Hrel' Hne].
    apply Hne. cbn [module_file_of fst] in Heq. subst path.
    apply ModuleFileFacts.join_relative_inj in Heq; [|done|].
    - symmetry. by apply ModuleFileFacts.append_inv_tail with ".inc".
    - by apply ModuleFileFacts.relative_append. }
  rewrite (FlushFacts.finish_single _ _ path (n0 + length A)
             (submit inc_dir n0 A)
             (submit inc_dir (S (n0 + length A)) B
              ++ [(makefile_file_name cwd module_file,
                   Generator (n0 + length (include_files parsed_config)))])).
  - assert (banner_for path = cxx_generated_warning) as ->.
    { subst path.
      by rewrite (NameFacts.banner_for_joined _ (name m) "inc"). }
    do 3 f_equal. cbn [generators set_generators]. rewrite Hfs.
    rewrite fmap_app, fmap_cons, <- !app_assoc, app_assoc.
    cbn [app]. rewrite list_lookup_middle; [done|].
    rewrite length_app, length_fmap. by subst n0.
  - unfold w, FileWriter_init. cbn [with_fileparts fileparts app].
    rewrite Hfs at 1.
    rewrite WriteFilesFacts.submit_app, WriteFilesFacts.submit_cons.
    rewrite <- app_assoc. done.
  - subst A. rewrite WriteFilesFacts.submit_app, fmap_app.
    apply not_elem_of_app. split; [|by apply Hmods].
    intros Hin. rewrite RunFacts.submit_paths in Hin.
    apply list_elem_of_fmap in Hin as (f & Heq & Hf). subst path.
    assert (Py.startswith f.1 "/" = false ∧ f.1 ≠ name m +:+ ".inc")
      as [Hf1 Hf2].
    { subst six. rewrite !elem_of_cons, elem_of_nil in Hf.
      rewrite !elem_of_cons, elem_of_nil in Hfixed.
      destruct Hf as [->|[->|[->|[->|[->|[->|[]]]]]]]; cbn [fst];
        (split; [done|]); intros Heq';
        first [ apply (f_equal PosixPathInv.last_char) in Heq';
                rewrite FileWriteFacts.last_char_inc in Heq'; discriminate
              | apply Hfixed;
                match type of Heq' with
                | ?file = _ =>
                    let stem := eval vm_compute in
                      (String.substring 0 (String.length file - 4) file) in
                    change file with (stem +:+ ".inc") in Heq'
                end;
                apply ModuleFileFacts.append_inv_tail in Heq';
                rewrite <- Heq'; tauto ]. }
    apply Hf2. symmetry. by apply ModuleFileFacts.join_relative_inj in Heq.
  - rewrite fmap_app. apply not_elem_of_app. split; [by apply Hmods|].
    apply RunFacts.last_char_absent with "c"%char; [done|].
    repeat constructor. cbn [fst].
    rewrite (FileWriteFacts.makefile_last_char cwd module_file).
    discriminate.
  - unfold w, FileWriter_init. cbn [with_fileparts fileparts app].
    rewrite (RunFacts.run_generators inc_dir n0 (include_files parsed_config)).
    apply NoDup_seq.
  - done.
Qed.

(** The second of two modules. *)
Lemma X20_demo_module_file :
  let path :=
    PosixPath.join
      (PosixPath.join (PosixPath.abspath demo_cwd "obj") ["c3233bd1"; "inc"])
      ["m2" +:+ ".inc"] in
  let run :=
    writer demo_cwd demo_file (Some "bin") (Some "obj")
      (write_files demo_cwd demo_file (H := demo_collaborators)
                   (demo_config ["m1"; "m2"]) None None None)
      empty_world in
  files run.2 !! path
  = Some (Py.join NL
            (cxx_generated_warning
             ++ ((λ x : string * string, "#define " +:+ x.1 +:+ " " +:+ x.2)
                   <$> [("initialize", "m2_initialize")]))).
Proof.
  intros path.
  apply (X20_module_file_of_a_run demo_cwd demo_file
           (collaborators := demo_collaborators)
           (demo_config ["m1"; "m2"])
           None None None (Some "bin") (Some "obj") empty_world
           "c3233bd1" "obj" "bin"
           [mkModuleEntry "m1" [("initialize", "m1_initialize")]]
           []
           (mkModuleEntry "m2" [("initialize", "m2_initialize")])).
  - vm_compute. reflexivity.
  - reflexivity.
  - reflexivity.
  - reflexivity.
  - reflexivity.
  - repeat constructor. discriminate.
  - vm_compute. intros Hin.
    repeat (apply elem_of_cons in Hin as [Hin|Hin]; [discriminate|]).
    by apply elem_of_nil in Hin.
  - reflexivity.
Defined.
(** X21: a block whose invocation has a build identifier and an object
    directory but no binary directory raises [TypeError], and the flush
    on the way out still writes the include files: the constants header,
    if it was not there, holds the C++ banner and the lines of the
    constants generator.  The makefile is as it was before the block. *)
Theorem X21_failed_run_writes_includes cwd module_file
    {Elements ModuleInfo ConfigFile Env : Type}
    {collaborators : @Collaborators Elements ModuleInfo ConfigFile Env}
    (parsed_config : ParsedConfig)
    (bindir_name : option string) (srcdir_names : option (list string))
    (objdir_name : option string) (bindir0 objdir0 : option string)
    (wd : World) (build_id objdir : string) :
  compute_build_id parsed_config = Some build_id →
  py_or objdir_name objdir0 = Some objdir →
  py_or bindir_name bindir0 = None →
  let header :=
    PosixPath.join
      (PosixPath.join (PosixPath.abspath cwd objdir) [build_id; "inc"])
      [constants_file_name] in
  let run :=
    writer cwd module_file bindir0 objdir0
      (write_files cwd module_file parsed_config bindir_name srcdir_names
                   objdir_name) wd in
  run.1 = Raise TypeError
  ∧ files run.2 !! makefile_file_name cwd module_file
    = files wd !! makefile_file_name cwd module_file
  ∧ (files wd !! header = None →
     files run.2 !! header
     = Some (Py.join NL
               (cxx_generated_warning
                ++ get_constants_file (config_file parsed_config)
                                      (elements parsed_config)))).
Proof.
  intros Hid Hobj Hbin header run. subst run.
  set (w := FileWriter_init cwd module_file bindir0 objdir0).
  pose proof (WriteFilesFacts.write_files_effect cwd module_file
                parsed_config bindir_name srcdir_names objdir_name w wd
                build_id objdir Hid Hobj) as Heff.
  cbv zeta in Heff.
  change (FileWrite.bindir_name w) with bindir0 in Heff.
  rewrite Hbin in Heff.
  rewrite (RunFacts.writer_outcome cwd module_file _ _ _ _ _ _ Heff).
  split; [done|]. cbn [snd]. split.
  - rewrite FlushFacts.finish_untouched; [done|].
    unfold w, FileWriter_init. cbn [with_fileparts fileparts app].
    apply RunFacts.makefile_not_submitted.
  - intros Hnone.
    eapply (RunFacts.constants_header_content parsed_config _ _ _
              (generators wd) [] []);
      [by rewrite app_nil_r|constructor| |by rewrite app_nil_r|done].
    unfold w, FileWriter_init. cbn [with_fileparts fileparts app].
    rewrite RunFacts.generators_of_submit. apply NoDup_seq.
Qed.

(** The demo configuration without a binary directory, in a block. *)
Lemma X21_demo_failed_run :
  let header :=
    PosixPath.join
      (PosixPath.join (PosixPath.abspath demo_cwd "obj") ["c3233bd1"; "inc"])
      [constants_file_name] in
  let run :=
    writer demo_cwd demo_file None None
      (write_files demo_cwd demo_file (H := demo_collaborators)
                   (demo_config ["m1"]) None None (Some "obj"))
      empty_world in
  run.1 = Raise TypeError
  ∧ files run.2 !! makefile_file_name demo_cwd demo_file
    = files empty_world !! makefile_file_name demo_cwd demo_file
  ∧ (files empty_world !! header = None →
     files run.2 !! header
     = Some (Py.join NL
               (cxx_generated_warning
                ++ get_constants_file (Collaborators := demo_collaborators)
                     () ()))).
Proof.
  apply (X21_failed_run_writes_includes demo_cwd demo_file
           (collaborators := demo_collaborators) (demo_config ["m1"])
           None None (Some "obj") None None empty_world "c3233bd1" "obj").
  - vm_compute. reflexivity.
  - reflexivity.
  - reflexivity.
Defined.

(** X22: two invocations of [write_files] in one block, for two
    configurations, give one makefile: if it was not there, it holds the
    make banner once and then the makefile lines of the first
    invocation, then those of the second. *)
Theorem X22_makefile_of_two_runs cwd module_file
    {Elements ModuleInfo ConfigFile Env : Type}
    {collaborators : @Collaborators Elements ModuleInfo ConfigFile Env}
    (first second : ParsedConfig) (bindir objdir : string)
    (wd : World) (first_id second_id : string) :
  compute_build_id first = Some first_id →
  compute_build_id second = Some second_id →
  files wd !! makefile_file_name cwd module_file = None →
  let src := PosixPath.join (champsim_root cwd module_file) ["src"] in
  let run :=
    writer cwd module_file (Some bindir) (Some objdir)
      (write_files cwd module_file first None None None;;
       write_files cwd module_file second None None None) wd in
  run.1 = Ret ()
  ∧ files run.2 !! makefile_file_name cwd module_file
    = Some (Py.join NL
              (make_generated_warning
               ++ makefile_lines first objdir first_id bindir None src
               ++ makefile_lines second objdir second_id bindir None src)).
Proof.
  intros Hid1 Hid2 Hnone src run. subst run.
  set (w := FileWriter_init cwd module_file (Some bindir) (Some objdir)).
  assert (py_or None (Some objdir) = Some objdir) as Hobj' by done.
  assert (py_or None (Some bindir) = Some bindir) as Hbin' by done.
  pose proof (WriteFilesFacts.write_files_effect cwd module_file
                first None None None w wd first_id objdir Hid1 Hobj')
    as Heff1.
  cbv zeta in Heff1.
  change (FileWrite.bindir_name w) with (Some bindir) in Heff1.
  rewrite Hbin' in Heff1.
  set (inc1 := PosixPath.join (PosixPath.abspath cwd objdir)
                              [first_id; "inc"]) in *.
  set (inc2 := PosixPath.join (PosixPath.abspath cwd objdir)
                              [second_id; "inc"]).
  set (n0 := length (generators wd)) in *.
  set (fs1 := include_files first) in *.
  set (fs2 := include_files second).
  set (l1 := makefile_lines first objdir first_id bindir None
                            (core_sources w)) in *.
  set (mk := makefile_file_name cwd module_file) in *.
  set (parts1 := submit inc1 n0 fs1 ++ [(mk, Generator (n0 + length fs1))])
    in *.
  set (gens1 := generators wd ++ fs1.*2 ++ [l1]) in *.
  set (w1 := with_fileparts w (fileparts w ++ parts1)) in *.
  set (wd1 := set_generators gens1 wd) in *.
  pose proof (WriteFilesFacts.write_files_effect cwd module_file
                second None None None w1 wd1 second_id objdir Hid2 Hobj')
    as Heff2.
  cbv zeta in Heff2.
  change (FileWrite.bindir_name w1) with (Some bindir) in Heff2.
  rewrite Hbin' in Heff2.
  fold inc2 fs2 mk in Heff2.
  change (generators wd1) with gens1 in Heff2.
  change (core_sources w1) with (core_sources w) in Heff2.
  set (n1 := length gens1) in *.
  set (l2 := makefile_lines second objdir second_id bindir None
                            (core_sources w)) in *.
  assert (Hn1 : n1 = n0 + S (length fs1)).
  { subst n1 gens1. rewrite !length_app, length_fmap. simpl. subst n0. lia. }
  assert ((write_files cwd module_file first None None None;;
           write_files cwd module_file second None None None) (w, wd)
          = (Ret (),
             (with_fileparts w1
                (fileparts w1 ++ submit inc2 n1 fs2
                 ++ [(mk, Generator (n1 + length fs2))]),
              set_generators (gens1 ++ fs2.*2 ++ [l2]) wd1))) as Hbody.
  { rewrite (FileWriteFacts.bind_result_step _ _ _ _ _ Heff1).
    exact Heff2. }
  rewrite (RunFacts.writer_outcome cwd module_file _ _ _ _ _ _ Hbody).
  split; [done|]. cbn [snd].
  assert (Hmk1 : mk ∉ (submit inc1 n0 fs1).*1)
    by apply RunFacts.makefile_not_submitted.
  assert (Hmk2 : mk ∉ (submit inc2 n1 fs2).*1)
    by apply RunFacts.makefile_not_submitted.
  rewrite FlushFacts.finish_content.
  - unfold mk at 1. rewrite RunFacts.banner_for_makefile. do 3 f_equal.
    unfold w1, w, FileWriter_init, parts1.
    cbn [with_fileparts fileparts app generators set_generators].
    unfold group_of. rewrite !filter_app.
    fold (group_of mk (submit inc1 n0 fs1)).
    fold (group_of mk (submit inc2 n1 fs2)).
    rewrite !FlushFacts.group_of_absent by done.
    rewrite !filter_cons, !decide_True by done. rewrite filter_nil.
    cbn [app fmap list_fmap]. unfold pending. cbn [iterate fst snd].
    change (mjoin [?a; ?b]) with (a ++ b ++ []).
    assert ((gens1 ++ fs2.*2 ++ [l2]) !! (n0 + length fs1) = Some l1) as ->.
    { rewrite lookup_app_l by lia. subst gens1. rewrite app_assoc.
      apply list_lookup_middle. rewrite length_app, length_fmap.
      by subst n0. }
    assert ((gens1 ++ fs2.*2 ++ [l2]) !! (n1 + length fs2) = Some l2) as ->.
    { rewrite app_assoc. apply list_lookup_middle.
      rewrite length_app, length_fmap. by subst n1. }
    cbn [default]. by rewrite app_nil_r.
  - unfold w1, w, FileWriter_init, parts1.
    cbn [with_fileparts fileparts app].
    rewrite RunFacts.generators_of_app, !RunFacts.run_generators.
    rewrite Hn1, <- seq_app. apply NoDup_seq.
  - unfold w1, w, FileWriter_init, parts1.
    cbn [with_fileparts fileparts app].
    rewrite !fmap_app. apply elem_of_app. left. apply elem_of_app. right.
    apply list_elem_of_here.
  - done.
Qed.

(** Two configurations with one serialization. *)
Lemma X22_demo_two_runs :
  let src := PosixPath.join (champsim_root demo_cwd demo_file) ["src"] in
  let run :=
    writer demo_cwd demo_file (Some "bin") (Some "obj")
      (write_files demo_cwd demo_file (H := demo_collaborators)
                   (demo_config ["m1"]) None None None;;
       write_files demo_cwd demo_file (H := demo_collaborators)
                   (demo_config ["m2"]) None None None)
      empty_world in
  run.1 = Ret ()
  ∧ files run.2 !! makefile_file_name demo_cwd demo_file
    = Some (Py.join NL
              (make_generated_warning
               ++ makefile_lines (collaborators := demo_collaborators)
                    (demo_config ["m1"]) "obj" "c3233bd1" "bin" None src
               ++ makefile_lines (collaborators := demo_collaborators)
                    (demo_config ["m2"]) "obj" "c3233bd1" "bin" None src)).
Proof.
  apply (X22_makefile_of_two_runs demo_cwd demo_file
           (collaborators := demo_collaborators)
           (demo_config ["m1"]) (demo_config ["m2"]) "bin" "obj"
           empty_world "c3233bd1" "c3233bd1").
  - vm_compute. reflexivity.
  - vm_compute. reflexivity.
  - reflexivity.
Defined.

(** X23: after a flush of fragments that are lists of plain lines, the
    file of every fragment, whether it was written by this flush or
    left as it was, reads back, line by line and up to the whitespace
    around each line, as the banner of its path followed by the lines of
    its fragments in the order of submission. *)
Theorem X23_finish_settles_files self wd P :
  forallb reiterable (fileparts self) = true →
  P ∈ (fileparts self).*1 →
  ∃ stored,
    files (finish (self, wd)).2.2 !! P = Some stored
    ∧ Py.strip <$> Py.readlines stored
      = Py.strip
          <$> Py.splitlines
                (Py.join NL
                   (banner_for P
                    ++ mjoin (lines_of <$> group_of P (fileparts self)))).
Proof. apply FlushFacts.finish_settles. Qed.

(** A file whose lines are indented is left as it is. *)
Lemma X23_indented_file_example :
  ∃ stored,
    files (finish (mkFileWriter [("a.txt", Lines ["x"]);
                                 ("a.txt", Lines ["y"])] None "" None,
                   mkWorld {["a.txt" := "  x" +:+ NL +:+ "y  " +:+ NL]}
                           [] [])).2.2 !! "a.txt"
    = Some stored
    ∧ Py.strip <$> Py.readlines stored
      = Py.strip
          <$> Py.splitlines
                (Py.join NL
                   (banner_for "a.txt"
                    ++ mjoin (lines_of
                                <$> group_of "a.txt"
                                      [("a.txt", Lines ["x"]);
                                       ("a.txt", Lines ["y"])]))).
Proof.
  apply (X23_finish_settles_files
           (mkFileWriter [("a.txt", Lines ["x"]); ("a.txt", Lines ["y"])]
                         None "" None)
           (mkWorld {["a.txt" := "  x" +:+ NL +:+ "y  " +:+ NL]} [] [])
           "a.txt").
  - reflexivity.
  - simpl. apply list_elem_of_here.
Defined.
